(** * planador-iot: the MicroPython flight core, embedded in Rocq

    A shallow embedding of the modular firmware under [src/micropython]:
    [config.py], [pid_controller.py], [hardware.py], [sensors.py],
    [release_system.py] and [main_modular.py].

    Conventions of the embedding.
    - Python numbers that may be [float] are exact rationals ([Q]); integer
      quantities (timestamps, pulse widths, duty cycles, servo angles after
      [int()]) are [Z]. The PID controller is embedded a second time, in
      [PIDFloat], with its numbers as CPython has them ([int]s and IEEE 754
      binary64 floats), for the results that depend on the rounding of its
      arithmetic.
    - A Python call either returns a value or raises; a method that mutates
      [self] returns the object after the call next to that outcome, so the
      mutations done before a [raise] stay visible.
    - Everything the hardware or the clock contributes to a call is an
      explicit argument of the embedded method. *)

From Stdlib Require Import ZArith QArith Qround Bool Lia String SpecFloat.
From stdpp Require Import base option list gmap strings fin_maps.

Local Open Scope Z_scope.

(** ** Python outcomes *)

(** The exceptions the modelled code can meet; all of them derive from
    Python's [Exception]. [OSError] stands for a failing hardware call. *)
Inductive exn : Type :=
  | TypeError
  | ZeroDivisionError
  | KeyError
  | ValueError
  | OSError
  | OverflowError.

Inductive result (A : Type) : Type :=
  | Ok (a : A)
  | Raise (e : exn).
Arguments Ok {A} a.
Arguments Raise {A} e.

Definition rbind {A B : Type} (r : result A) (k : A -> result B) : result B :=
  match r with
  | Ok a => k a
  | Raise e => Raise e
  end.

Definition returns {A : Type} (r : result A) : Prop :=
  match r with
  | Ok _ => True
  | Raise _ => False
  end.

(** ** Python arithmetic on numbers *)

Module Py.

Definition ltb (x y : Q) : bool := negb (Qle_bool y x).

(** [min(a, b)]: the first argument unless the second is smaller. *)
Definition min (a b : Q) : Q := if ltb b a then b else a.

(** [max(a, b)]: the first argument unless the second is larger. *)
Definition max (a b : Q) : Q := if ltb a b then b else a.

(** [x / y]: true division, which raises on a zero divisor. *)
Definition truediv (x y : Q) : result Q :=
  if Qeq_bool y 0 then Raise ZeroDivisionError else Ok (x / y)%Q.

(** [int(x)]: truncation toward zero. *)
Definition int (x : Q) : Z := Z.quot (Qnum x) (Z.pos (Qden x)).

(** [a // b] on integers: floor division. *)
Definition floordiv (a b : Z) : Z := Z.div a b.

End Py.

(** [time.ticks_diff] of MicroPython: the signed distance between two tick
    counters that wrap around at [2^30]. *)
Definition TICKS_PERIOD : Z := 2 ^ 30.

Definition ticks_diff (t1 t0 : Z) : Z :=
  (t1 - t0 + TICKS_PERIOD / 2) mod TICKS_PERIOD - TICKS_PERIOD / 2.

(** ** config.py *)

Record ReleaseConfig : Type := {
  locked_position : Z;
  release_position : Z;
  rc_threshold : Z;
  safety_delay : Z;
  auto_lock_time : Z;
  emergency_override : bool
}.

Definition RELEASE_CONFIG : ReleaseConfig := {|
  locked_position := 45;
  release_position := 135;
  rc_threshold := 1700;
  safety_delay := 2000;
  auto_lock_time := 5000;
  emergency_override := true
|}.

Record SystemConfig : Type := {
  main_loop_frequency : Z;
  telemetry_interval : Z;
  rc_read_interval : Z;
  button_debounce : Z;
  led_blink_fast : Z;
  led_blink_slow : Z;
  servo_frequency : Z;
  i2c_frequency : Z
}.

Definition SYSTEM_CONFIG : SystemConfig := {|
  main_loop_frequency := 50;
  telemetry_interval := 3000;
  rc_read_interval := 50;
  button_debounce := 300;
  led_blink_fast := 200;
  led_blink_slow := 1000;
  servo_frequency := 50;
  i2c_frequency := 400000
|}.

Record SafetyLimits : Type := {
  servo_min_angle : Z;
  servo_max_angle : Z;
  servo_neutral_angle : Z;
  pwm_min_duty : Z;
  pwm_max_duty : Z;
  rc_min_pulse : Z;
  rc_max_pulse : Z;
  rc_neutral_pulse : Z;
  max_pid_integral : Z;
  sensor_timeout : Z;
  rc_timeout : Z
}.

Definition SAFETY_LIMITS : SafetyLimits := {|
  servo_min_angle := 30;
  servo_max_angle := 150;
  servo_neutral_angle := 90;
  pwm_min_duty := 40;
  pwm_max_duty := 115;
  rc_min_pulse := 800;
  rc_max_pulse := 2200;
  rc_neutral_pulse := 1500;
  max_pid_integral := 10;
  sensor_timeout := 10000;
  rc_timeout := 3000
|}.

(** One entry of [FLIGHT_MODES]: ['name'], the nine ['gains'] (Kp, Ki, Kd of
    roll, pitch and yaw), the three ['limits'], the two ['target'] set points
    and the ['flaps'] base position. [config.py] documents the table but does
    not define it, so the controller below takes it as a parameter. *)
Record Gains : Type := {
  g0 : Q; g1 : Q; g2 : Q;
  g3 : Q; g4 : Q; g5 : Q;
  g6 : Q; g7 : Q; g8 : Q
}.

Record FlightMode : Type := {
  name : string;
  gains : Gains;
  limits : Q * Q * Q;
  target : Q * Q;
  flaps : Z
}.

(** [STABILIZATION_GAINS] and [STABILIZATION_LIMITS] of [config.py]. *)
Definition STABILIZATION_GAINS : Gains := {|
  g0 := 2; g1 := 15 # 100; g2 := 1;
  g3 := 25 # 10; g4 := 18 # 100; g5 := 12 # 10;
  g6 := 12 # 10; g7 := 6 # 100; g8 := 5 # 10
|}.

Definition STABILIZATION_LIMITS : Q * Q * Q := (25 # 1, 30 # 1, 18 # 1)%Q.

(** A one-mode table built from those two constants, used to run the
    controller on concrete inputs. *)
Definition stabilization_mode : FlightMode := {|
  name := "ESTABILIZACAO";
  gains := STABILIZATION_GAINS;
  limits := STABILIZATION_LIMITS;
  target := (0, 0)%Q;
  flaps := 0
|}.

Definition stabilization_table : gmap Z FlightMode := {[ 0 := stabilization_mode ]}.

(** ** pid_controller.py *)

Module PIDController.

Record t : Type := {
  integral : Q * Q * Q;
  prev_error : Q * Q * Q;
  flight_mode : Z
}.

Definition zero3 : Q * Q * Q := (0, 0, 0)%Q.

(** [__init__] *)
Definition init : t :=
  {| integral := zero3; prev_error := zero3; flight_mode := 0 |}.

(** [reset] *)
Definition reset (self : t) : t :=
  {| integral := zero3; prev_error := zero3; flight_mode := flight_mode self |}.

(** [emergency_stop] *)
Definition emergency_stop (self : t) : t := reset self.

(** [_limit_output]: [max(-limit, min(limit, output))] *)
Definition _limit_output (output limit : Q) : Q :=
  Py.max (- limit) (Py.min limit output).

(** The anti-windup line of [calculate]:
    [max(-SAFETY_LIMITS['max_pid_integral'],
         min(SAFETY_LIMITS['max_pid_integral'], self.integral[i]))] *)
Definition anti_windup (x : Q) : Q :=
  Py.max (- inject_Z (max_pid_integral SAFETY_LIMITS))
         (Py.min (inject_Z (max_pid_integral SAFETY_LIMITS)) x).

(** The default value of [calculate]'s parameter [dt]. *)
Definition default_dt : Q := 1 # 10.

(** The mixing and clamping lines of [calculate_servo_commands], applied to
    a PID output [pid_out] and the flap base of the active mode:
    [int(max(servo_min_angle, min(servo_max_angle, cmd)))] for each of
    [flaps_left, flaps_right, elevator, rudder]. *)
Definition clamp_command (cmd : Q) : Z :=
  Py.int (Py.max (inject_Z (servo_min_angle SAFETY_LIMITS))
                 (Py.min (inject_Z (servo_max_angle SAFETY_LIMITS)) cmd)).

Definition mix_commands (pid_out : Q * Q * Q) (flaps_base : Z) : list Z :=
  let '(out0, out1, out2) := pid_out in
  let neutral := inject_Z (servo_neutral_angle SAFETY_LIMITS) in
  let flaps_left := (neutral + inject_Z flaps_base - out0)%Q in
  let flaps_right := (neutral + inject_Z flaps_base + out0)%Q in
  let elevator := (neutral - out1)%Q in
  let rudder := (neutral + out2)%Q in
  List.map clamp_command [flaps_left; flaps_right; elevator; rudder].

Definition clampZ (angle : Z) : Z :=
  Z.max (servo_min_angle SAFETY_LIMITS)
        (Z.min (servo_max_angle SAFETY_LIMITS) angle).

(** One servo command, cut to an integer degree as [int()] does and then
    clamped to the servo range. *)
Definition truncated_and_clamped (cmd : Q) : Z := clampZ (Py.int cmd).

(** The specification's wording of one servo command: the value rounded to
    an integer degree (the nearest one, a half going up) and then clamped
    to the servo range. *)
Definition round_nearest (x : Q) : Z := Qfloor (x + (1 # 2)).

Definition rounded_and_clamped (cmd : Q) : Z := clampZ (round_nearest cmd).

Definition within_servo_range (angle : Z) : Prop :=
  servo_min_angle SAFETY_LIMITS <= angle <= servo_max_angle SAFETY_LIMITS.

Section WithFlightModes.

Variable FLIGHT_MODES : gmap Z FlightMode.

(** [set_flight_mode] *)
Definition set_flight_mode (self : t) (mode_index : Z) : t * bool :=
  if (0 <=? mode_index) && (mode_index <? Z.of_nat (size FLIGHT_MODES)) then
    if negb (flight_mode self =? mode_index) then
      (reset {| integral := integral self;
                prev_error := prev_error self;
                flight_mode := mode_index |}, true)
    else (self, true)
  else (self, false).

(** [get_flight_mode_info]: [FLIGHT_MODES[self.flight_mode]] *)
Definition get_flight_mode_info (self : t) : result FlightMode :=
  match FLIGHT_MODES !! flight_mode self with
  | Some mode => Ok mode
  | None => Raise KeyError
  end.

(** The three error terms of [calculate]. *)
Definition errors_of (mode : FlightMode) (roll pitch yaw_rate : Q) : Q * Q * Q :=
  let '(target0, target1) := target mode in
  ((target0 - roll)%Q, (target1 - pitch)%Q, (- yaw_rate)%Q).

(** [calculate]. The integral loop runs first and updates [self.integral]
    in place; the derivative tuple is built next, one division per axis;
    [self.prev_error] is assigned only after it. *)
Definition calculate (self : t) (roll pitch yaw_rate dt : Q)
  : t * result (Q * Q * Q) :=
  match get_flight_mode_info self with
  | Raise e => (self, Raise e)
  | Ok mode =>
    let g := gains mode in
    let '(limit0, limit1, limit2) := limits mode in
    let errors := errors_of mode roll pitch yaw_rate in
    let '(e0, e1, e2) := errors in
    let '(i0, i1, i2) := integral self in
    let n0 := anti_windup (i0 + e0 * dt) in
    let n1 := anti_windup (i1 + e1 * dt) in
    let n2 := anti_windup (i2 + e2 * dt) in
    let self1 := {| integral := (n0, n1, n2);
                    prev_error := prev_error self;
                    flight_mode := flight_mode self |} in
    let '(p0, p1, p2) := prev_error self in
    let derivatives :=
      rbind (Py.truediv (e0 - p0) dt) (fun d0 =>
      rbind (Py.truediv (e1 - p1) dt) (fun d1 =>
      rbind (Py.truediv (e2 - p2) dt) (fun d2 =>
      Ok (d0, d1, d2)))) in
    match derivatives with
    | Raise e => (self1, Raise e)
    | Ok (d0, d1, d2) =>
      let self2 := {| integral := (n0, n1, n2);
                      prev_error := errors;
                      flight_mode := flight_mode self |} in
      let roll_out := (g0 g * e0 + g1 g * n0 + g2 g * d0)%Q in
      let pitch_out := (g3 g * e1 + g4 g * n1 + g5 g * d1)%Q in
      let yaw_out := (g6 g * e2 + g7 g * n2 + g8 g * d2)%Q in
      (self2, Ok (_limit_output roll_out limit0,
                  _limit_output pitch_out limit1,
                  _limit_output yaw_out limit2))
    end
  end.

(** [calculate_servo_commands]: [self.calculate(roll, pitch, yaw_rate)]
    with no [dt] argument, then the mixing on [mode['flaps']]. *)
Definition calculate_servo_commands (self : t) (roll pitch yaw_rate : Q)
  : t * result (list Z) :=
  match calculate self roll pitch yaw_rate default_dt with
  | (self', Raise e) => (self', Raise e)
  | (self', Ok pid_out) =>
    match get_flight_mode_info self' with
    | Raise e => (self', Raise e)
    | Ok mode => (self', Ok (mix_commands pid_out (flaps mode)))
    end
  end.

(** The states a controller can be in: built by [__init__], then driven
    by any sequence of its mutating methods with any arguments. *)
Inductive reachable : t -> Prop :=
  | reach_init : reachable init
  | reach_calculate self roll pitch yaw_rate dt :
      reachable self ->
      reachable (fst (calculate self roll pitch yaw_rate dt))
  | reach_servo_commands self roll pitch yaw_rate :
      reachable self ->
      reachable (fst (calculate_servo_commands self roll pitch yaw_rate))
  | reach_reset self :
      reachable self -> reachable (reset self)
  | reach_emergency_stop self :
      reachable self -> reachable (emergency_stop self)
  | reach_set_flight_mode self mode_index :
      reachable self ->
      reachable (fst (set_flight_mode self mode_index)).

End WithFlightModes.

Definition within_integral_limit (x : Q) : Prop :=
  (- inject_Z (max_pid_integral SAFETY_LIMITS) <= x)%Q /\
  (x <= inject_Z (max_pid_integral SAFETY_LIMITS))%Q.

Definition integral_bounded (self : t) : Prop :=
  let '(i0, i1, i2) := integral self in
  within_integral_limit i0 /\ within_integral_limit i1 /\ within_integral_limit i2.

End PIDController.

(** ** hardware.py *)

(** A [machine.PWM] channel, as far as the firmware observes it: the last
    duty cycle written with [duty()]. *)
Record PWM : Type := { duty : Z }.

(** What one poll of an input pin can give: [value()] returns 0 or 1, or the
    call fails. *)
Inductive PinRead : Type :=
  | Low
  | High
  | PinFault.

Module LEDManager.

(** [available_leds]: the LEDs that were initialised, each with the level
    last written by [value()]. A name that is missing here is a name whose
    entry in the Python dict is [None]. *)
Record t : Type := { available_leds : gmap string Z }.

Definition write (led_name : string) (v : Z) (self : t) : t :=
  {| available_leds := <[led_name := v]> (available_leds self) |}.

(** [all_off] *)
Definition all_off (self : t) : t :=
  {| available_leds := (fun _ => 0) <$> available_leds self |}.

(** [set_system_active] *)
Definition set_system_active (self : t) (active : bool) : t :=
  match available_leds self !! "system_active" with
  | Some _ => write "system_active" (if active then 1 else 0) self
  | None => self
  end.

(** [set_mode_pattern]; [now] is the [time.ticks_ms()] it reads. The
    remainder by [blinks + 2] raises when that number is zero. *)
Definition set_mode_pattern (self : t) (mode_index : Z) (active : bool) (now : Z)
  : t * result unit :=
  match available_leds self !! "mode" with
  | None => (self, Ok tt)
  | Some _ =>
    if negb active then (write "mode" 0 self, Ok tt)
    else
      let blinks := mode_index + 1 in
      if blinks + 2 =? 0 then (self, Raise ZeroDivisionError)
      else
        let cycle := (Py.floordiv now (led_blink_fast SYSTEM_CONFIG)) mod (blinks + 2) in
        (write "mode" (if cycle <? blinks then 1 else 0) self, Ok tt)
  end.

(** The [patterns] dict of [set_release_pattern], keys as written there. *)
Definition release_patterns (current_time : Z) : gmap string Z :=
  <["LOCKED" := 1]>
  (<["ARMED" := (Py.floordiv current_time (led_blink_fast SYSTEM_CONFIG)) mod 2]>
  (<["RELEASING" := 0]>
  (<["RELEASEED" := (Py.floordiv current_time (led_blink_slow SYSTEM_CONFIG)) mod 2]>
   ∅))).

(** [set_release_pattern]: [led.value(patterns.get(release_state, 0))] *)
Definition set_release_pattern (self : t) (release_state : string) (now : Z) : t :=
  match available_leds self !! "release" with
  | None => self
  | Some _ =>
    write "release" (default 0 (release_patterns now !! release_state)) self
  end.

(** [alert_sequence]: the alert LED blinks [count] times and is left off. *)
Definition alert_sequence (self : t) (count : Z) : t :=
  match available_leds self !! "alert" with
  | None => self
  | Some v => if 0 <? count then write "alert" 0 self else self
  end.

End LEDManager.

Module ButtonManager.

Record t : Type := {
  has_power_button : bool;
  mode_button_last : bool;
  power_button_last : bool;
  last_button_time : Z
}.

(** What [read_buttons] reads from outside: the clock and the level of the
    two pull-up inputs ([true] for a pin that reads 1). *)
Record Env : Type := {
  now_ms : Z;
  mode_pin : bool;
  power_pin : bool
}.

(** [read_buttons], returning the pair [(buttons['mode'], buttons['power'])]. *)
Definition read_buttons (self : t) (env : Env) : t * (bool * bool) :=
  if ticks_diff (now_ms env) (last_button_time self) <? button_debounce SYSTEM_CONFIG
  then (self, (false, false))
  else
    let mode_pressed := negb (mode_pin env) in
    let mode_clicked := mode_pressed && negb (mode_button_last self) in
    let power_pressed := negb (power_pin env) in
    let power_clicked :=
      if has_power_button self
      then power_pressed && negb (power_button_last self)
      else false in
    (* The clock is stamped on a click, then the mode level is stored. *)
    ({| has_power_button := has_power_button self;
        mode_button_last := mode_pressed;
        power_button_last :=
          if has_power_button self then power_pressed else power_button_last self;
        last_button_time :=
          if mode_clicked || power_clicked then now_ms env
          else last_button_time self |},
     (mode_clicked, power_clicked)).

End ButtonManager.

Module ServoManager.

Record t : Type := {
  servos : gmap string PWM;
  servo_names : list string
}.

(** [angle_to_duty]: the angle is clamped to the servo range first. *)
Definition angle_to_duty (angle : Z) : Z :=
  let angle := Z.max (servo_min_angle SAFETY_LIMITS)
                     (Z.min (servo_max_angle SAFETY_LIMITS) angle) in
  pwm_min_duty SAFETY_LIMITS +
  Py.floordiv (angle * (pwm_max_duty SAFETY_LIMITS - pwm_min_duty SAFETY_LIMITS)) 180.

Definition neutral_duty : Z := angle_to_duty (servo_neutral_angle SAFETY_LIMITS).

(** [__init__] on hardware that accepts the four PWM channels of
    [PLANADOR_SERVOS]. *)
Definition init : t :=
  {| servos :=
       <["flaps_left" := {| duty := neutral_duty |}]>
       (<["flaps_right" := {| duty := neutral_duty |}]>
       (<["elevator" := {| duty := neutral_duty |}]>
       (<["rudder" := {| duty := neutral_duty |}]> ∅)));
     servo_names := ["flaps_left"; "flaps_right"; "elevator"; "rudder"] |}.

(** [set_neutral] *)
Definition set_neutral (self : t) : t :=
  {| servos := (fun _ => {| duty := neutral_duty |}) <$> servos self;
     servo_names := servo_names self |}.

(** The loop of [apply_commands]: the [i]-th name takes the [i]-th command
    when the name is a key of [servos] and the command exists. *)
Fixpoint apply_loop (names : list string) (commands : list Z)
    (m : gmap string PWM) : gmap string PWM :=
  match names, commands with
  | servo_name :: names', cmd :: commands' =>
    apply_loop names' commands'
      (alter (fun _ => {| duty := angle_to_duty cmd |}) servo_name m)
  | _, _ => m
  end.

(** [apply_commands] *)
Definition apply_commands (self : t) (commands : list Z) : t :=
  {| servos := apply_loop (servo_names self) commands (servos self);
     servo_names := servo_names self |}.

Definition all_neutral (self : t) : Prop :=
  map_Forall (fun _ servo => duty servo = neutral_duty) (servos self).

End ServoManager.

(** [try: body / except Exception as e: handler]: the handler runs on the
    object as the body left it. *)
Definition try_except {S A : Type} (body : S * result A)
    (handler : exn -> S -> S * result A) : S * result A :=
  match body with
  | (s, Ok a) => (s, Ok a)
  | (s, Raise e) => handler e s
  end.

Module RCReceiver.

(** [rc_pin] is [false] when [__init__] could not open the pin
    ([self.rc_pin = None]). *)
Record t : Type := {
  rc_pin : bool;
  last_read_time : Z
}.

(** [__init__] on hardware that opens the pin. *)
Definition init : t := {| rc_pin := true; last_read_time := 0 |}.

(** What one call of [read_channel] reads from outside: the two
    [time.ticks_ms()] readings (the one compared with [last_read_time] and
    the one stored in it), the level seen by the [k]-th poll of the pin,
    and the [time.ticks_us()] reading once [k] polls have been made. *)
Record Env : Type := {
  ms_check : Z;
  ms_stamp : Z;
  pin_value : nat -> PinRead;
  ticks_us : nat -> Z
}.

Inductive wait_outcome : Type :=
  | WaitTimeout
  | WaitDone (polls : nat).

(** First loop: [while self.rc_pin.value() == 0], leaving with the neutral
    value once [timeout > sensor_timeout]. [budget] is
    [sensor_timeout + 1 - timeout], the number of sleeps still allowed. *)
Fixpoint wait_high (env : Env) (budget polls : nat) : result wait_outcome :=
  match pin_value env polls with
  | PinFault => Raise OSError
  | High => Ok (WaitDone (S polls))
  | Low =>
    match budget with
    | O => Ok WaitTimeout
    | S budget' => wait_high env budget' (S polls)
    end
  end.

(** Second loop: [while self.rc_pin.value() == 1], left by [break] once
    [timeout > rc_timeout]. Returns the number of polls made so far. *)
Fixpoint measure_high (env : Env) (budget polls : nat) : result nat :=
  match pin_value env polls with
  | PinFault => Raise OSError
  | Low => Ok (S polls)
  | High =>
    match budget with
    | O => Ok (S polls)
    | S budget' => measure_high env budget' (S polls)
    end
  end.

Definition in_pulse_range (pulse_width : Z) : bool :=
  (rc_min_pulse SAFETY_LIMITS <=? pulse_width) &&
  (pulse_width <=? rc_max_pulse SAFETY_LIMITS).

(** The body of the [try] block of [read_channel]. *)
Definition measure (env : Env) : result Z :=
  rbind (wait_high env (Z.to_nat (sensor_timeout SAFETY_LIMITS + 1)) 0) (fun w =>
  match w with
  | WaitTimeout => Ok (rc_neutral_pulse SAFETY_LIMITS)
  | WaitDone polls1 =>
    let start_time := ticks_us env polls1 in
    rbind (measure_high env (Z.to_nat (rc_timeout SAFETY_LIMITS + 1)) polls1) (fun polls2 =>
    let pulse_width := ticks_diff (ticks_us env polls2) start_time in
    Ok (if in_pulse_range pulse_width then pulse_width
        else rc_neutral_pulse SAFETY_LIMITS))
  end).

(** The value of [pulse_width] when the [try] block reaches its last line:
    both loops were left with the pin seen high and then measured. *)
Definition measured_pulse (env : Env) : option Z :=
  match wait_high env (Z.to_nat (sensor_timeout SAFETY_LIMITS + 1)) 0 with
  | Ok (WaitDone polls1) =>
    match measure_high env (Z.to_nat (rc_timeout SAFETY_LIMITS + 1)) polls1 with
    | Ok polls2 => Some (ticks_diff (ticks_us env polls2) (ticks_us env polls1))
    | Raise _ => None
    end
  | _ => None
  end.

(** A pulse in the accepted range, or the neutral pulse. *)
Definition acceptable (v : Z) : Prop :=
  rc_min_pulse SAFETY_LIMITS <= v <= rc_max_pulse SAFETY_LIMITS \/
  v = rc_neutral_pulse SAFETY_LIMITS.

(** The guard at the top of [read_channel]. *)
Definition throttled (self : t) (env : Env) : bool :=
  negb (rc_pin self) ||
  (ticks_diff (ms_check env) (last_read_time self) <? rc_read_interval SYSTEM_CONFIG).

(** [read_channel] *)
Definition read_channel (self : t) (env : Env) : t * Z :=
  if throttled self env then (self, rc_neutral_pulse SAFETY_LIMITS)
  else
    let self' := {| rc_pin := rc_pin self; last_read_time := ms_stamp env |} in
    match measure env with
    | Ok v => (self', v)
    | Raise _ => (self', rc_neutral_pulse SAFETY_LIMITS)
    end.

(** A pin that is low for [low] polls, then high for [high] polls, then
    low again, read by a clock that advances [step] microseconds per poll. *)
Definition square_pulse (low high : nat) (k : nat) : PinRead :=
  if (k <? low)%nat then Low
  else if (k <? low + high)%nat then High
  else Low.

Definition pulse_env (check stamp : Z) (low high : nat) (step : Z) : Env :=
  {| ms_check := check;
     ms_stamp := stamp;
     pin_value := square_pulse low high;
     ticks_us := fun k => step * Z.of_nat k |}.

End RCReceiver.

(** ** sensors.py *)

(** The functions of Python's [math] module that the sensor code calls.
    [sqrt] may raise, as [math.sqrt] does outside its domain. *)
Record MathLib : Type := {
  sin : Q -> Q;
  cos : Q -> Q;
  atan2 : Q -> Q -> Q;
  sqrt : Q -> result Q
}.

Definition RAD_TO_DEG : Q := 572958 # 10000.

(** [calculate_attitude], the same body in [MPU6050] and [SimulatedSensor]. *)
Definition calculate_attitude (math : MathLib) (ax ay az : Q) : result (Q * Q) :=
  let roll := (atan2 math ay az * RAD_TO_DEG)%Q in
  rbind (sqrt math (ay * ay + az * az)%Q) (fun root =>
  Ok (roll, (atan2 math (- ax) root * RAD_TO_DEG)%Q)).

Module MPU6050.

Record t : Type := { available : bool }.

(** [struct.unpack('>h', ...)] on two bytes. *)
Definition unpack_h (hi lo : Z) : Z :=
  let u := hi * 256 + lo in
  if u <? 32768 then u else u - 65536.

Definition word_at (data : list Z) (i : nat) : option Z :=
  match data !! i, data !! S i with
  | Some hi, Some lo => Some (unpack_h hi lo)
  | _, _ => None
  end.

(** [read_raw_data]; [i2c_block] is what [readfrom_mem(MPU6050_ADDR, 0x3B, 14)]
    gives. Every failure inside the [try] yields [None]. *)
Definition read_raw_data (self : t) (i2c_block : result (list Z))
  : option (Q * Q * Q * Q) :=
  if negb (available self) then None
  else
    match i2c_block with
    | Raise _ => None
    | Ok data =>
      match word_at data 0, word_at data 2, word_at data 4, word_at data 12 with
      | Some rx, Some ry, Some rz, Some rg =>
        Some ((inject_Z rx / 16384)%Q, (inject_Z ry / 16384)%Q,
              (inject_Z rz / 16384)%Q, (inject_Z rg / 131)%Q)
      | _, _, _, _ => None
      end
    end.

End MPU6050.

Module SimulatedSensor.

Record t : Type := { start_time : Z }.

(** [read_raw_data]; [now] is the [time.ticks_ms()] it reads. *)
Definition read_raw_data (math : MathLib) (self : t) (now : Z) : Q * Q * Q * Q :=
  let t := (inject_Z (ticks_diff now (start_time self)) / 5000)%Q in
  let ax := (sin math (t * (3 # 10)) * (1 # 10))%Q in
  let ay := (cos math (t * (2 # 10)) * (1 # 10))%Q in
  let az := (1 + sin math (t * (1 # 10)) * (5 # 100))%Q in
  let gz := (sin math (t * (4 # 10)) * 2)%Q in
  (ax, ay, az, gz).

End SimulatedSensor.

Module SensorManager.

(** [self.sensor] is either [self.mpu6050] itself or a [SimulatedSensor]. *)
Inductive active_sensor : Type :=
  | Real
  | Simulated (sim : SimulatedSensor.t).

Record t : Type := {
  mpu6050 : MPU6050.t;
  sensor : active_sensor;
  using_real_sensor : bool
}.

(** What one call reads from outside: the I2C block, the clock when a
    [SimulatedSensor] is constructed, and the clock when it is read. *)
Record Env : Type := {
  i2c_block : result (list Z);
  now_construct : Z;
  now_read : Z
}.

(** [(roll, pitch, yaw_rate, is_valid)] *)
Definition sample : Type := Q * Q * Q * bool.

Definition zero_sample : sample := (0%Q, 0%Q, 0%Q, false).

(** [__init__]; [probe] is the outcome of [MPU6050()]'s availability test. *)
Definition init (probe : bool) (now : Z) : t :=
  if probe then
    {| mpu6050 := {| MPU6050.available := true |};
       sensor := Real;
       using_real_sensor := true |}
  else
    {| mpu6050 := {| MPU6050.available := false |};
       sensor := Simulated {| SimulatedSensor.start_time := now |};
       using_real_sensor := false |}.

Section WithMath.

Variable math : MathLib.

(** [self.sensor.read_raw_data()] *)
Definition sensor_read_raw_data (self : t) (env : Env) : option (Q * Q * Q * Q) :=
  match sensor self with
  | Real => MPU6050.read_raw_data (mpu6050 self) (i2c_block env)
  | Simulated sim => Some (SimulatedSensor.read_raw_data math sim (now_read env))
  end.

(** The last two lines of the [try] block of [read_attitude]. *)
Definition finish (self : t) (raw_data : Q * Q * Q * Q) : t * result sample :=
  let '(ax, ay, az, gz) := raw_data in
  match calculate_attitude math ax ay az with
  | Raise e => (self, Raise e)
  | Ok (roll, pitch) => (self, Ok (roll, pitch, gz, using_real_sensor self))
  end.

(** The [try] block of [read_attitude]. *)
Definition read_attitude_body (self : t) (env : Env) : t * result sample :=
  match sensor_read_raw_data self env with
  | Some raw_data => finish self raw_data
  | None =>
    if using_real_sensor self then
      let sim := {| SimulatedSensor.start_time := now_construct env |} in
      let self' := {| mpu6050 := mpu6050 self;
                      sensor := Simulated sim;
                      using_real_sensor := false |} in
      finish self' (SimulatedSensor.read_raw_data math sim (now_read env))
    else (self, Ok zero_sample)
  end.

(** [read_attitude] *)
Definition read_attitude (self : t) (env : Env) : t * result sample :=
  try_except (read_attitude_body self env)
             (fun _ self' => (self', Ok zero_sample)).

(** The manager after a session of calls, one environment per call. *)
Fixpoint run (self : t) (envs : list Env) : t :=
  match envs with
  | [] => self
  | env :: envs' => run (fst (read_attitude self env)) envs'
  end.

(** What the calls of that session returned or raised, in order. *)
Fixpoint samples (self : t) (envs : list Env) : list (result sample) :=
  match envs with
  | [] => []
  | env :: envs' =>
    snd (read_attitude self env) :: samples (fst (read_attitude self env)) envs'
  end.

End WithMath.

(** The manager reads from a [SimulatedSensor] and says so. *)
Definition on_simulated (self : t) : Prop :=
  match sensor self with
  | Simulated _ => using_real_sensor self = false
  | Real => False
  end.

Definition is_valid (s : sample) : bool := snd s.

(** A call that returned a sample flagged as simulated. *)
Definition reports_invalid (r : result sample) : Prop :=
  match r with
  | Ok s => is_valid s = false
  | Raise _ => False
  end.

End SensorManager.

(** ** release_system.py *)

Module ReleaseSystem.

(** [rc_receiver] and [led_manager] are the receiver and the LED manager
    of the [HardwareManager]; the object holds references to them. *)
Record t : Type := {
  rc_receiver : RCReceiver.t;
  led_manager : LEDManager.t;
  state : string;
  armed_time : Z;
  release_time : Z;
  servo : option PWM
}.

Definition set_state (s : string) (self : t) : t :=
  {| rc_receiver := rc_receiver self; led_manager := led_manager self;
     state := s; armed_time := armed_time self;
     release_time := release_time self; servo := servo self |}.

Definition set_armed_time (v : Z) (self : t) : t :=
  {| rc_receiver := rc_receiver self; led_manager := led_manager self;
     state := state self; armed_time := v;
     release_time := release_time self; servo := servo self |}.

Definition set_release_time (v : Z) (self : t) : t :=
  {| rc_receiver := rc_receiver self; led_manager := led_manager self;
     state := state self; armed_time := armed_time self;
     release_time := v; servo := servo self |}.

Definition set_servo (v : option PWM) (self : t) : t :=
  {| rc_receiver := rc_receiver self; led_manager := led_manager self;
     state := state self; armed_time := armed_time self;
     release_time := release_time self; servo := v |}.

Definition set_rc_receiver (v : RCReceiver.t) (self : t) : t :=
  {| rc_receiver := v; led_manager := led_manager self;
     state := state self; armed_time := armed_time self;
     release_time := release_time self; servo := servo self |}.

Definition set_led_manager (v : LEDManager.t) (self : t) : t :=
  {| rc_receiver := rc_receiver self; led_manager := v;
     state := state self; armed_time := armed_time self;
     release_time := release_time self; servo := servo self |}.

(** [_angle_to_duty]: no clamping here. *)
Definition _angle_to_duty (angle : Z) : Z :=
  pwm_min_duty SAFETY_LIMITS +
  Py.floordiv (angle * (pwm_max_duty SAFETY_LIMITS - pwm_min_duty SAFETY_LIMITS)) 180.

(** [_set_servo_position] *)
Definition _set_servo_position (self : t) (angle : Z) : t :=
  match servo self with
  | Some _ => set_servo (Some {| duty := _angle_to_duty angle |}) self
  | None => self
  end.

(** A method as [update] finds it in [state_handlers]: bound to [self],
    and accepting either [(current_time, rc_signal)] or [(current_time)]
    alone, as its [def] line says. *)
Inductive handler : Type :=
  | Takes2 (f : t -> Z -> Z -> t)
  | Takes1 (f : t -> Z -> t).

(** [handler(current_time, rc_signal)]: a call with two positional
    arguments; a method that accepts one raises [TypeError] before its
    body runs. *)
Definition call2 (h : handler) (self : t) (a b : Z) : t * result unit :=
  match h with
  | Takes2 f => (f self a b, Ok tt)
  | Takes1 _ => (self, Raise TypeError)
  end.

Section WithConfig.

Variable CONFIG : ReleaseConfig.

(** [__init__] with [_init_servo]; [pwm] is the outcome of opening the
    PWM channel, and a failure is raised again to the caller. *)
Definition init (rc : RCReceiver.t) (leds : LEDManager.t) (pwm : result unit)
  : result t :=
  match pwm with
  | Raise e => Raise e
  | Ok _ =>
    Ok {| rc_receiver := rc; led_manager := leds; state := "LOCKED";
          armed_time := 0; release_time := 0;
          servo := Some {| duty := _angle_to_duty (locked_position CONFIG) |} |}
  end.

(** [lock] *)
Definition lock (self : t) : t :=
  match servo self with
  | Some _ =>
    set_state "LOCKED" (_set_servo_position self (locked_position CONFIG))
  | None => self
  end.

(** [force_lock] *)
Definition force_lock (self : t) : t := lock self.

(** [_initiate_release] *)
Definition _initiate_release (self : t) (current_time : Z) : t :=
  _set_servo_position
    (set_release_time current_time (set_state "RELEASING" self))
    (release_position CONFIG).

(** [_handle_locked_state(self, current_time, rc_signal)] *)
Definition _handle_locked_state (self : t) (current_time rc_signal : Z) : t :=
  if rc_threshold CONFIG <? rc_signal
  then set_armed_time current_time (set_state "ARMED" self)
  else self.

(** [_handle_armed_state(self, current_time, rc_signal)] *)
Definition _handle_armed_state (self : t) (current_time rc_signal : Z) : t :=
  if rc_signal <? rc_threshold CONFIG then set_state "LOCKED" self
  else if safety_delay CONFIG <=? ticks_diff current_time (armed_time self) then
    if rc_threshold CONFIG <? rc_signal
    then _initiate_release self current_time
    else self
  else self.

(** [_handle_releasing_state(self, current_time)] *)
Definition _handle_releasing_state (self : t) (current_time : Z) : t :=
  if 500 <=? ticks_diff current_time (release_time self)
  then set_state "RELEASED" self
  else self.

(** [_handle_released_state(self, current_time)] *)
Definition _handle_released_state (self : t) (current_time : Z) : t :=
  if auto_lock_time CONFIG <=? ticks_diff current_time (release_time self)
  then lock self
  else self.

(** The [state_handlers] dict of [update]. *)
Definition state_handlers : gmap string handler :=
  <["LOCKED" := Takes2 _handle_locked_state]>
  (<["ARMED" := Takes2 _handle_armed_state]>
  (<["RELEASING" := Takes1 _handle_releasing_state]>
  (<["RELEASED" := Takes1 _handle_released_state]> ∅))).

(** What one call of [update] reads from outside: its own
    [time.ticks_ms()], what [read_channel] reads, and the clock read by
    [set_release_pattern]. *)
Record Env : Type := {
  current_time : Z;
  rc_env : RCReceiver.Env;
  led_time : Z
}.

(** [update] *)
Definition update (self : t) (env : Env) : t * result unit :=
  match servo self with
  | None => (self, Ok tt)
  | Some _ =>
    let '(rc', rc_signal) := RCReceiver.read_channel (rc_receiver self) (rc_env env) in
    let self1 := set_rc_receiver rc' self in
    let after_handler :=
      match state_handlers !! state self1 with
      | Some h => call2 h self1 (current_time env) rc_signal
      | None => (self1, Ok tt)
      end in
    match after_handler with
    | (self2, Raise e) => (self2, Raise e)
    | (self2, Ok _) =>
      (set_led_manager
         (LEDManager.set_release_pattern (led_manager self2) (state self2) (led_time env))
         self2, Ok tt)
    end
  end.

(** [emergency_release]; [now] is the [time.ticks_ms()] it reads. *)
Definition emergency_release (self : t) (now : Z) : t * bool :=
  if negb (emergency_override CONFIG) || negb (bool_decide (is_Some (servo self)))
  then (self, false)
  else
    let self1 := _set_servo_position self (release_position CONFIG) in
    let self2 := set_release_time now (set_state "RELEASED" self1) in
    (set_led_manager (LEDManager.alert_sequence (led_manager self2) 5) self2, true).

(** [get_rc_signal] *)
Definition get_rc_signal (self : t) (env : RCReceiver.Env) : t * Z :=
  let '(rc', v) := RCReceiver.read_channel (rc_receiver self) env in
  (set_rc_receiver rc' self, v).

(** How the calls inside the [try] of [cleanup] end: all of them go
    through; or [servo.duty()], called by [_set_servo_position], raises; or
    the servo is parked and [time.sleep_ms] or [servo.deinit()] raises. *)
Inductive cleanup_outcome : Type :=
  | CleanupDone
  | DutyFails
  | DeinitFails.

(** [cleanup]: on a system with its servo, the servo is parked at the
    locked position, released and forgotten. An exception on the way is
    caught by the [except] clause, with [self.servo] not yet set to [None]:
    the system keeps its servo, parked or not. The state is not touched. *)
Definition cleanup (self : t) (outcome : cleanup_outcome) : t :=
  match servo self with
  | Some _ =>
    match outcome with
    | CleanupDone => set_servo None self
    | DutyFails => self
    | DeinitFails => _set_servo_position self (locked_position CONFIG)
    end
  | None => self
  end.

End WithConfig.

Definition servo_at (self : t) (angle : Z) : Prop :=
  servo self = Some {| duty := _angle_to_duty angle |}.

End ReleaseSystem.

(** ** main_modular.py *)

Module PlanadorSystem.

(** The lines [main_modular]'s logger prints. *)
Inductive log_entry : Type :=
  | LogInfo (msg : string)
  | LogTelemetry (mode_name : string) (roll pitch yaw_rate : Q)
      (active sensors_valid : bool) (release_state : string) (rc_signal : Z)
  | LogMainLoopError (e : exn).

(** [self.hardware.leds] and [self.hardware.rc_receiver] are the objects
    the release system was built with, so they are kept once, inside
    [release_system]; [buttons] and [servos] are the rest of the
    [HardwareManager]. *)
Record t : Type := {
  system_active : bool;
  loop_count : Z;
  last_telemetry_time : Z;
  buttons : ButtonManager.t;
  servos : ServoManager.t;
  sensors : SensorManager.t;
  release_system : ReleaseSystem.t;
  pid_controller : PIDController.t;
  log : list log_entry
}.

Definition hardware_leds (self : t) : LEDManager.t :=
  ReleaseSystem.led_manager (release_system self).

Definition set_system_active (v : bool) (self : t) : t :=
  {| system_active := v; loop_count := loop_count self;
     last_telemetry_time := last_telemetry_time self; buttons := buttons self;
     servos := servos self; sensors := sensors self;
     release_system := release_system self;
     pid_controller := pid_controller self; log := log self |}.

Definition set_loop_count (v : Z) (self : t) : t :=
  {| system_active := system_active self; loop_count := v;
     last_telemetry_time := last_telemetry_time self; buttons := buttons self;
     servos := servos self; sensors := sensors self;
     release_system := release_system self;
     pid_controller := pid_controller self; log := log self |}.

Definition set_last_telemetry_time (v : Z) (self : t) : t :=
  {| system_active := system_active self; loop_count := loop_count self;
     last_telemetry_time := v; buttons := buttons self;
     servos := servos self; sensors := sensors self;
     release_system := release_system self;
     pid_controller := pid_controller self; log := log self |}.

Definition set_buttons (v : ButtonManager.t) (self : t) : t :=
  {| system_active := system_active self; loop_count := loop_count self;
     last_telemetry_time := last_telemetry_time self; buttons := v;
     servos := servos self; sensors := sensors self;
     release_system := release_system self;
     pid_controller := pid_controller self; log := log self |}.

Definition set_servos (v : ServoManager.t) (self : t) : t :=
  {| system_active := system_active self; loop_count := loop_count self;
     last_telemetry_time := last_telemetry_time self; buttons := buttons self;
     servos := v; sensors := sensors self;
     release_system := release_system self;
     pid_controller := pid_controller self; log := log self |}.

Definition set_sensors (v : SensorManager.t) (self : t) : t :=
  {| system_active := system_active self; loop_count := loop_count self;
     last_telemetry_time := last_telemetry_time self; buttons := buttons self;
     servos := servos self; sensors := v;
     release_system := release_system self;
     pid_controller := pid_controller self; log := log self |}.

Definition set_release_system (v : ReleaseSystem.t) (self : t) : t :=
  {| system_active := system_active self; loop_count := loop_count self;
     last_telemetry_time := last_telemetry_time self; buttons := buttons self;
     servos := servos self; sensors := sensors self;
     release_system := v;
     pid_controller := pid_controller self; log := log self |}.

Definition set_pid_controller (v : PIDController.t) (self : t) : t :=
  {| system_active := system_active self; loop_count := loop_count self;
     last_telemetry_time := last_telemetry_time self; buttons := buttons self;
     servos := servos self; sensors := sensors self;
     release_system := release_system self;
     pid_controller := v; log := log self |}.

Definition logger (entry : log_entry) (self : t) : t :=
  {| system_active := system_active self; loop_count := loop_count self;
     last_telemetry_time := last_telemetry_time self; buttons := buttons self;
     servos := servos self; sensors := sensors self;
     release_system := release_system self;
     pid_controller := pid_controller self; log := log self ++ [entry] |}.

Definition set_leds (v : LEDManager.t) (self : t) : t :=
  set_release_system (ReleaseSystem.set_led_manager v (release_system self)) self.

(** The calls made inside the [try] block of [_main_loop], and the
    [set_neutral] call of its [except] block. *)
Inductive stage : Type :=
  | AtSensors
  | AtControls
  | AtPID
  | AtServos
  | AtRelease
  | AtLeds
  | AtTelemetry
  | AtHandler.

(** What one tick reads from outside. [fault] lets a call of the tick fail
    for a reason of its own (a driver error, say): when it names an
    exception for a stage, that stage raises it. *)
Record Env : Type := {
  sensor_env : SensorManager.Env;
  button_env : ButtonManager.Env;
  emergency_now : Z;
  release_env : ReleaseSystem.Env;
  mode_led_now : Z;
  telemetry_now : Z;
  telemetry_rc_env : RCReceiver.Env;
  fault : stage -> option exn
}.

(** Methods of the orchestrator: they change [self] and return or raise. *)
Definition M (A : Type) : Type := t -> t * result A.

Definition ret {A : Type} (a : A) : M A := fun self => (self, Ok a).

Definition bind {A B : Type} (m : M A) (k : A -> M B) : M B :=
  fun self =>
    match m self with
    | (self', Ok a) => k a self'
    | (self', Raise e) => (self', Raise e)
    end.

Definition modify (f : t -> t) : M unit := fun self => (f self, Ok tt).

Definition lift {A : Type} (r : t -> result A) : M A := fun self => (self, r self).

Definition when (b : bool) (m : M unit) : M unit := if b then m else ret tt.

(** A method that leaves the tick counter [loop_count] alone. *)
Definition keeps_count {A : Type} (m : M A) : Prop :=
  forall self, loop_count (fst (m self)) = loop_count self.

Declare Scope planador_scope.
Delimit Scope planador_scope with planador.
Notation "x <- m ;; k" := (bind m (fun x => k))
  (at level 100, m at next level, right associativity) : planador_scope.
Notation "m ;;; k" := (bind m (fun _ => k))
  (at level 100, right associativity) : planador_scope.

Section WithConfig.

Variable FLIGHT_MODES : gmap Z FlightMode.
Variable CONFIG : ReleaseConfig.
Variable math : MathLib.

Local Open Scope planador_scope.

Definition check (env : Env) (s : stage) : M unit :=
  fun self =>
    match fault env s with
    | Some e => (self, Raise e)
    | None => (self, Ok tt)
    end.

Definition mode_info : M FlightMode :=
  lift (fun self => PIDController.get_flight_mode_info FLIGHT_MODES (pid_controller self)).

(** [_activate_system] *)
Definition _activate_system : M unit :=
  modify (set_system_active true) ;;;
  info <- mode_info ;;
  modify (logger (LogInfo ("Sistema ativo - Modo: " ++ name info))) ;;;
  modify (fun self => set_pid_controller (PIDController.reset (pid_controller self)) self) ;;;
  modify (fun self => set_leds (LEDManager.set_system_active (hardware_leds self) true) self).

(** [_deactivate_system] *)
Definition _deactivate_system : M unit :=
  modify (set_system_active false) ;;;
  modify (logger (LogInfo "Sistema desativado")) ;;;
  modify (fun self => set_servos (ServoManager.set_neutral (servos self)) self) ;;;
  modify (fun self => set_leds (LEDManager.set_system_active (hardware_leds self) false) self) ;;;
  modify (fun self => set_leds (LEDManager.alert_sequence (hardware_leds self) 3) self).

(** [_switch_flight_mode]; the remainder by [len(FLIGHT_MODES)] raises on
    an empty table. *)
Definition _switch_flight_mode : M unit :=
  fun self =>
    let current_mode := PIDController.flight_mode (pid_controller self) in
    let len := Z.of_nat (size FLIGHT_MODES) in
    if len =? 0 then (self, Raise ZeroDivisionError)
    else
      let new_mode := (current_mode + 1) mod len in
      let '(pid', changed) :=
        PIDController.set_flight_mode FLIGHT_MODES (pid_controller self) new_mode in
      let self1 := set_pid_controller pid' self in
      if changed then
        (info <- mode_info ;;
         modify (logger (LogInfo ("Modo de voo alterado para: " ++ name info)))) self1
      else (self1, Ok tt).

(** [self.release_system.emergency_release()], its result dropped. *)
Definition emergency_release (env : Env) : M unit :=
  modify (fun self =>
    set_release_system
      (fst (ReleaseSystem.emergency_release CONFIG (release_system self) (emergency_now env)))
      self).

(** [_handle_controls] *)
Definition _handle_controls (env : Env) : M unit :=
  fun self =>
    let '(buttons', (mode_clicked, power_clicked)) :=
      ButtonManager.read_buttons (buttons self) (button_env env) in
    (when mode_clicked
       (fun self' =>
          if negb (system_active self') then _activate_system self'
          else _switch_flight_mode self') ;;;
     when power_clicked
       (fun self' =>
          if system_active self' then _deactivate_system self'
          else emergency_release env self'))
    (set_buttons buttons' self).

(** [_update_leds] *)
Definition _update_leds (env : Env) : M unit :=
  modify (fun self =>
    set_leds (LEDManager.set_system_active (hardware_leds self) (system_active self)) self) ;;;
  (fun self =>
    let '(leds', r) :=
      LEDManager.set_mode_pattern (hardware_leds self)
        (PIDController.flight_mode (pid_controller self))
        (system_active self) (mode_led_now env) in
    (set_leds leds' self, r)).

(** [_log_telemetry] *)
Definition _log_telemetry (env : Env) (roll pitch yaw_rate : Q) (sensors_valid : bool)
  : M unit :=
  fun self =>
    let current_time := telemetry_now env in
    if telemetry_interval SYSTEM_CONFIG <=?
       ticks_diff current_time (last_telemetry_time self)
    then
      (modify (set_last_telemetry_time current_time) ;;;
       info <- mode_info ;;
       (fun self' =>
          let release_state := ReleaseSystem.state (release_system self') in
          let '(rel', rc_signal) :=
            ReleaseSystem.get_rc_signal (release_system self') (telemetry_rc_env env) in
          (logger (LogTelemetry (name info) roll pitch yaw_rate
                     (system_active self') sensors_valid release_state rc_signal)
             (set_release_system rel' self'), Ok tt))) self
    else (self, Ok tt).

(** [self.sensors.read_attitude()] *)
Definition read_attitude (env : Env) : M SensorManager.sample :=
  fun self =>
    let '(sensors', r) :=
      SensorManager.read_attitude math (sensors self) (sensor_env env) in
    (set_sensors sensors' self, r).

(** [self.pid_controller.calculate_servo_commands(roll, pitch, yaw_rate)] *)
Definition calculate_servo_commands (roll pitch yaw_rate : Q) : M (list Z) :=
  fun self =>
    let '(pid', r) :=
      PIDController.calculate_servo_commands FLIGHT_MODES
        (pid_controller self) roll pitch yaw_rate in
    (set_pid_controller pid' self, r).

(** [self.release_system.update()] *)
Definition release_update (env : Env) : M unit :=
  fun self =>
    let '(rel', r) :=
      ReleaseSystem.update CONFIG (release_system self) (release_env env) in
    (set_release_system rel' self, r).

(** The [try] block of [_main_loop]. *)
Definition tick_body (env : Env) : M unit :=
  check env AtSensors ;;;
  att <- read_attitude env ;;
  let '(roll, pitch, yaw_rate, sensors_valid) := att in
  check env AtControls ;;;
  _handle_controls env ;;;
  (fun self =>
     if system_active self then
       (check env AtPID ;;;
        commands <- calculate_servo_commands roll pitch yaw_rate ;;
        check env AtServos ;;;
        modify (fun self' =>
          set_servos (ServoManager.apply_commands (servos self') commands) self')) self
     else
       (check env AtServos ;;;
        modify (fun self' =>
          set_servos (ServoManager.set_neutral (servos self')) self')) self) ;;;
  check env AtRelease ;;;
  release_update env ;;;
  check env AtLeds ;;;
  _update_leds env ;;;
  (fun self =>
     if loop_count self mod 30 =? 0 then
       (check env AtTelemetry ;;;
        _log_telemetry env roll pitch yaw_rate sensors_valid) self
     else (self, Ok tt)).

(** The [except Exception as e] block of [_main_loop]: the logger prints
    the error and [set_neutral] writes one fixed duty to every servo. That
    call drives the servos as the [try] block does, and can fail as there:
    what it raises is raised by [_main_loop]. *)
Definition tick_handler (env : Env) (e : exn) : M unit :=
  modify (logger (LogMainLoopError e)) ;;;
  check env AtHandler ;;;
  modify (fun self => set_servos (ServoManager.set_neutral (servos self)) self).

(** [_main_loop] *)
Definition _main_loop (env : Env) : M unit :=
  fun self =>
    let self1 := set_loop_count (loop_count self + 1) self in
    try_except (tick_body env self1) (fun e self2 => tick_handler env e self2).

(** The [while True] loop of [run], for as many ticks as there are
    environments; it stops early only if [_main_loop] raises, which ends
    the loop in [run]'s own [except]. *)
Fixpoint run (envs : list Env) (self : t) : t * result unit :=
  match envs with
  | [] => (self, Ok tt)
  | env :: envs' =>
    match _main_loop env self with
    | (self', Ok _) => run envs' self'
    | (self', Raise e) => (self', Raise e)
    end
  end.

End WithConfig.

End PlanadorSystem.

(** [run] sleeps [1000 // SYSTEM_CONFIG['main_loop_frequency']] milliseconds
    between two ticks. *)
Definition tick_period_ms : Z :=
  Py.floordiv 1000 (main_loop_frequency SYSTEM_CONFIG).

(** ** Concrete inputs *)

Module Examples.

(** All four LEDs present and off. *)
Definition leds : LEDManager.t :=
  {| LEDManager.available_leds :=
       <["system_active" := 0]> (<["mode" := 0]> (<["alert" := 0]> (<["release" := 0]> ∅))) |}.

(** A radio pulse of 1800 us seen by a call whose clock reads [now] ms. *)
Definition rc_1800 (now : Z) : RCReceiver.Env := RCReceiver.pulse_env now now 2 3 600.

(** A radio pulse of 3000 us seen by a call whose clock reads [now] ms. *)
Definition rc_3000 (now : Z) : RCReceiver.Env := RCReceiver.pulse_env now now 2 3 1000.

Definition release_env (now : Z) : ReleaseSystem.Env :=
  {| ReleaseSystem.current_time := now;
     ReleaseSystem.rc_env := rc_1800 now;
     ReleaseSystem.led_time := now |}.

(** A release system as [__init__] builds it on working hardware. *)
Definition locked_system : ReleaseSystem.t :=
  {| ReleaseSystem.rc_receiver := RCReceiver.init;
     ReleaseSystem.led_manager := leds;
     ReleaseSystem.state := "LOCKED";
     ReleaseSystem.armed_time := 0;
     ReleaseSystem.release_time := 0;
     ReleaseSystem.servo :=
       Some {| duty := ReleaseSystem._angle_to_duty (locked_position RELEASE_CONFIG) |} |}.

(** That system after the radio asked for a release at 100 ms and again at
    2200 ms, past the safety delay: it is in state RELEASING. *)
Definition releasing_system : ReleaseSystem.t :=
  fst (ReleaseSystem.update RELEASE_CONFIG
         (fst (ReleaseSystem.update RELEASE_CONFIG locked_system (release_env 100)))
         (release_env 2200)).

(** The locked system after an emergency release at 100 ms: state RELEASED. *)
Definition released_system : ReleaseSystem.t :=
  fst (ReleaseSystem.emergency_release RELEASE_CONFIG locked_system 100).

(** The locked system after [cleanup]. *)
Definition cleaned_system : ReleaseSystem.t :=
  ReleaseSystem.cleanup RELEASE_CONFIG locked_system ReleaseSystem.CleanupDone.

(** A [math] module for running the sensor code: every function is
    constantly zero. *)
Definition flat_math : MathLib :=
  {| sin := fun _ => 0%Q; cos := fun _ => 0%Q;
     atan2 := fun _ _ => 0%Q; sqrt := fun _ => Ok 0%Q |}.

Definition sensor_env (now : Z) : SensorManager.Env :=
  {| SensorManager.i2c_block := Raise OSError;
     SensorManager.now_construct := now;
     SensorManager.now_read := now |}.

(** One tick at [now] ms with no button pressed and no injected fault. *)
Definition quiet_tick (now : Z) : PlanadorSystem.Env :=
  {| PlanadorSystem.sensor_env := sensor_env now;
     PlanadorSystem.button_env :=
       {| ButtonManager.now_ms := now;
          ButtonManager.mode_pin := true;
          ButtonManager.power_pin := true |};
     PlanadorSystem.emergency_now := now;
     PlanadorSystem.release_env := release_env now;
     PlanadorSystem.mode_led_now := now;
     PlanadorSystem.telemetry_now := now;
     PlanadorSystem.telemetry_rc_env := rc_1800 now;
     PlanadorSystem.fault := fun _ => None |}.

(** The orchestrator, stabilization active, with the release system in
    state RELEASING and the flaps deflected. *)
Definition flying_system : PlanadorSystem.t :=
  {| PlanadorSystem.system_active := true;
     PlanadorSystem.loop_count := 0;
     PlanadorSystem.last_telemetry_time := 0;
     PlanadorSystem.buttons :=
       {| ButtonManager.has_power_button := true;
          ButtonManager.mode_button_last := false;
          ButtonManager.power_button_last := false;
          ButtonManager.last_button_time := 0 |};
     PlanadorSystem.servos :=
       ServoManager.apply_commands ServoManager.init [115; 65; 120; 77];
     PlanadorSystem.sensors := SensorManager.init false 0;
     PlanadorSystem.release_system := releasing_system;
     PlanadorSystem.pid_controller := PIDController.init;
     PlanadorSystem.log := [] |}.

End Examples.

(** ** Predicates used by the further properties *)

Module Safe.

(** The duties [ServoManager.angle_to_duty] gives at the two ends of the
    servo range. *)
Definition min_duty : Z := ServoManager.angle_to_duty (servo_min_angle SAFETY_LIMITS).
Definition max_duty : Z := ServoManager.angle_to_duty (servo_max_angle SAFETY_LIMITS).

Definition duty_in_range (servo : PWM) : Prop :=
  min_duty <= duty servo <= max_duty.

(** Every servo of the manager is driven inside the servo range. *)
Definition duties_in_range (self : ServoManager.t) : Prop :=
  map_Forall (fun _ servo => duty_in_range servo) (ServoManager.servos self).

(** A table whose keys are [0 .. len - 1], with at least key 0. *)
Definition table_well_formed (FLIGHT_MODES : gmap Z FlightMode) : Prop :=
  is_Some (FLIGHT_MODES !! 0) /\
  forall i : Z, 0 <= i < Z.of_nat (size FLIGHT_MODES) -> is_Some (FLIGHT_MODES !! i).

(** The active index is the initial 0 or one that [set_flight_mode] accepts. *)
Definition mode_index_valid (FLIGHT_MODES : gmap Z FlightMode) (self : PIDController.t) : Prop :=
  PIDController.flight_mode self = 0 \/
  0 <= PIDController.flight_mode self < Z.of_nat (size FLIGHT_MODES).

Definition within (limit x : Q) : Prop := (- limit <= x)%Q /\ (x <= limit)%Q.

End Safe.

Module ServoReach.

(** The managers built by [__init__] and then driven by [apply_commands]
    and [set_neutral] with any arguments. *)
Inductive reachable : ServoManager.t -> Prop :=
  | reach_init : reachable ServoManager.init
  | reach_apply self commands :
      reachable self -> reachable (ServoManager.apply_commands self commands)
  | reach_neutral self :
      reachable self -> reachable (ServoManager.set_neutral self).

End ServoReach.

Module SensorStatus.

(** [SensorManager.get_sensor_status]: the dict with the keys
    ['mpu6050_available'], ['using_real_sensor'] and ['sensor_type']. *)
Record status : Type := {
  mpu6050_available : bool;
  using_real_sensor : bool;
  sensor_type : string
}.

Definition get_sensor_status (self : SensorManager.t) : status :=
  {| mpu6050_available := MPU6050.available (SensorManager.mpu6050 self);
     using_real_sensor := SensorManager.using_real_sensor self;
     sensor_type := if SensorManager.using_real_sensor self then "MPU6050" else "Simulado" |}.

(** The flag [using_real_sensor] tells which object [sensor] is, and the
    real one is only in use when it was found available. *)
Definition coherent (self : SensorManager.t) : Prop :=
  match SensorManager.sensor self with
  | SensorManager.Real =>
    SensorManager.using_real_sensor self = true /\
    MPU6050.available (SensorManager.mpu6050 self) = true
  | SensorManager.Simulated _ => SensorManager.using_real_sensor self = false
  end.

(** A byte, as [readfrom_mem] delivers them. *)
Definition is_byte (b : Z) : Prop := 0 <= b <= 255.

(** [sin] and [cos] stay within [-1, 1]. *)
Definition bounded_trig (math : MathLib) : Prop :=
  forall x : Q,
    (-1 <= sin math x)%Q /\ (sin math x <= 1)%Q /\
    (-1 <= cos math x)%Q /\ (cos math x <= 1)%Q.

End SensorStatus.

Module ReleaseReach.

Section WithConfig.

Variable CONFIG : ReleaseConfig.

(** The release systems built by [__init__] on hardware that opens the PWM
    channel, then driven by any of their methods with any inputs;
    [cleanup] may end in any of its three ways. *)
Inductive reachable : ReleaseSystem.t -> Prop :=
  | reach_init rc leds self :
      ReleaseSystem.init CONFIG rc leds (Ok tt) = Ok self -> reachable self
  | reach_update self env :
      reachable self -> reachable (fst (ReleaseSystem.update CONFIG self env))
  | reach_emergency self now :
      reachable self -> reachable (fst (ReleaseSystem.emergency_release CONFIG self now))
  | reach_lock self :
      reachable self -> reachable (ReleaseSystem.lock CONFIG self)
  | reach_force_lock self :
      reachable self -> reachable (ReleaseSystem.force_lock CONFIG self)
  | reach_rc_signal self env :
      reachable self -> reachable (fst (ReleaseSystem.get_rc_signal self env))
  | reach_cleanup self outcome :
      reachable self -> reachable (ReleaseSystem.cleanup CONFIG self outcome).

(** The servo, while there is one, stands where the state says: at the
    locked position in LOCKED and ARMED, at the release position in
    RELEASING and RELEASED. *)
Definition servo_matches_state (self : ReleaseSystem.t) : Prop :=
  match ReleaseSystem.servo self with
  | None => True
  | Some pwm =>
    ((ReleaseSystem.state self = "LOCKED" \/ ReleaseSystem.state self = "ARMED") /\
     duty pwm = ReleaseSystem._angle_to_duty (locked_position CONFIG)) \/
    ((ReleaseSystem.state self = "RELEASING" \/ ReleaseSystem.state self = "RELEASED") /\
     duty pwm = ReleaseSystem._angle_to_duty (release_position CONFIG))
  end.

(** The system is in RELEASING or RELEASED with its servo parked at the
    locked position: what a [cleanup] whose [deinit()] failed leaves of a
    released system. *)
Definition parked_while_released (self : ReleaseSystem.t) : Prop :=
  match ReleaseSystem.servo self with
  | None => False
  | Some pwm =>
    (ReleaseSystem.state self = "RELEASING" \/ ReleaseSystem.state self = "RELEASED") /\
    duty pwm = ReleaseSystem._angle_to_duty (locked_position CONFIG)
  end.

Definition known_state (self : ReleaseSystem.t) : Prop :=
  ReleaseSystem.state self = "LOCKED" \/ ReleaseSystem.state self = "ARMED" \/
  ReleaseSystem.state self = "RELEASING" \/ ReleaseSystem.state self = "RELEASED".

(** The pulse that [update] gets from the receiver on this call. *)
Definition rc_signal_of (self : ReleaseSystem.t) (env : ReleaseSystem.Env) : Z :=
  snd (RCReceiver.read_channel (ReleaseSystem.rc_receiver self) (ReleaseSystem.rc_env env)).

End WithConfig.

End ReleaseReach.

Module Tick.
Import PlanadorSystem.

(** A method under which a property of the orchestrator survives, whether
    the method returns or raises. *)
Definition preserves {A : Type} (I : t -> Prop) (m : M A) : Prop :=
  forall self, I self -> I (fst (m self)).

(** A method that, started where [P] holds, ends where [Qok] holds when it
    returns and where [Qerr] holds when it raises. *)
Definition spec {A : Type} (P : t -> Prop) (m : M A)
    (Qok : A -> t -> Prop) (Qerr : exn -> t -> Prop) : Prop :=
  forall self, P self ->
    match m self with
    | (self', Ok a) => Qok a self'
    | (self', Raise e) => Qerr e self'
    end.

(** A property that survives every single write a tick can make: to the
    flags and counters, the log, the PID controller, the LEDs, the buttons,
    the sensors, the servos (through [set_neutral] and [apply_commands]) and
    the release system (through [update], [emergency_release] and
    [get_rc_signal]). *)
Record stable (CONFIG : ReleaseConfig) (I : t -> Prop) : Prop := {
  st_active : forall v self, I self -> I (set_system_active v self);
  st_count : forall v self, I self -> I (set_loop_count v self);
  st_telemetry : forall v self, I self -> I (set_last_telemetry_time v self);
  st_log : forall entry self, I self -> I (logger entry self);
  st_pid : forall v self, I self -> I (set_pid_controller v self);
  st_leds : forall v self, I self -> I (set_leds v self);
  st_buttons : forall v self, I self -> I (set_buttons v self);
  st_sensors : forall v self, I self -> I (set_sensors v self);
  st_neutral : forall self,
      I self -> I (set_servos (ServoManager.set_neutral (servos self)) self);
  st_apply : forall commands self,
      I self -> I (set_servos (ServoManager.apply_commands (servos self) commands) self);
  st_update : forall env self,
      I self ->
      I (set_release_system
           (fst (ReleaseSystem.update CONFIG (release_system self) env)) self);
  st_emergency : forall now self,
      I self ->
      I (set_release_system
           (fst (ReleaseSystem.emergency_release CONFIG (release_system self) now)) self);
  st_rc_signal : forall env self,
      I self ->
      I (set_release_system
           (fst (ReleaseSystem.get_rc_signal (release_system self) env)) self)
}.

(** The release system holds a servo and is in state RELEASING or RELEASED. *)
Definition released_with_servo (self : t) : Prop :=
  is_Some (ReleaseSystem.servo (release_system self)) /\
  (ReleaseSystem.state (release_system self) = "RELEASING" \/
   ReleaseSystem.state (release_system self) = "RELEASED").

(** Every servo is driven inside the servo range, and the servos driven are
    those named in [D]. *)
Definition servos_safe (D : gset string) (self : t) : Prop :=
  Safe.duties_in_range (servos self) /\ dom (ServoManager.servos (servos self)) = D.

(** Stabilization is off and the PID controller is [pid]. *)
Definition idle_with (pid : PIDController.t) (self : t) : Prop :=
  system_active self = false /\ pid_controller self = pid.

(** With stabilization off, every servo is at the neutral duty. *)
Definition neutral_when_inactive (self : t) : Prop :=
  system_active self = false -> ServoManager.all_neutral (servos self).

(** No call of the tick is made to fail from outside. *)
Definition no_fault (env : Env) : Prop := forall s : stage, fault env s = None.

(** The [set_neutral] call of the [except] block goes through. *)
Definition handler_ok (env : Env) : Prop := fault env AtHandler = None.

(** The servos driven are those named in [D]. *)
Definition same_servos (D : gset string) (self : t) : Prop :=
  dom (ServoManager.servos (servos self)) = D.

(** The release system has no servo, or is in LOCKED or ARMED. *)
Definition release_can_update (self : t) : Prop :=
  ReleaseSystem.servo (release_system self) = None \/
  ReleaseSystem.state (release_system self) = "LOCKED" \/
  ReleaseSystem.state (release_system self) = "ARMED".

(** This tick's [read_buttons] reports no click. *)
Definition no_click (self : t) (env : Env) : Prop :=
  snd (ButtonManager.read_buttons (buttons self) (button_env env)) = (false, false).

End Tick.

Module MoreExamples.

(** The orchestrator of [Examples.flying_system] with stabilization off. *)
Definition idle_system : PlanadorSystem.t :=
  PlanadorSystem.set_system_active false Examples.flying_system.

(** The orchestrator with stabilization on and the release system locked. *)
Definition locked_flying_system : PlanadorSystem.t :=
  PlanadorSystem.set_release_system Examples.locked_system Examples.flying_system.

(** One tick at [now] ms on which the servo driver is down: the servo
    writes of the [try] block fail, and so does the [set_neutral] of the
    [except] block. *)
Definition servo_fault_tick (now : Z) : PlanadorSystem.Env :=
  {| PlanadorSystem.sensor_env := Examples.sensor_env now;
     PlanadorSystem.button_env :=
       {| ButtonManager.now_ms := now;
          ButtonManager.mode_pin := true;
          ButtonManager.power_pin := true |};
     PlanadorSystem.emergency_now := now;
     PlanadorSystem.release_env := Examples.release_env now;
     PlanadorSystem.mode_led_now := now;
     PlanadorSystem.telemetry_now := now;
     PlanadorSystem.telemetry_rc_env := Examples.rc_1800 now;
     PlanadorSystem.fault :=
       fun s =>
         match s with
         | PlanadorSystem.AtServos | PlanadorSystem.AtHandler => Some OSError
         | _ => None
         end |}.

End MoreExamples.

(** ** Python's own arithmetic *)

(** The exact-rational reading above leaves rounding out. Where the very
    value a computation returns matters, the numbers are modelled as
    CPython, which runs the tests of the repository, has them: an [int] of
    any size, or a [float], which is an IEEE 754 binary64 number. *)
Module PyNum.

Definition prec : Z := 53.
Definition emax : Z := 1024.

Inductive num : Type :=
  | Int (n : Z)
  | Float (x : spec_float).

(** The float [0.0]. *)
Definition zero : spec_float := S754_zero false.

(** An integer as an unrounded mantissa with exponent 0. *)
Definition raw (n : Z) : spec_float :=
  match n with
  | Z0 => S754_zero false
  | Zpos p => S754_finite false p 0
  | Zneg p => S754_finite true p 0
  end.

(** The conversion of an [int] operand that meets a [float]: the nearest
    float, ties to even; an [int] beyond the floats raises. *)
Definition float_of_int (n : Z) : result spec_float :=
  match binary_normalize prec emax n 0 false with
  | S754_infinity _ => Raise OverflowError
  | x => Ok x
  end.

Definition as_float (a : num) : result spec_float :=
  match a with
  | Int n => float_of_int n
  | Float x => Ok x
  end.

(** [a + b], [a - b], [a * b]: exact on two [int]s; otherwise both
    operands are taken as floats and the result is rounded to the nearest
    float (an overflow gives an infinity, not an exception). *)
Definition arith (on_int : Z -> Z -> Z)
    (on_float : spec_float -> spec_float -> spec_float) (a b : num) : result num :=
  match a, b with
  | Int m, Int n => Ok (Int (on_int m n))
  | _, _ =>
    rbind (as_float a) (fun x =>
    rbind (as_float b) (fun y =>
    Ok (Float (on_float x y))))
  end.

Definition add : num -> num -> result num := arith Z.add (SFadd prec emax).
Definition sub : num -> num -> result num := arith Z.sub (SFsub prec emax).
Definition mul : num -> num -> result num := arith Z.mul (SFmul prec emax).

(** [-a] *)
Definition neg (a : num) : num :=
  match a with
  | Int n => Int (- n)
  | Float x => Float (SFopp x)
  end.

Definition is_zero (x : spec_float) : bool :=
  match x with
  | S754_zero _ => true
  | _ => false
  end.

(** [a / b]: true division. Two [int]s give the float nearest to the exact
    quotient; a zero divisor raises. *)
Definition truediv (a b : num) : result num :=
  match a, b with
  | Int m, Int n =>
    if n =? 0 then Raise ZeroDivisionError
    else
      match SFdiv prec emax (raw m) (raw n) with
      | S754_infinity _ => Raise OverflowError
      | q => Ok (Float q)
      end
  | _, _ =>
    rbind (as_float a) (fun x =>
    rbind (as_float b) (fun y =>
    if is_zero y then Raise ZeroDivisionError
    else Ok (Float (SFdiv prec emax x y))))
  end.

(** A float literal [n/d] written in decimal: the float nearest to it. *)
Definition literal (n : Z) (d : positive) : num :=
  Float (SFdiv prec emax (raw n) (raw (Z.pos d))).

(** The value of a number: a rational, an infinity, or not a number. *)
Inductive ext : Type :=
  | NaN
  | NegInf
  | PosInf
  | Fin (q : Q).

Definition value (x : spec_float) : Q :=
  match x with
  | S754_finite s m e =>
    let magnitude :=
      match e with
      | Zneg k => Z.pos m # (2 ^ k)
      | _ => inject_Z (Z.pos m * 2 ^ e)
      end in
    if s then (- magnitude)%Q else magnitude
  | _ => 0%Q
  end.

Definition ext_of (a : num) : ext :=
  match a with
  | Int n => Fin (inject_Z n)
  | Float S754_nan => NaN
  | Float (S754_infinity s) => if s then NegInf else PosInf
  | Float x => Fin (value x)
  end.

(** [a < b]: comparison by value, also between an [int] and a [float];
    false when either is not a number. *)
Definition lt (a b : num) : bool :=
  match ext_of a, ext_of b with
  | NaN, _ | _, NaN => false
  | _, NegInf => false
  | NegInf, _ => true
  | PosInf, _ => false
  | _, PosInf => true
  | Fin p, Fin q => Py.ltb p q
  end.

(** [min(a, b)]: the first argument unless the second is smaller. *)
Definition min (a b : num) : num := if lt b a then b else a.

(** [max(a, b)]: the first argument unless the second is larger. *)
Definition max (a b : num) : num := if lt a b then b else a.

(** [int(a)]: truncation toward zero; an infinity or a NaN raises. *)
Definition int (a : num) : result Z :=
  match a with
  | Int n => Ok n
  | Float S754_nan => Raise ValueError
  | Float (S754_infinity _) => Raise OverflowError
  | Float x => Ok (Py.int (value x))
  end.

End PyNum.

(** ** pid_controller.py in Python's own arithmetic *)

Module PIDFloat.
Import PyNum.

(** The nine entries of a ['gains'] tuple. *)
Record gains_entry : Type := {
  k0 : num; k1 : num; k2 : num;
  k3 : num; k4 : num; k5 : num;
  k6 : num; k7 : num; k8 : num
}.

(** An entry of [FLIGHT_MODES], its numbers as the table gives them. *)
Record mode_entry : Type := {
  mode_name : string;
  mode_gains : gains_entry;
  mode_limits : num * num * num;
  mode_target : num * num;
  mode_flaps : num
}.

Record t : Type := {
  integral : num * num * num;
  prev_error : num * num * num;
  flight_mode : Z
}.

(** [__init__] *)
Definition init : t :=
  {| integral := (Float zero, Float zero, Float zero);
     prev_error := (Float zero, Float zero, Float zero);
     flight_mode := 0 |}.

(** The default value [0.1] of [calculate]'s parameter [dt]. *)
Definition default_dt : num := literal 1 10.

(** [_limit_output]: [max(-limit, min(limit, output))] *)
Definition _limit_output (output limit : num) : num :=
  max (neg limit) (min limit output).

(** The two integral lines of [calculate] for one axis. *)
Definition integrate (acc error dt : num) : result num :=
  rbind (mul error dt) (fun step =>
  rbind (add acc step) (fun sum =>
  Ok (max (Int (- max_pid_integral SAFETY_LIMITS))
          (min (Int (max_pid_integral SAFETY_LIMITS)) sum)))).

(** One entry of [derivatives]. *)
Definition derivative (error prev dt : num) : result num :=
  rbind (sub error prev) (fun diff => truediv diff dt).

(** [kp * error + ki * integral + kd * derivative], left to right. *)
Definition pid_sum (kp ki kd error acc deriv : num) : result num :=
  rbind (mul kp error) (fun p =>
  rbind (mul ki acc) (fun i =>
  rbind (add p i) (fun pi =>
  rbind (mul kd deriv) (fun d =>
  add pi d)))).

Section WithFlightModes.

Variable FLIGHT_MODES : gmap Z mode_entry.

Definition with_integral (v : num * num * num) (self : t) : t :=
  {| integral := v; prev_error := prev_error self; flight_mode := flight_mode self |}.

Definition with_prev_error (v : num * num * num) (self : t) : t :=
  {| integral := integral self; prev_error := v; flight_mode := flight_mode self |}.

(** [calculate]: the object is returned as the statements run so far left
    it, also when one of them raises. *)
Definition calculate (self : t) (roll pitch yaw_rate dt : num)
  : t * result (num * num * num) :=
  match FLIGHT_MODES !! flight_mode self with
  | None => (self, Raise KeyError)
  | Some mode =>
    let gains := mode_gains mode in
    let '(limit0, limit1, limit2) := mode_limits mode in
    let '(target0, target1) := mode_target mode in
    match rbind (sub target0 roll) (fun e0 =>
          rbind (sub target1 pitch) (fun e1 =>
          Ok (e0, e1, neg yaw_rate))) with
    | Raise e => (self, Raise e)
    | Ok (e0, e1, e2) =>
      let '(i0, i1, i2) := integral self in
      match integrate i0 e0 dt with
      | Raise e => (self, Raise e)
      | Ok n0 =>
        let self0 := with_integral (n0, i1, i2) self in
        match integrate i1 e1 dt with
        | Raise e => (self0, Raise e)
        | Ok n1 =>
          let self1 := with_integral (n0, n1, i2) self in
          match integrate i2 e2 dt with
          | Raise e => (self1, Raise e)
          | Ok n2 =>
            let self2 := with_integral (n0, n1, n2) self in
            let '(p0, p1, p2) := prev_error self in
            match rbind (derivative e0 p0 dt) (fun d0 =>
                  rbind (derivative e1 p1 dt) (fun d1 =>
                  rbind (derivative e2 p2 dt) (fun d2 =>
                  Ok (d0, d1, d2)))) with
            | Raise e => (self2, Raise e)
            | Ok (d0, d1, d2) =>
              let self3 := with_prev_error (e0, e1, e2) self2 in
              (self3,
               rbind (pid_sum (k0 gains) (k1 gains) (k2 gains) e0 n0 d0) (fun roll_out =>
               rbind (pid_sum (k3 gains) (k4 gains) (k5 gains) e1 n1 d1) (fun pitch_out =>
               rbind (pid_sum (k6 gains) (k7 gains) (k8 gains) e2 n2 d2) (fun yaw_out =>
               Ok (_limit_output roll_out limit0,
                   _limit_output pitch_out limit1,
                   _limit_output yaw_out limit2)))))
            end
          end
        end
      end
    end
  end.

(** The clamping line of [calculate_servo_commands]:
    [int(max(servo_min_angle, min(servo_max_angle, cmd)))] *)
Definition clamp_command (cmd : num) : result Z :=
  int (max (Int (servo_min_angle SAFETY_LIMITS))
           (min (Int (servo_max_angle SAFETY_LIMITS)) cmd)).

(** The four mixing lines of [calculate_servo_commands]. *)
Definition mix (pid_out : num * num * num) (flaps_base : num)
  : result (num * num * num * num) :=
  let '(out0, out1, out2) := pid_out in
  let neutral := Int (servo_neutral_angle SAFETY_LIMITS) in
  rbind (add neutral flaps_base) (fun base_left =>
  rbind (sub base_left out0) (fun flaps_left =>
  rbind (add neutral flaps_base) (fun base_right =>
  rbind (add base_right out0) (fun flaps_right =>
  rbind (sub neutral out1) (fun elevator =>
  rbind (add neutral out2) (fun rudder =>
  Ok (flaps_left, flaps_right, elevator, rudder))))))).

(** [calculate_servo_commands] *)
Definition calculate_servo_commands (self : t) (roll pitch yaw_rate : num)
  : t * result (list Z) :=
  match calculate self roll pitch yaw_rate default_dt with
  | (self', Raise e) => (self', Raise e)
  | (self', Ok pid_out) =>
    match FLIGHT_MODES !! flight_mode self' with
    | None => (self', Raise KeyError)
    | Some mode =>
      (self',
       rbind (mix pid_out (mode_flaps mode)) (fun '(flaps_left, flaps_right, elevator, rudder) =>
       rbind (clamp_command flaps_left) (fun c0 =>
       rbind (clamp_command flaps_right) (fun c1 =>
       rbind (clamp_command elevator) (fun c2 =>
       rbind (clamp_command rudder) (fun c3 =>
       Ok [c0; c1; c2; c3]))))))
    end
  end.

End WithFlightModes.

(** What a servo command is to its mixed value [x]: the value cut to an
    integer degree by truncation toward zero and clamped to the servo range
    when [x] is a number; the upper end of the range when [x] is [+inf] or
    a NaN, the lower end when it is [-inf]. *)
Definition command_of (x : num) (c : Z) : Prop :=
  match ext_of x with
  | Fin q => c = PIDController.truncated_and_clamped q
  | NegInf => c = servo_min_angle SAFETY_LIMITS
  | PosInf | NaN => c = servo_max_angle SAFETY_LIMITS
  end.

(** The stabilization mode of [config.py] with its numbers as written
    there: float gains, integer limits. *)
Definition stabilization_entry : mode_entry := {|
  mode_name := "ESTABILIZACAO";
  mode_gains :=
    {| k0 := literal 2 1; k1 := literal 15 100; k2 := literal 1 1;
       k3 := literal 25 10; k4 := literal 18 100; k5 := literal 12 10;
       k6 := literal 12 10; k7 := literal 6 100; k8 := literal 5 10 |};
  mode_limits := (Int 25, Int 30, Int 18);
  mode_target := (Float zero, Float zero);
  mode_flaps := Int 0
|}.

Definition stabilization_modes : gmap Z mode_entry := {[ 0 := stabilization_entry ]}.

End PIDFloat.

(** * Properties *)

(** ** Python arithmetic *)

Module PyFacts.

Lemma ltb_true (x y : Q) : Py.ltb x y = true <-> (x < y)%Q.
Proof.
  unfold Py.ltb. rewrite negb_true_iff.
  split; intros H.
  - apply Qnot_le_lt. intros Hle. apply Qle_bool_iff in Hle. congruence.
  - destruct (Qle_bool y x) eqn:E; [|reflexivity].
    apply Qle_bool_iff in E. exfalso. exact (Qlt_not_le _ _ H E).
Qed.

Lemma ltb_false (x y : Q) : Py.ltb x y = false <-> (y <= x)%Q.
Proof.
  unfold Py.ltb. rewrite negb_false_iff. apply Qle_bool_iff.
Qed.

(** [max(lo, min(hi, x))] lands between [lo] and [hi] whenever [lo <= hi]. *)
Lemma clamp_bounds (lo hi x : Q) :
  (lo <= hi)%Q ->
  (lo <= Py.max lo (Py.min hi x))%Q /\ (Py.max lo (Py.min hi x) <= hi)%Q.
Proof.
  intros Hlh. unfold Py.max, Py.min.
  destruct (Py.ltb x hi) eqn:E1.
  - apply ltb_true in E1.
    destruct (Py.ltb lo x) eqn:E2.
    + apply ltb_true in E2. split; apply Qlt_le_weak; assumption.
    + split; [apply Qle_refl | assumption].
  - destruct (Py.ltb lo hi) eqn:E2.
    + split; [assumption | apply Qle_refl].
    + split; [apply Qle_refl | assumption].
Qed.

Lemma int_inject_Z (n : Z) : Py.int (inject_Z n) = n.
Proof. unfold Py.int. simpl. apply Z.quot_1_r. Qed.

Lemma int_ge (n : Z) (x : Q) : (inject_Z n <= x)%Q -> n <= Py.int x.
Proof.
  unfold Qle, Py.int. simpl. intros H.
  rewrite Z.mul_1_r in H.
  rewrite <- (Z.quot_mul n (Z.pos (Qden x))) by discriminate.
  apply Z.quot_le_mono; [reflexivity | exact H].
Qed.

Lemma int_le (n : Z) (x : Q) : (x <= inject_Z n)%Q -> Py.int x <= n.
Proof.
  unfold Qle, Py.int. simpl. intros H.
  rewrite Z.mul_1_r in H.
  rewrite <- (Z.quot_mul n (Z.pos (Qden x))) by discriminate.
  apply Z.quot_le_mono; [reflexivity | exact H].
Qed.

(** Clamping between two integers and then truncating is truncating and
    then clamping. *)
Lemma int_clamp (lo hi : Z) (x : Q) :
  lo <= hi ->
  Py.int (Py.max (inject_Z lo) (Py.min (inject_Z hi) x)) =
  Z.max lo (Z.min hi (Py.int x)).
Proof.
  intros Hlh. unfold Py.max, Py.min.
  destruct (Py.ltb x (inject_Z hi)) eqn:E1.
  - apply ltb_true in E1. apply Qlt_le_weak, int_le in E1.
    destruct (Py.ltb (inject_Z lo) x) eqn:E2.
    + apply ltb_true in E2. apply Qlt_le_weak, int_ge in E2. lia.
    + apply ltb_false, int_le in E2. rewrite int_inject_Z. lia.
  - apply ltb_false, int_ge in E1.
    destruct (Py.ltb (inject_Z lo) (inject_Z hi)) eqn:E2;
      rewrite int_inject_Z; [lia|].
    apply ltb_false in E2. rewrite <- Zle_Qle in E2. lia.
Qed.

Lemma truediv_zero (x dt : Q) :
  (dt == 0)%Q -> Py.truediv x dt = Raise ZeroDivisionError.
Proof.
  intros H. unfold Py.truediv.
  apply Qeq_bool_iff in H. rewrite H. reflexivity.
Qed.

Lemma truediv_nonzero (x dt : Q) :
  ~ (dt == 0)%Q -> Py.truediv x dt = Ok (x / dt)%Q.
Proof.
  intros H. unfold Py.truediv.
  destruct (Qeq_bool dt 0) eqn:E; [|reflexivity].
  apply Qeq_bool_iff in E. contradiction.
Qed.

End PyFacts.

(** ** The PID controller *)

Module PIDFacts.
Import PIDController.

Lemma anti_windup_bounded (x : Q) : within_integral_limit (anti_windup x).
Proof.
  unfold within_integral_limit, anti_windup.
  apply PyFacts.clamp_bounds. vm_compute. discriminate.
Qed.

Lemma clamp_command_truncated (cmd : Q) :
  clamp_command cmd = truncated_and_clamped cmd.
Proof.
  unfold clamp_command, truncated_and_clamped, clampZ.
  apply PyFacts.int_clamp. vm_compute. discriminate.
Qed.

Lemma truncated_and_clamped_range (cmd : Q) :
  within_servo_range (truncated_and_clamped cmd).
Proof.
  unfold within_servo_range, truncated_and_clamped, clampZ.
  assert (servo_min_angle SAFETY_LIMITS <= servo_max_angle SAFETY_LIMITS)
    by (vm_compute; discriminate).
  lia.
Qed.

Section WithFlightModes.

Variable FLIGHT_MODES : gmap Z FlightMode.

Lemma zero_bounded : integral_bounded init.
Proof.
  unfold integral_bounded, within_integral_limit. simpl.
  repeat split; vm_compute; discriminate.
Qed.

Lemma reset_bounded (self : t) : integral_bounded (reset self).
Proof. exact zero_bounded. Qed.

(** [calculate] clamps what it stores, also when it goes on to raise. *)
Lemma calculate_bounded (self : t) (roll pitch yaw_rate dt : Q) :
  integral_bounded self ->
  integral_bounded (fst (calculate FLIGHT_MODES self roll pitch yaw_rate dt)).
Proof.
  intros Hself. unfold calculate.
  destruct (get_flight_mode_info FLIGHT_MODES self) as [mode|e]; [|exact Hself].
  destruct (limits mode) as [[limit0 limit1] limit2].
  destruct (errors_of mode roll pitch yaw_rate) as [[e0 e1] e2].
  destruct (integral self) as [[i0 i1] i2].
  destruct (prev_error self) as [[p0 p1] p2].
  match goal with
  | |- context [match ?d with Ok _ => _ | Raise _ => _ end] => destruct d as [[[d0 d1] d2]|e]
  end; unfold integral_bounded; simpl;
    repeat split; apply anti_windup_bounded.
Qed.

Lemma calculate_servo_commands_state (self : t) (roll pitch yaw_rate : Q) :
  fst (calculate_servo_commands FLIGHT_MODES self roll pitch yaw_rate) =
  fst (calculate FLIGHT_MODES self roll pitch yaw_rate default_dt).
Proof.
  unfold calculate_servo_commands.
  destruct (calculate FLIGHT_MODES self roll pitch yaw_rate default_dt) as [self' [out|e]];
    [|reflexivity].
  destruct (get_flight_mode_info FLIGHT_MODES self'); reflexivity.
Qed.

Lemma set_flight_mode_bounded (self : t) (mode_index : Z) :
  integral_bounded self ->
  integral_bounded (fst (set_flight_mode FLIGHT_MODES self mode_index)).
Proof.
  intros Hself. unfold set_flight_mode.
  destruct ((0 <=? mode_index) && (mode_index <? Z.of_nat (size FLIGHT_MODES)));
    [|exact Hself].
  destruct (negb (flight_mode self =? mode_index)); [apply reset_bounded | exact Hself].
Qed.

(** With a mode to look up and a non-zero [dt], [calculate] returns, and
    this is what it stores and returns. *)
Lemma calculate_returns (self : t) (roll pitch yaw_rate dt : Q) (mode : FlightMode) :
  FLIGHT_MODES !! flight_mode self = Some mode ->
  ~ (dt == 0)%Q ->
  let '(e0, e1, e2) := errors_of mode roll pitch yaw_rate in
  let '(i0, i1, i2) := integral self in
  let '(p0, p1, p2) := prev_error self in
  let '(limit0, limit1, limit2) := limits mode in
  let g := gains mode in
  let n0 := anti_windup (i0 + e0 * dt) in
  let n1 := anti_windup (i1 + e1 * dt) in
  let n2 := anti_windup (i2 + e2 * dt) in
  calculate FLIGHT_MODES self roll pitch yaw_rate dt =
  ({| integral := (n0, n1, n2);
      prev_error := (e0, e1, e2);
      flight_mode := flight_mode self |},
   Ok (_limit_output (g0 g * e0 + g1 g * n0 + g2 g * ((e0 - p0) / dt)) limit0,
       _limit_output (g3 g * e1 + g4 g * n1 + g5 g * ((e1 - p1) / dt)) limit1,
       _limit_output (g6 g * e2 + g7 g * n2 + g8 g * ((e2 - p2) / dt)) limit2)).
Proof.
  intros Hmode Hdt. unfold calculate, get_flight_mode_info. rewrite Hmode.
  destruct (errors_of mode roll pitch yaw_rate) as [[e0 e1] e2].
  destruct (integral self) as [[i0 i1] i2].
  destruct (prev_error self) as [[p0 p1] p2].
  destruct (limits mode) as [[limit0 limit1] limit2].
  rewrite !(PyFacts.truediv_nonzero _ dt Hdt). reflexivity.
Qed.

Lemma calculate_flight_mode (self : t) (roll pitch yaw_rate dt : Q) :
  flight_mode (fst (calculate FLIGHT_MODES self roll pitch yaw_rate dt)) = flight_mode self.
Proof.
  unfold calculate.
  destruct (get_flight_mode_info FLIGHT_MODES self) as [mode|e]; [|reflexivity].
  destruct (limits mode) as [[limit0 limit1] limit2].
  destruct (errors_of mode roll pitch yaw_rate) as [[e0 e1] e2].
  destruct (integral self) as [[i0 i1] i2].
  destruct (prev_error self) as [[p0 p1] p2].
  match goal with
  | |- context [match ?d with Ok _ => _ | Raise _ => _ end] => destruct d as [[[d0 d1] d2]|e]
  end; reflexivity.
Qed.

(** Commands that [calculate_servo_commands] returns are the mix of what
    [calculate] returned with the default [dt], on the flap base of the
    active mode. *)
Lemma calculate_servo_commands_ok (self : t) (roll pitch yaw_rate : Q) (commands : list Z) :
  snd (calculate_servo_commands FLIGHT_MODES self roll pitch yaw_rate) = Ok commands ->
  exists (mode : FlightMode) (pid_out : Q * Q * Q),
    FLIGHT_MODES !! flight_mode self = Some mode /\
    snd (calculate FLIGHT_MODES self roll pitch yaw_rate default_dt) = Ok pid_out /\
    commands = mix_commands pid_out (flaps mode).
Proof.
  unfold calculate_servo_commands.
  pose proof (calculate_flight_mode self roll pitch yaw_rate default_dt) as Hmode.
  destruct (calculate FLIGHT_MODES self roll pitch yaw_rate default_dt) as [self' [out|e]];
    cbn [fst snd] in *; [|discriminate].
  unfold get_flight_mode_info. rewrite Hmode.
  destruct (FLIGHT_MODES !! flight_mode self) as [mode|]; cbn [snd]; [|discriminate].
  intros H. injection H as <-. exists mode, out. repeat split; reflexivity.
Qed.

Lemma mix_commands_truncated (roll_out pitch_out yaw_out : Q) (flaps_base : Z) :
  let neutral := inject_Z (servo_neutral_angle SAFETY_LIMITS) in
  mix_commands (roll_out, pitch_out, yaw_out) flaps_base =
    [ truncated_and_clamped (neutral + inject_Z flaps_base - roll_out);
      truncated_and_clamped (neutral + inject_Z flaps_base + roll_out);
      truncated_and_clamped (neutral - pitch_out);
      truncated_and_clamped (neutral + yaw_out) ].
Proof.
  intros neutral. unfold mix_commands. cbn [List.map].
  rewrite !clamp_command_truncated. reflexivity.
Qed.

Lemma mix_commands_range (pid_out : Q * Q * Q) (flaps_base : Z) :
  Forall within_servo_range (mix_commands pid_out flaps_base).
Proof.
  destruct pid_out as [[roll_out pitch_out] yaw_out].
  rewrite mix_commands_truncated.
  repeat constructor; apply truncated_and_clamped_range.
Qed.

(** Without a guard, a zero [dt] makes the first division raise, after
    the integral was stored and before [prev_error] is. *)
Lemma calculate_zero_dt_raises (self : t) (roll pitch yaw_rate dt : Q) (mode : FlightMode) :
  FLIGHT_MODES !! flight_mode self = Some mode ->
  (dt == 0)%Q ->
  snd (calculate FLIGHT_MODES self roll pitch yaw_rate dt) = Raise ZeroDivisionError /\
  prev_error (fst (calculate FLIGHT_MODES self roll pitch yaw_rate dt)) = prev_error self.
Proof.
  intros Hmode Hdt. unfold calculate, get_flight_mode_info. rewrite Hmode.
  destruct (errors_of mode roll pitch yaw_rate) as [[e0 e1] e2].
  destruct (integral self) as [[i0 i1] i2].
  destruct (prev_error self) as [[p0 p1] p2].
  destruct (limits mode) as [[limit0 limit1] limit2].
  rewrite (PyFacts.truediv_zero _ dt Hdt). simpl. split; reflexivity.
Qed.

End WithFlightModes.

End PIDFacts.

(** ** The PID controller in Python's own arithmetic *)

Module PIDFloatFacts.
Import PyNum PIDFloat.

Lemma servo_range_values :
  servo_min_angle SAFETY_LIMITS = 30 /\ servo_max_angle SAFETY_LIMITS = 150.
Proof. split; reflexivity. Qed.

(** [int()] of a number with a value is the truncation of that value. *)
Lemma int_of_value (a : num) (q : Q) :
  ext_of a = Fin q -> int a = Ok (Py.int q).
Proof.
  destruct a as [n | [s | s | | s m e]]; cbn [ext_of int].
  - intros H. injection H as <-. rewrite PyFacts.int_inject_Z. reflexivity.
  - intros H. injection H as <-. reflexivity.
  - destruct s; discriminate.
  - discriminate.
  - intros H. injection H as <-. reflexivity.
Qed.

(** The clamping line never raises, whatever it is given, and lands in the
    servo range. *)
Lemma clamp_command_spec (x : num) :
  exists c : Z,
    clamp_command x = Ok c /\ command_of x c /\ PIDController.within_servo_range c.
Proof.
  destruct servo_range_values as [Hlo Hhi].
  unfold clamp_command, command_of, PIDController.within_servo_range,
    PIDController.truncated_and_clamped, PIDController.clampZ.
  rewrite Hlo, Hhi.
  assert (Hbounds : lt (Int 30) (Int 150) = true) by reflexivity.
  unfold max, min.
  destruct (ext_of x) as [ | | | q] eqn:Hx.
  - assert (Hcmp : lt x (Int 150) = false) by (unfold lt; rewrite Hx; reflexivity).
    rewrite Hcmp, Hbounds. exists 150. cbn [int]. repeat split; lia.
  - assert (Hcmp : lt x (Int 150) = true) by (unfold lt; rewrite Hx; reflexivity).
    assert (Hlow : lt (Int 30) x = false) by (unfold lt; rewrite Hx; reflexivity).
    rewrite Hcmp, Hlow. exists 30. cbn [int]. repeat split; lia.
  - assert (Hcmp : lt x (Int 150) = false) by (unfold lt; rewrite Hx; reflexivity).
    rewrite Hcmp, Hbounds. exists 150. cbn [int]. repeat split; lia.
  - assert (Hcmp : lt x (Int 150) = Py.ltb q (inject_Z 150))
      by (unfold lt; rewrite Hx; reflexivity).
    assert (Hlow : lt (Int 30) x = Py.ltb (inject_Z 30) q)
      by (unfold lt; rewrite Hx; reflexivity).
    rewrite Hcmp.
    destruct (Py.ltb q (inject_Z 150)) eqn:E1.
    + rewrite Hlow.
      apply PyFacts.ltb_true in E1. apply Qlt_le_weak, PyFacts.int_le in E1.
      destruct (Py.ltb (inject_Z 30) q) eqn:E2.
      * apply PyFacts.ltb_true in E2. apply Qlt_le_weak, PyFacts.int_ge in E2.
        exists (Py.int q). split; [apply int_of_value, Hx|]. split; lia.
      * apply PyFacts.ltb_false, PyFacts.int_le in E2.
        exists 30. cbn [int]. repeat split; lia.
    + rewrite Hbounds.
      apply PyFacts.ltb_false, PyFacts.int_ge in E1.
      exists 150. cbn [int]. repeat split; lia.
Qed.

Section WithFlightModes.

Variable FLIGHT_MODES : gmap Z mode_entry.

(** [calculate] leaves [flight_mode] alone, whether it returns or raises. *)
Lemma float_calculate_flight_mode (self : t) (roll pitch yaw_rate dt : num) :
  flight_mode (fst (calculate FLIGHT_MODES self roll pitch yaw_rate dt)) = flight_mode self.
Proof.
  unfold calculate.
  destruct (FLIGHT_MODES !! flight_mode self) as [mode|]; [|reflexivity].
  destruct (mode_limits mode) as [[limit0 limit1] limit2].
  destruct (mode_target mode) as [target0 target1].
  destruct (rbind (sub target0 roll) _) as [[[e0 e1] e2]|e]; [|reflexivity].
  destruct (integral self) as [[i0 i1] i2].
  destruct (integrate i0 e0 dt) as [n0|e]; [|reflexivity].
  destruct (integrate i1 e1 dt) as [n1|e]; [|reflexivity].
  destruct (integrate i2 e2 dt) as [n2|e]; [|reflexivity].
  destruct (prev_error self) as [[p0 p1] p2].
  destruct (rbind (derivative e0 p0 dt) _) as [[[d0 d1] d2]|e]; reflexivity.
Qed.

(** What the four mixing lines compute. *)
Lemma mix_spec (out0 out1 out2 flaps_base flaps_left flaps_right elevator rudder : num) :
  mix (out0, out1, out2) flaps_base = Ok (flaps_left, flaps_right, elevator, rudder) <->
  exists base : num,
    add (Int (servo_neutral_angle SAFETY_LIMITS)) flaps_base = Ok base /\
    sub base out0 = Ok flaps_left /\
    add base out0 = Ok flaps_right /\
    sub (Int (servo_neutral_angle SAFETY_LIMITS)) out1 = Ok elevator /\
    add (Int (servo_neutral_angle SAFETY_LIMITS)) out2 = Ok rudder.
Proof.
  unfold mix. split.
  - destruct (add (Int (servo_neutral_angle SAFETY_LIMITS)) flaps_base) as [base|e]
      eqn:Hbase; cbn [rbind]; [|discriminate].
    destruct (sub base out0) as [fl|e] eqn:Hfl; cbn [rbind]; [|discriminate].
    destruct (add base out0) as [fr|e] eqn:Hfr; cbn [rbind]; [|discriminate].
    destruct (sub (Int (servo_neutral_angle SAFETY_LIMITS)) out1) as [el|e] eqn:Hel;
      cbn [rbind]; [|discriminate].
    destruct (add (Int (servo_neutral_angle SAFETY_LIMITS)) out2) as [ru|e] eqn:Hru;
      cbn [rbind]; [|discriminate].
    intros H. injection H as <- <- <- <-. exists base.
    repeat split; first [reflexivity | assumption].
  - intros (base & Hbase & Hfl & Hfr & Hel & Hru).
    rewrite Hbase. cbn [rbind]. rewrite Hfl, Hfr, Hel, Hru. reflexivity.
Qed.

(** The clamping loop over four mixed values. *)
Lemma clamp_all (flaps_left flaps_right elevator rudder : num) :
  exists c0 c1 c2 c3 : Z,
    rbind (clamp_command flaps_left) (fun c0 =>
    rbind (clamp_command flaps_right) (fun c1 =>
    rbind (clamp_command elevator) (fun c2 =>
    rbind (clamp_command rudder) (fun c3 =>
    Ok [c0; c1; c2; c3])))) = Ok [c0; c1; c2; c3] /\
    command_of flaps_left c0 /\ command_of flaps_right c1 /\
    command_of elevator c2 /\ command_of rudder c3 /\
    Forall PIDController.within_servo_range [c0; c1; c2; c3].
Proof.
  destruct (clamp_command_spec flaps_left) as (c0 & H0 & Hc0 & Hr0).
  destruct (clamp_command_spec flaps_right) as (c1 & H1 & Hc1 & Hr1).
  destruct (clamp_command_spec elevator) as (c2 & H2 & Hc2 & Hr2).
  destruct (clamp_command_spec rudder) as (c3 & H3 & Hc3 & Hr3).
  exists c0, c1, c2, c3. rewrite H0, H1, H2, H3. cbn [rbind].
  split; [reflexivity|]. repeat (split; [assumption|]).
  repeat first [assumption | constructor].
Qed.

End WithFlightModes.

End PIDFloatFacts.

Module PIDClaims.
Import PIDController.

(** C2, evaluated on the code: on a fresh controller with the
    stabilization mode, [calculate(10.0, 5.0, 2.0, 0.0)] does not return.
    The derivative line divides by [dt] unguarded and raises
    [ZeroDivisionError]; no derivative is taken as 0 and no output is
    produced. *)
Theorem calculate_zero_dt_raises_on_fresh_controller :
  snd (calculate stabilization_table init 10 5 2 0) = Raise ZeroDivisionError /\
  ~ returns (snd (calculate stabilization_table init 10 5 2 0)).
Proof.
  assert (H : snd (calculate stabilization_table init 10 5 2 0) = Raise ZeroDivisionError)
    by (vm_compute; reflexivity).
  split; [exact H | rewrite H; simpl; tauto].
Qed.

(** In exact arithmetic: on a fresh controller with the stabilization
    mode, [calculate_servo_commands(10.0, 5.0, 2.0)] mixes the rudder to
    neutral + yaw_out = 77.588 degrees and returns 77 for it, where the
    value rounded to an integer degree is 78. *)
Lemma servo_commands_not_rounded :
  exists (self' : t) (roll_out pitch_out yaw_out : Q),
    calculate stabilization_table init 10 5 2 default_dt =
      (self', Ok (roll_out, pitch_out, yaw_out)) /\
    (inject_Z (servo_neutral_angle SAFETY_LIMITS) + yaw_out == 77588 # 1000)%Q /\
    snd (calculate_servo_commands stabilization_table init 10 5 2) =
      Ok [115; 65; 120; 77] /\
    rounded_and_clamped (inject_Z (servo_neutral_angle SAFETY_LIMITS) + yaw_out) = 78 /\
    snd (calculate_servo_commands stabilization_table init 10 5 2) <>
      Ok [ rounded_and_clamped
             (inject_Z (servo_neutral_angle SAFETY_LIMITS)
              + inject_Z (flaps stabilization_mode) - roll_out);
           rounded_and_clamped
             (inject_Z (servo_neutral_angle SAFETY_LIMITS)
              + inject_Z (flaps stabilization_mode) + roll_out);
           rounded_and_clamped (inject_Z (servo_neutral_angle SAFETY_LIMITS) - pitch_out);
           rounded_and_clamped (inject_Z (servo_neutral_angle SAFETY_LIMITS) + yaw_out) ].
Proof.
  eexists; eexists; eexists; eexists.
  split; [vm_compute; reflexivity|].
  split; [vm_compute; reflexivity|].
  split; [vm_compute; reflexivity|].
  split; [vm_compute; reflexivity|].
  vm_compute. discriminate.
Qed.

(** C4 as stated fails: on a fresh controller with the stabilization
    mode, [calculate_servo_commands(10.0, 5.0, 2.0)] gets the yaw output
    -12.411999999999999 from [calculate], mixes the rudder to the float
    90 + yaw_out, which lies between 77.5 and 78, and returns 77 for it,
    where the value rounded to an integer degree is 78. *)
Lemma servo_commands_truncated_not_rounded :
  let ten := PyNum.literal 10 1 in
  let five := PyNum.literal 5 1 in
  let two := PyNum.literal 2 1 in
  exists (self' : PIDFloat.t) (yaw_out rudder : spec_float),
    PIDFloat.calculate PIDFloat.stabilization_modes PIDFloat.init ten five two
      PIDFloat.default_dt =
      (self', Ok (PyNum.Int (-25), PyNum.Int (-30), PyNum.Float yaw_out)) /\
    PyNum.add (PyNum.Int (servo_neutral_angle SAFETY_LIMITS)) (PyNum.Float yaw_out) =
      Ok (PyNum.Float rudder) /\
    (775 # 10 < PyNum.value rudder)%Q /\ (PyNum.value rudder < 78)%Q /\
    snd (PIDFloat.calculate_servo_commands PIDFloat.stabilization_modes PIDFloat.init
           ten five two) = Ok [115; 65; 120; 77] /\
    truncated_and_clamped (PyNum.value rudder) = 77 /\
    rounded_and_clamped (PyNum.value rudder) = 78.
Proof.
  intros ten five two.
  eexists; eexists; eexists.
  split; [vm_compute; reflexivity|].
  split; [vm_compute; reflexivity|].
  split; [vm_compute; reflexivity|].
  split; [vm_compute; reflexivity|].
  split; [vm_compute; reflexivity|].
  split; vm_compute; reflexivity.
Qed.

(** The sums of the mixing lines are rounded: with a roll output of
    12.000000000000002 the left flap mixes to 90 - 12.000000000000002,
    which is the float 78.0, and the command is 78; the exact difference
    lies just below 78 and truncates to 77. *)
Lemma rounded_mix_reaches_the_next_degree :
  let roll_out := PyNum.Float (S754_finite false 6755399441055745 (-49)) in
  PyNum.sub (PyNum.Int 90) roll_out =
    Ok (PyNum.Float (S754_finite false 5488762045857792 (-46))) /\
  (PyNum.value (S754_finite false 5488762045857792 (-46)) == 78)%Q /\
  PIDFloat.clamp_command (PyNum.Float (S754_finite false 5488762045857792 (-46))) = Ok 78 /\
  truncated_and_clamped (90 - PyNum.value (S754_finite false 6755399441055745 (-49))) = 77.
Proof. vm_compute. repeat split; reflexivity. Qed.

(** C4, amended: whenever [calculate_servo_commands] returns, the active
    mode is in the table, [calculate] returned a PID output for the default
    [dt], the four mixes neutral + flaps - roll_out, neutral + flaps +
    roll_out, neutral - pitch_out and neutral + yaw_out are those of
    Python's arithmetic (a sum with a float operand is rounded to the
    nearest float), and each of the four commands is its mix clamped to
    [servo_min_angle, servo_max_angle] and cut to an integer degree by
    truncation toward zero, what [int()] does, which is truncating and then
    clamping; a mix that is [+inf] or a NaN gives the upper end of the
    range, [-inf] the lower end. So every angle returned lies within
    [servo_min_angle, servo_max_angle]. And it does return whenever
    [calculate] returns and the four mixes are defined: the clamping line
    never raises. *)
Theorem servo_commands_mixed_and_clamped
    (FLIGHT_MODES : gmap Z PIDFloat.mode_entry) (self : PIDFloat.t)
    (roll pitch yaw_rate : PyNum.num) :
  (forall (self' : PIDFloat.t) (commands : list Z),
      PIDFloat.calculate_servo_commands FLIGHT_MODES self roll pitch yaw_rate =
        (self', Ok commands) ->
      exists (mode : PIDFloat.mode_entry) (pid_out : PyNum.num * PyNum.num * PyNum.num)
             (flaps_left flaps_right elevator rudder : PyNum.num) (c0 c1 c2 c3 : Z),
        FLIGHT_MODES !! PIDFloat.flight_mode self = Some mode /\
        PIDFloat.calculate FLIGHT_MODES self roll pitch yaw_rate PIDFloat.default_dt =
          (self', Ok pid_out) /\
        PIDFloat.mix pid_out (PIDFloat.mode_flaps mode) =
          Ok (flaps_left, flaps_right, elevator, rudder) /\
        commands = [c0; c1; c2; c3] /\
        PIDFloat.command_of flaps_left c0 /\
        PIDFloat.command_of flaps_right c1 /\
        PIDFloat.command_of elevator c2 /\
        PIDFloat.command_of rudder c3 /\
        Forall within_servo_range commands) /\
  (forall (out0 out1 out2 flaps_base flaps_left flaps_right elevator rudder : PyNum.num),
      PIDFloat.mix (out0, out1, out2) flaps_base =
        Ok (flaps_left, flaps_right, elevator, rudder) <->
      exists base : PyNum.num,
        PyNum.add (PyNum.Int (servo_neutral_angle SAFETY_LIMITS)) flaps_base = Ok base /\
        PyNum.sub base out0 = Ok flaps_left /\
        PyNum.add base out0 = Ok flaps_right /\
        PyNum.sub (PyNum.Int (servo_neutral_angle SAFETY_LIMITS)) out1 = Ok elevator /\
        PyNum.add (PyNum.Int (servo_neutral_angle SAFETY_LIMITS)) out2 = Ok rudder) /\
  (forall (self' : PIDFloat.t) (mode : PIDFloat.mode_entry)
          (pid_out : PyNum.num * PyNum.num * PyNum.num)
          (flaps_left flaps_right elevator rudder : PyNum.num),
      FLIGHT_MODES !! PIDFloat.flight_mode self = Some mode ->
      PIDFloat.calculate FLIGHT_MODES self roll pitch yaw_rate PIDFloat.default_dt =
        (self', Ok pid_out) ->
      PIDFloat.mix pid_out (PIDFloat.mode_flaps mode) =
        Ok (flaps_left, flaps_right, elevator, rudder) ->
      exists commands : list Z,
        PIDFloat.calculate_servo_commands FLIGHT_MODES self roll pitch yaw_rate =
          (self', Ok commands)).
Proof.
  split; [|split].
  - intros self' commands Hret.
    pose proof (PIDFloatFacts.float_calculate_flight_mode FLIGHT_MODES self roll pitch yaw_rate
                  PIDFloat.default_dt) as Hmode.
    unfold PIDFloat.calculate_servo_commands in Hret.
    destruct (PIDFloat.calculate FLIGHT_MODES self roll pitch yaw_rate PIDFloat.default_dt)
      as [self1 [pid_out|e]] eqn:Hcalc; cbn [fst] in Hmode.
    2: { injection Hret as _ Hbad. discriminate. }
    rewrite Hmode in Hret.
    destruct (FLIGHT_MODES !! PIDFloat.flight_mode self) as [mode|] eqn:Hlookup.
    2: { injection Hret as _ Hbad. discriminate. }
    injection Hret as -> Hcommands.
    destruct (PIDFloat.mix pid_out (PIDFloat.mode_flaps mode))
      as [[[[flaps_left flaps_right] elevator] rudder]|e] eqn:Hmix;
      cbn [rbind] in Hcommands; [|discriminate].
    destruct (PIDFloatFacts.clamp_all flaps_left flaps_right elevator rudder)
      as (c0 & c1 & c2 & c3 & Hclamp & H0 & H1 & H2 & H3 & Hrange).
    rewrite Hclamp in Hcommands. injection Hcommands as <-.
    exists mode, pid_out, flaps_left, flaps_right, elevator, rudder, c0, c1, c2, c3.
    split; [reflexivity|]. split; [reflexivity|]. split; [exact Hmix|].
    split; [reflexivity|]. repeat (split; [assumption|]). exact Hrange.
  - intros out0 out1 out2 flaps_base flaps_left flaps_right elevator rudder.
    apply PIDFloatFacts.mix_spec.
  - intros self' mode pid_out flaps_left flaps_right elevator rudder Hlookup Hcalc Hmix.
    pose proof (PIDFloatFacts.float_calculate_flight_mode FLIGHT_MODES self roll pitch yaw_rate
                  PIDFloat.default_dt) as Hmode.
    unfold PIDFloat.calculate_servo_commands.
    rewrite Hcalc in Hmode |- *. cbn [fst] in Hmode.
    rewrite Hmode, Hlookup, Hmix. cbn [rbind].
    destruct (PIDFloatFacts.clamp_all flaps_left flaps_right elevator rudder)
      as (c0 & c1 & c2 & c3 & Hclamp & _).
    rewrite Hclamp. eexists. reflexivity.
Qed.

(** On a fresh controller with the stabilization mode,
    [calculate_servo_commands(10.0, 5.0, 2.0)] returns [115, 65, 120, 77]:
    the yaw output is the float -12.411999999999999 and the rudder mixes to
    77.588..., cut to 77. *)
Lemma servo_commands_mixed_and_clamped_witness :
  let ten := PyNum.literal 10 1 in
  let five := PyNum.literal 5 1 in
  let two := PyNum.literal 2 1 in
  snd (PIDFloat.calculate_servo_commands PIDFloat.stabilization_modes PIDFloat.init
         ten five two) = Ok [115; 65; 120; 77] /\
  snd (PIDFloat.calculate PIDFloat.stabilization_modes PIDFloat.init ten five two
         PIDFloat.default_dt) =
    Ok (PyNum.Int (-25), PyNum.Int (-30),
        PyNum.Float (S754_finite true 6987334821865324 (-49))) /\
  Forall within_servo_range [115; 65; 120; 77].
Proof.
  intros ten five two.
  assert (Hret :
    PIDFloat.calculate_servo_commands PIDFloat.stabilization_modes PIDFloat.init
      ten five two =
    (fst (PIDFloat.calculate_servo_commands PIDFloat.stabilization_modes PIDFloat.init
            ten five two), Ok [115; 65; 120; 77])) by (vm_compute; reflexivity).
  split; [rewrite Hret; reflexivity|].
  split; [vm_compute; reflexivity|].
  destruct (proj1 (servo_commands_mixed_and_clamped PIDFloat.stabilization_modes
                     PIDFloat.init ten five two) _ _ Hret)
    as (mode & pid_out & fl & fr & el & ru & c0 & c1 & c2 & c3 & _ & _ & _ & Hcommands
        & _ & _ & _ & _ & Hrange).
  exact Hrange.
Defined.

(** C5: in every state a controller can reach from [__init__] through any
    sequence of [calculate], [calculate_servo_commands], [reset],
    [emergency_stop] and [set_flight_mode] calls, with any attitude and any
    [dt] (a call that raises included), each of the three integrals lies
    within [-max_pid_integral, +max_pid_integral]. *)
Theorem integral_stays_within_limit
    (FLIGHT_MODES : gmap Z FlightMode) (self : t) :
  reachable FLIGHT_MODES self -> integral_bounded self.
Proof.
  induction 1 as [ | self roll pitch yaw_rate dt _ IH
                   | self roll pitch yaw_rate _ IH
                   | self _ IH | self _ IH
                   | self mode_index _ IH ].
  - apply PIDFacts.zero_bounded.
  - apply PIDFacts.calculate_bounded, IH.
  - rewrite PIDFacts.calculate_servo_commands_state.
    apply PIDFacts.calculate_bounded, IH.
  - apply PIDFacts.reset_bounded.
  - apply PIDFacts.reset_bounded.
  - apply PIDFacts.set_flight_mode_bounded, IH.
Qed.

Lemma integral_stays_within_limit_witness :
  reachable stabilization_table
    (fst (calculate stabilization_table init 1000 1000 1000 1)) /\
  integral_bounded (fst (calculate stabilization_table init 1000 1000 1000 1)).
Proof.
  split.
  - apply reach_calculate, reach_init.
  - apply (integral_stays_within_limit stabilization_table).
    apply reach_calculate, reach_init.
Defined.

(** C10: for every input, [calculate_servo_commands] runs [calculate] with
    the default [dt] of 0.1 s: it leaves the controller as that call leaves
    it and returns the mix of what that call returns. So on the
    orchestrator's stabilization step, with the active mode in the table,
    each integral accumulates [error * 0.1] (then clamped) per tick and each
    derivative is the error difference divided by 0.1. None of this reads
    the loop frequency: the configured 50 Hz give a tick period of 20 ms,
    not 100 ms. *)
Theorem servo_commands_use_default_dt
    (FLIGHT_MODES : gmap Z FlightMode) (self : t) (roll pitch yaw_rate : Q) :
  let tenth := (1 # 10)%Q in
  let by_calculate := calculate FLIGHT_MODES self roll pitch yaw_rate tenth in
  (fst (calculate_servo_commands FLIGHT_MODES self roll pitch yaw_rate) = fst by_calculate /\
   snd (calculate_servo_commands FLIGHT_MODES self roll pitch yaw_rate) =
     rbind (snd by_calculate) (fun pid_out =>
     rbind (get_flight_mode_info FLIGHT_MODES self) (fun mode =>
     Ok (mix_commands pid_out (flaps mode))))) /\
  (forall sys : PlanadorSystem.t,
      PlanadorSystem.pid_controller sys = self ->
      PlanadorSystem.pid_controller
        (fst (PlanadorSystem.calculate_servo_commands FLIGHT_MODES roll pitch yaw_rate sys)) =
      fst by_calculate) /\
  (forall mode : FlightMode,
      FLIGHT_MODES !! flight_mode self = Some mode ->
      let '(e0, e1, e2) := errors_of mode roll pitch yaw_rate in
      let '(i0, i1, i2) := integral self in
      let '(p0, p1, p2) := prev_error self in
      let '(limit0, limit1, limit2) := limits mode in
      let g := gains mode in
      let n0 := anti_windup (i0 + e0 * tenth) in
      let n1 := anti_windup (i1 + e1 * tenth) in
      let n2 := anti_windup (i2 + e2 * tenth) in
      calculate_servo_commands FLIGHT_MODES self roll pitch yaw_rate =
        ({| integral := (n0, n1, n2);
            prev_error := (e0, e1, e2);
            flight_mode := flight_mode self |},
         Ok (mix_commands
               (_limit_output (g0 g * e0 + g1 g * n0 + g2 g * ((e0 - p0) / tenth)) limit0,
                _limit_output (g3 g * e1 + g4 g * n1 + g5 g * ((e1 - p1) / tenth)) limit1,
                _limit_output (g6 g * e2 + g7 g * n2 + g8 g * ((e2 - p2) / tenth)) limit2)
               (flaps mode)))) /\
  main_loop_frequency SYSTEM_CONFIG = 50 /\
  tick_period_ms = 20 /\
  ~ (inject_Z tick_period_ms / 1000 == tenth)%Q.
Proof.
  intros tenth by_calculate.
  pose proof (PIDFacts.calculate_servo_commands_state FLIGHT_MODES self
                roll pitch yaw_rate) as Hstate.
  split; [split; [exact Hstate|]|split; [|split]].
  - pose proof (PIDFacts.calculate_flight_mode FLIGHT_MODES self roll pitch yaw_rate
                  default_dt) as Hmode.
    unfold calculate_servo_commands. subst by_calculate tenth.
    change (1 # 10)%Q with default_dt.
    destruct (calculate FLIGHT_MODES self roll pitch yaw_rate default_dt) as [self' [out|e]];
      cbn [fst snd rbind] in *; [|reflexivity].
    unfold get_flight_mode_info. rewrite Hmode.
    destruct (FLIGHT_MODES !! flight_mode self); reflexivity.
  - intros sys Hsys.
    unfold PlanadorSystem.calculate_servo_commands. rewrite Hsys.
    destruct (calculate_servo_commands FLIGHT_MODES self roll pitch yaw_rate)
      as [pid' r] eqn:E.
    cbn [fst PlanadorSystem.pid_controller PlanadorSystem.set_pid_controller].
    exact Hstate.
  - intros mode Hmode.
    assert (Hdt : ~ (default_dt == 0)%Q) by (vm_compute; discriminate).
    pose proof (PIDFacts.calculate_returns FLIGHT_MODES self roll pitch yaw_rate
                  default_dt mode Hmode Hdt) as Hcalc.
    unfold calculate_servo_commands.
    destruct (errors_of mode roll pitch yaw_rate) as [[e0 e1] e2].
    destruct (integral self) as [[i0 i1] i2].
    destruct (prev_error self) as [[p0 p1] p2].
    destruct (limits mode) as [[limit0 limit1] limit2].
    cbv zeta in Hcalc |- *. rewrite Hcalc.
    unfold get_flight_mode_info. cbn [flight_mode]. rewrite Hmode. reflexivity.
  - repeat split; try reflexivity. vm_compute. discriminate.
Qed.

Lemma servo_commands_use_default_dt_witness :
  stabilization_table !! flight_mode init = Some stabilization_mode /\
  snd (calculate_servo_commands stabilization_table init 10 0 0) =
    Ok [115; 65; 90; 90].
Proof.
  split; [reflexivity|].
  destruct (servo_commands_use_default_dt stabilization_table init 10 0 0)
    as (_ & _ & H & _).
  specialize (H stabilization_mode eq_refl).
  hnf in H. rewrite H. vm_compute. reflexivity.
Defined.

End PIDClaims.

(** ** The radio receiver *)

Module RCFacts.
Import RCReceiver.

Lemma in_pulse_range_true (v : Z) :
  in_pulse_range v = true ->
  rc_min_pulse SAFETY_LIMITS <= v <= rc_max_pulse SAFETY_LIMITS.
Proof. unfold in_pulse_range. lia. Qed.

(** Whatever the [try] block returns is a pulse in range or the neutral
    pulse. *)
Lemma measure_acceptable (env : Env) (v : Z) :
  measure env = Ok v -> acceptable v.
Proof.
  unfold measure, acceptable.
  destruct (wait_high env _ 0) as [[|polls1]|e]; cbn [rbind]; intros H.
  - injection H as <-. right. reflexivity.
  - destruct (measure_high env _ polls1) as [polls2|e]; cbn [rbind] in H; [|discriminate].
    injection H as <-.
    destruct (in_pulse_range _) eqn:E.
    + left. apply in_pulse_range_true, E.
    + right. reflexivity.
  - discriminate.
Qed.

(** When the block gets as far as measuring, its answer is decided by the
    range test on the measured width. *)
Lemma measure_of_measured_pulse (env : Env) (pulse_width : Z) :
  measured_pulse env = Some pulse_width ->
  measure env =
    Ok (if in_pulse_range pulse_width then pulse_width
        else rc_neutral_pulse SAFETY_LIMITS).
Proof.
  unfold measured_pulse, measure.
  destruct (wait_high env _ 0) as [[|polls1]|e]; cbn [rbind]; try discriminate.
  destruct (measure_high env _ polls1) as [polls2|e]; cbn [rbind]; [|discriminate].
  intros H. injection H as <-. reflexivity.
Qed.

(** The rate-limited path: the constant neutral pulse, and nothing stored. *)
Lemma read_channel_throttled (self : t) (env : Env) :
  throttled self env = true ->
  read_channel self env = (self, rc_neutral_pulse SAFETY_LIMITS).
Proof. intros H. unfold read_channel. rewrite H. reflexivity. Qed.

End RCFacts.

Module RCClaims.
Import RCReceiver.

(** C3, evaluated on the code: a first call at 100 ms is a fresh read and
    returns the 1800 us it measured; a second call 20 ms later, inside the
    50 ms read interval, returns the constant neutral pulse 1500, not the
    1800 of the fresh read. The receiver keeps no field for a measured
    value: only [last_read_time] changed. *)
Theorem throttled_read_returns_neutral_not_last_value :
  let first := read_channel init (Examples.rc_1800 100) in
  let second := read_channel (fst first) (Examples.rc_1800 120) in
  snd first = 1800 /\
  fst first = {| rc_pin := true; last_read_time := 100 |} /\
  ticks_diff 120 (last_read_time (fst first)) = 20 /\
  snd second = rc_neutral_pulse SAFETY_LIMITS /\
  snd second = 1500 /\
  snd second <> snd first.
Proof. vm_compute. repeat split; discriminate. Qed.

(** C9: every value [read_channel] returns lies within
    [rc_min_pulse, rc_max_pulse] or is the neutral pulse; and on a fresh
    read that measures a pulse width outside that range, the value returned
    is the neutral pulse, 1500. *)
Theorem read_channel_in_range_or_neutral (self : t) (env : Env) :
  (rc_min_pulse SAFETY_LIMITS <= snd (read_channel self env) <= rc_max_pulse SAFETY_LIMITS \/
   snd (read_channel self env) = rc_neutral_pulse SAFETY_LIMITS) /\
  (forall pulse_width : Z,
      throttled self env = false ->
      measured_pulse env = Some pulse_width ->
      pulse_width < 800 \/ 2200 < pulse_width ->
      snd (read_channel self env) = 1500).
Proof.
  split.
  - unfold read_channel.
    destruct (throttled self env); [right; reflexivity|].
    destruct (measure env) as [v|e] eqn:E; [|right; reflexivity].
    exact (RCFacts.measure_acceptable env v E).
  - intros pulse_width Hfresh Hmeasured Hout.
    unfold read_channel. rewrite Hfresh.
    rewrite (RCFacts.measure_of_measured_pulse env pulse_width Hmeasured).
    assert (E : in_pulse_range pulse_width = false).
    { unfold in_pulse_range. cbn [rc_min_pulse rc_max_pulse SAFETY_LIMITS]. lia. }
    rewrite E. reflexivity.
Qed.

Lemma read_channel_in_range_or_neutral_witness :
  throttled init (Examples.rc_3000 100) = false /\
  measured_pulse (Examples.rc_3000 100) = Some 3000 /\
  snd (read_channel init (Examples.rc_3000 100)) = 1500.
Proof.
  assert (Hfresh : throttled init (Examples.rc_3000 100) = false)
    by (vm_compute; reflexivity).
  assert (Hpulse : measured_pulse (Examples.rc_3000 100) = Some 3000)
    by (vm_compute; reflexivity).
  split; [exact Hfresh|]. split; [exact Hpulse|].
  apply (proj2 (read_channel_in_range_or_neutral init (Examples.rc_3000 100))
           3000 Hfresh Hpulse).
  right. lia.
Defined.

End RCClaims.

(** ** The attitude source *)

Module SensorFacts.
Import SensorManager.

Section WithMath.

Variable math : MathLib.

Lemma finish_keeps_manager (self : t) (raw_data : Q * Q * Q * Q) :
  fst (finish math self raw_data) = self.
Proof.
  unfold finish. destruct raw_data as [[[ax ay] az] gz].
  destruct (calculate_attitude math ax ay az) as [[roll pitch]|e]; reflexivity.
Qed.

(** A sample that [finish] returns carries the manager's own flag. *)
Lemma finish_flag (self : t) (raw_data : Q * Q * Q * Q) (s : sample) :
  snd (finish math self raw_data) = Ok s -> is_valid s = using_real_sensor self.
Proof.
  unfold finish. destruct raw_data as [[[ax ay] az] gz].
  destruct (calculate_attitude math ax ay az) as [[roll pitch]|e]; simpl; intros H.
  - injection H as <-. reflexivity.
  - discriminate.
Qed.

(** The [except] clause turns every outcome of the body into a sample. *)
Lemma read_attitude_returns (self : t) (env : Env) :
  returns (snd (read_attitude math self env)).
Proof.
  unfold read_attitude, try_except.
  destruct (read_attitude_body math self env) as [self' [s|e]]; exact I.
Qed.

Lemma read_attitude_state (self : t) (env : Env) :
  fst (read_attitude math self env) = fst (read_attitude_body math self env).
Proof.
  unfold read_attitude, try_except.
  destruct (read_attitude_body math self env) as [self' [s|e]]; reflexivity.
Qed.

(** On the simulated source a call leaves the manager as it was. *)
Lemma simulated_unchanged (self : t) (env : Env) :
  on_simulated self -> fst (read_attitude math self env) = self.
Proof.
  unfold on_simulated. intros Hsim. rewrite read_attitude_state.
  unfold read_attitude_body, sensor_read_raw_data.
  destruct (sensor self) as [|sim]; [contradiction|].
  apply finish_keeps_manager.
Qed.

(** On the simulated source every sample is flagged invalid. *)
Lemma simulated_invalid (self : t) (env : Env) :
  on_simulated self -> reports_invalid (snd (read_attitude math self env)).
Proof.
  unfold on_simulated. intros Hsim.
  unfold read_attitude, try_except, read_attitude_body, sensor_read_raw_data.
  destruct (sensor self) as [|sim]; [contradiction|].
  destruct (finish math self _) as [self' [s|e]] eqn:E; simpl; [|reflexivity].
  rewrite <- Hsim.
  apply (finish_flag self (SimulatedSensor.read_raw_data math sim (now_read env)) s).
  rewrite E. reflexivity.
Qed.

(** A read of the real sensor that gives [None] moves the manager to a
    simulated sensor, and the sample of that very call is flagged invalid. *)
Lemma failed_read_switches (self : t) (env : Env) :
  sensor self = Real ->
  using_real_sensor self = true ->
  MPU6050.read_raw_data (mpu6050 self) (i2c_block env) = None ->
  on_simulated (fst (read_attitude math self env)) /\
  reports_invalid (snd (read_attitude math self env)).
Proof.
  intros Hreal Husing Hnone.
  unfold read_attitude, try_except, read_attitude_body, sensor_read_raw_data.
  rewrite Hreal, Hnone, Husing.
  match goal with
  | |- context [finish math ?m ?raw] =>
    pose proof (finish_keeps_manager m raw) as Hkeep;
    pose proof (finish_flag m raw) as Hflag;
    destruct (finish math m raw) as [self' [s|e]]
  end; simpl in Hkeep; subst self'; simpl.
  - split; [reflexivity | apply Hflag; reflexivity].
  - split; reflexivity.
Qed.

Lemma session_on_simulated (envs : list Env) (self : t) :
  on_simulated self ->
  run math self envs = self /\
  Forall reports_invalid (samples math self envs).
Proof.
  intros Hsim. induction envs as [|env envs IH]; simpl.
  - split; [reflexivity | constructor].
  - rewrite (simulated_unchanged self env Hsim).
    destruct IH as [IHrun IHsamples].
    split; [exact IHrun|].
    constructor; [apply simulated_invalid, Hsim | exact IHsamples].
Qed.

End WithMath.

End SensorFacts.

Module SensorClaims.
Import SensorManager.

(** C6: [read_attitude] never raises: every call returns a sample. A
    manager built after a failed availability probe is on the simulated
    source, and so is a manager whose read of the real sensor gave [None].
    Once on the simulated source, the manager stays on it for every later
    call of the session (it is not even modified), and every sample from
    then on reports valid = false. *)
Theorem read_attitude_never_raises_and_fallback_is_sticky
    (math : MathLib) (self : t) (env : Env) (envs : list Env) :
  returns (snd (read_attitude math self env)) /\
  (forall now : Z, on_simulated (init false now)) /\
  (sensor self = Real ->
   using_real_sensor self = true ->
   MPU6050.read_raw_data (mpu6050 self) (i2c_block env) = None ->
   on_simulated (fst (read_attitude math self env)) /\
   reports_invalid (snd (read_attitude math self env))) /\
  (on_simulated self ->
   on_simulated (run math self envs) /\
   sensor (run math self envs) = sensor self /\
   using_real_sensor (run math self envs) = false /\
   Forall reports_invalid (samples math self envs)).
Proof.
  split; [apply SensorFacts.read_attitude_returns|].
  split; [intros now; reflexivity|].
  split; [apply SensorFacts.failed_read_switches|].
  intros Hsim.
  destruct (SensorFacts.session_on_simulated math envs self Hsim) as [Hrun Hsamples].
  rewrite Hrun. repeat split; try assumption.
  unfold on_simulated in Hsim. destruct (sensor self); [contradiction | exact Hsim].
Qed.

Lemma read_attitude_never_raises_and_fallback_is_sticky_witness :
  let self := fst (read_attitude Examples.flat_math (init true 0) (Examples.sensor_env 10)) in
  on_simulated self /\
  Forall reports_invalid
    (samples Examples.flat_math self [Examples.sensor_env 30; Examples.sensor_env 50]).
Proof.
  assert (Hsim : on_simulated
            (fst (read_attitude Examples.flat_math (init true 0) (Examples.sensor_env 10))))
    by reflexivity.
  split; [exact Hsim|].
  apply (read_attitude_never_raises_and_fallback_is_sticky Examples.flat_math
           (fst (read_attitude Examples.flat_math (init true 0) (Examples.sensor_env 10)))
           (Examples.sensor_env 30)
           [Examples.sensor_env 30; Examples.sensor_env 50]).
  exact Hsim.
Defined.

End SensorClaims.

(** ** The release state machine *)

Module ReleaseFacts.
Import ReleaseSystem.

Section WithConfig.

Variable CONFIG : ReleaseConfig.

Lemma handler_of_releasing :
  state_handlers CONFIG !! "RELEASING" = Some (Takes1 _handle_releasing_state).
Proof.
  unfold state_handlers.
  rewrite lookup_insert_ne by discriminate.
  rewrite lookup_insert_ne by discriminate.
  apply lookup_insert_eq.
Qed.

Lemma handler_of_released :
  state_handlers CONFIG !! "RELEASED" = Some (Takes1 (_handle_released_state CONFIG)).
Proof.
  unfold state_handlers.
  rewrite lookup_insert_ne by discriminate.
  rewrite lookup_insert_ne by discriminate.
  rewrite lookup_insert_ne by discriminate.
  apply lookup_insert_eq.
Qed.

(** What the two one-argument handlers would do if they were entered. *)
Lemma releasing_body (self : t) (now : Z) :
  500 <= ticks_diff now (release_time self) ->
  state (_handle_releasing_state self now) = "RELEASED".
Proof.
  intros H. unfold _handle_releasing_state.
  destruct (500 <=? ticks_diff now (release_time self)) eqn:E; [reflexivity | lia].
Qed.

Lemma released_body (self : t) (now : Z) :
  is_Some (servo self) ->
  auto_lock_time CONFIG <= ticks_diff now (release_time self) ->
  state (_handle_released_state CONFIG self now) = "LOCKED" /\
  servo_at (_handle_released_state CONFIG self now) (locked_position CONFIG).
Proof.
  intros [pwm Hservo] H. unfold _handle_released_state.
  destruct (auto_lock_time CONFIG <=? ticks_diff now (release_time self)) eqn:E; [|lia].
  unfold lock, _set_servo_position, servo_at. rewrite Hservo. split; reflexivity.
Qed.

(** [update] passes two arguments to whatever handler it finds; in states
    RELEASING and RELEASED the handler accepts one, so the call raises
    before any transition, whatever the clock says. *)
Lemma update_raises (self : t) (env : Env) :
  is_Some (servo self) ->
  state self = "RELEASING" \/ state self = "RELEASED" ->
  snd (update CONFIG self env) = Raise TypeError /\
  state (fst (update CONFIG self env)) = state self /\
  servo (fst (update CONFIG self env)) = servo self.
Proof.
  intros [pwm Hservo] Hstate. unfold update. rewrite Hservo.
  destruct (RCReceiver.read_channel (rc_receiver self) (rc_env env)) as [rc' rc_signal].
  cbn [state set_rc_receiver].
  destruct Hstate as [H | H]; rewrite H.
  - rewrite handler_of_releasing. cbn. rewrite ?H, ?Hservo. repeat split; reflexivity.
  - rewrite handler_of_released. cbn. rewrite ?H, ?Hservo. repeat split; reflexivity.
Qed.

Lemma handler_of_armed :
  state_handlers CONFIG !! "ARMED" = Some (Takes2 (_handle_armed_state CONFIG)).
Proof.
  unfold state_handlers.
  rewrite lookup_insert_ne by discriminate.
  apply lookup_insert_eq.
Qed.

(** An armed system whose [update] falls inside the receiver's read
    interval is handed the neutral pulse and goes back to LOCKED, as long as
    the neutral pulse is below the arming threshold. *)
Lemma throttled_update_disarms (self : t) (env : Env) :
  is_Some (servo self) ->
  state self = "ARMED" ->
  RCReceiver.throttled (rc_receiver self) (rc_env env) = true ->
  rc_neutral_pulse SAFETY_LIMITS < rc_threshold CONFIG ->
  state (fst (update CONFIG self env)) = "LOCKED".
Proof.
  intros [pwm Hservo] Hstate Hthrottled Hneutral.
  unfold update. rewrite Hservo.
  rewrite (RCFacts.read_channel_throttled _ _ Hthrottled).
  cbn [state set_rc_receiver]. rewrite Hstate, handler_of_armed.
  cbn [call2]. unfold _handle_armed_state.
  destruct (rc_neutral_pulse SAFETY_LIMITS <? rc_threshold CONFIG) eqn:E; [|lia].
  reflexivity.
Qed.

End WithConfig.

End ReleaseFacts.

Module ReleaseClaims.
Import ReleaseSystem.

(** C1, evaluated on the code. A system driven into RELEASING by the radio
    (release stamped at 2200 ms) gets [update()] at 2800 ms, 600 ms later:
    the call raises [TypeError] and the state is still RELEASING. A system
    put into RELEASED by an emergency release at 100 ms gets [update()] at
    6000 ms, past the 5000 ms auto-lock time: the call raises [TypeError],
    the state is still RELEASED and the servo is still at the release
    angle. The bodies of the two handlers do hold the transitions the
    claim describes; [update] never gets into them. *)
Theorem update_raises_in_releasing_and_released :
  let releasing := Examples.releasing_system in
  let released := Examples.released_system in
  (is_Some (servo releasing) /\
   state releasing = "RELEASING" /\
   500 <= ticks_diff 2800 (release_time releasing) /\
   snd (update RELEASE_CONFIG releasing (Examples.release_env 2800)) = Raise TypeError /\
   state (fst (update RELEASE_CONFIG releasing (Examples.release_env 2800))) = "RELEASING" /\
   state (_handle_releasing_state releasing 2800) = "RELEASED") /\
  (is_Some (servo released) /\
   state released = "RELEASED" /\
   auto_lock_time RELEASE_CONFIG <= ticks_diff 6000 (release_time released) /\
   snd (update RELEASE_CONFIG released (Examples.release_env 6000)) = Raise TypeError /\
   state (fst (update RELEASE_CONFIG released (Examples.release_env 6000))) = "RELEASED" /\
   servo_at (fst (update RELEASE_CONFIG released (Examples.release_env 6000)))
            (release_position RELEASE_CONFIG) /\
   state (_handle_released_state RELEASE_CONFIG released 6000) = "LOCKED").
Proof.
  cbv zeta.
  assert (H1 : is_Some (servo Examples.releasing_system)) by (vm_compute; eauto).
  assert (H2 : state Examples.releasing_system = "RELEASING") by (vm_compute; reflexivity).
  assert (H3 : is_Some (servo Examples.released_system)) by (vm_compute; eauto).
  assert (H4 : state Examples.released_system = "RELEASED") by (vm_compute; reflexivity).
  assert (H5 : 500 <= ticks_diff 2800 (release_time Examples.releasing_system))
    by (vm_compute; discriminate).
  assert (H6 : auto_lock_time RELEASE_CONFIG
               <= ticks_diff 6000 (release_time Examples.released_system))
    by (vm_compute; discriminate).
  destruct (ReleaseFacts.update_raises RELEASE_CONFIG Examples.releasing_system
              (Examples.release_env 2800) H1 (or_introl H2)) as (R1 & R2 & _).
  destruct (ReleaseFacts.update_raises RELEASE_CONFIG Examples.released_system
              (Examples.release_env 6000) H3 (or_intror H4)) as (S1 & S2 & S3).
  split.
  - split; [exact H1|]. split; [exact H2|]. split; [exact H5|].
    split; [exact R1|]. split; [rewrite R2; exact H2|].
    apply ReleaseFacts.releasing_body, H5.
  - split; [exact H3|]. split; [exact H4|]. split; [exact H6|].
    split; [exact S1|]. split; [rewrite S2; exact H4|].
    split; [unfold servo_at; rewrite S3; vm_compute; reflexivity|].
    apply ReleaseFacts.released_body; assumption.
Qed.

(** C7 as stated fails: after [cleanup()] the system has no servo; with the
    override enabled and the state LOCKED, [emergency_release()] returns
    False and changes nothing. *)
Lemma emergency_release_refused_without_servo :
  emergency_override RELEASE_CONFIG = true /\
  state Examples.cleaned_system = "LOCKED" /\
  servo Examples.cleaned_system = None /\
  emergency_release RELEASE_CONFIG Examples.cleaned_system 100 =
    (Examples.cleaned_system, false) /\
  state (fst (emergency_release RELEASE_CONFIG Examples.cleaned_system 100)) <> "RELEASED".
Proof. vm_compute. repeat split; discriminate. Qed.

(** C7, amended: from every state (LOCKED, ARMED, RELEASING or RELEASED),
    if the emergency override is enabled by configuration and the release
    servo is initialised, [emergency_release()] leaves the state RELEASED
    with the servo at the release angle on that same call, whatever the
    armed time, stamps the release time, and returns True. *)
Theorem emergency_release_reaches_released
    (CONFIG : ReleaseConfig) (self : t) (now : Z) :
  state self ∈ ["LOCKED"; "ARMED"; "RELEASING"; "RELEASED"] ->
  emergency_override CONFIG = true ->
  is_Some (servo self) ->
  snd (emergency_release CONFIG self now) = true /\
  state (fst (emergency_release CONFIG self now)) = "RELEASED" /\
  servo_at (fst (emergency_release CONFIG self now)) (release_position CONFIG) /\
  release_time (fst (emergency_release CONFIG self now)) = now.
Proof.
  intros _ Hoverride [pwm Hservo].
  unfold emergency_release, servo_at, _set_servo_position.
  rewrite Hoverride, Hservo.
  rewrite bool_decide_eq_true_2 by eauto.
  repeat split; reflexivity.
Qed.

Lemma emergency_release_reaches_released_witness :
  state Examples.locked_system ∈ ["LOCKED"; "ARMED"; "RELEASING"; "RELEASED"] /\
  emergency_override RELEASE_CONFIG = true /\
  is_Some (servo Examples.locked_system) /\
  state (fst (emergency_release RELEASE_CONFIG Examples.locked_system 100)) = "RELEASED".
Proof.
  assert (H1 : state Examples.locked_system ∈ ["LOCKED"; "ARMED"; "RELEASING"; "RELEASED"])
    by (apply list_elem_of_here).
  assert (H2 : emergency_override RELEASE_CONFIG = true) by reflexivity.
  assert (H3 : is_Some (servo Examples.locked_system)) by (eexists; reflexivity).
  split; [exact H1|]. split; [exact H2|]. split; [exact H3|].
  apply (emergency_release_reaches_released RELEASE_CONFIG Examples.locked_system 100
           H1 H2 H3).
Defined.

End ReleaseClaims.

(** ** The control loop *)

Module LoopFacts.
Import PlanadorSystem.

Lemma set_neutral_all_neutral (s : ServoManager.t) :
  ServoManager.all_neutral (ServoManager.set_neutral s).
Proof.
  unfold ServoManager.all_neutral, ServoManager.set_neutral. cbn [ServoManager.servos].
  intros servo_name servo Hlookup.
  rewrite lookup_fmap in Hlookup.
  destruct (ServoManager.servos s !! servo_name); simpl in Hlookup; [|discriminate].
  injection Hlookup as <-. reflexivity.
Qed.

Lemma keeps_ret {A : Type} (a : A) : keeps_count (ret a).
Proof. intros self. reflexivity. Qed.

Lemma keeps_bind {A B : Type} (m : M A) (k : A -> M B) :
  keeps_count m -> (forall a, keeps_count (k a)) -> keeps_count (bind m k).
Proof.
  intros Hm Hk self. unfold bind.
  specialize (Hm self).
  destruct (m self) as [self' [a|e]]; simpl in Hm.
  - rewrite (Hk a self'). exact Hm.
  - exact Hm.
Qed.

Lemma keeps_modify (f : t -> t) :
  (forall self, loop_count (f self) = loop_count self) -> keeps_count (modify f).
Proof. intros Hf self. apply Hf. Qed.

Lemma keeps_lift {A : Type} (r : t -> result A) : keeps_count (lift r).
Proof. intros self. reflexivity. Qed.

Lemma keeps_when (b : bool) (m : M unit) : keeps_count m -> keeps_count (when b m).
Proof. intros Hm. destruct b; [exact Hm | apply keeps_ret]. Qed.

Lemma keeps_if {A : Type} (c : t -> bool) (m1 m2 : M A) :
  keeps_count m1 -> keeps_count m2 ->
  keeps_count (fun self => if c self then m1 self else m2 self).
Proof. intros H1 H2 self. destruct (c self); [apply H1 | apply H2]. Qed.

Create HintDb keeps.
#[local] Hint Resolve keeps_ret keeps_lift keeps_when : keeps.

Ltac keeps :=
  repeat first
    [ apply keeps_bind; [|intros ?]
    | apply keeps_modify; intros ?; reflexivity
    | apply keeps_if
    | solve [auto with keeps] ].

Section WithConfig.

Variable FLIGHT_MODES : gmap Z FlightMode.
Variable CONFIG : ReleaseConfig.
Variable math : MathLib.

Lemma keeps_check (env : Env) (s : stage) : keeps_count (check env s).
Proof. intros self. unfold check. destruct (fault env s); reflexivity. Qed.

Lemma keeps_mode_info : keeps_count (mode_info FLIGHT_MODES).
Proof. apply keeps_lift. Qed.

Lemma keeps_activate : keeps_count (_activate_system FLIGHT_MODES).
Proof. unfold _activate_system. pose proof keeps_mode_info. keeps. Qed.

Lemma keeps_deactivate : keeps_count _deactivate_system.
Proof. unfold _deactivate_system. keeps. Qed.

Lemma keeps_switch : keeps_count (_switch_flight_mode FLIGHT_MODES).
Proof.
  intros self. unfold _switch_flight_mode.
  destruct (Z.of_nat (size FLIGHT_MODES) =? 0); [reflexivity|].
  destruct (PIDController.set_flight_mode _ _ _) as [pid' changed].
  destruct changed; [|reflexivity].
  match goal with
  | |- loop_count (fst (?m ?s)) = _ =>
    assert (Hm : keeps_count m) by (pose proof keeps_mode_info; keeps);
    rewrite (Hm s)
  end.
  reflexivity.
Qed.

Lemma keeps_emergency (env : Env) : keeps_count (emergency_release CONFIG env).
Proof. unfold emergency_release. keeps. Qed.

Lemma keeps_controls (env : Env) : keeps_count (_handle_controls FLIGHT_MODES CONFIG env).
Proof.
  intros self. unfold _handle_controls.
  destruct (ButtonManager.read_buttons _ _) as [buttons' [mode_clicked power_clicked]].
  match goal with
  | |- loop_count (fst (?m ?s)) = _ =>
    assert (Hm : keeps_count m); [|rewrite (Hm s); reflexivity]
  end.
  pose proof keeps_activate. pose proof keeps_switch.
  pose proof keeps_deactivate. pose proof (keeps_emergency env).
  apply keeps_bind; [|intros ?]; apply keeps_when.
  - apply (keeps_if (fun s => negb (system_active s))); assumption.
  - apply (keeps_if system_active); assumption.
Qed.

Lemma keeps_update_leds (env : Env) : keeps_count (_update_leds env).
Proof.
  unfold _update_leds. apply keeps_bind; [keeps|intros _].
  intros self. destruct (LEDManager.set_mode_pattern _ _ _ _) as [leds' r]. reflexivity.
Qed.

Lemma keeps_telemetry (env : Env) (roll pitch yaw_rate : Q) (valid : bool) :
  keeps_count (_log_telemetry FLIGHT_MODES env roll pitch yaw_rate valid).
Proof.
  intros self. unfold _log_telemetry.
  destruct (_ <=? _); [|reflexivity].
  match goal with
  | |- loop_count (fst (?m ?s)) = _ =>
    assert (Hm : keeps_count m); [|rewrite (Hm s); reflexivity]
  end.
  pose proof keeps_mode_info.
  apply keeps_bind; [keeps|intros _].
  apply keeps_bind; [assumption|intros info].
  intros s. destruct (ReleaseSystem.get_rc_signal _ _) as [rel' rc_signal]. reflexivity.
Qed.

Lemma keeps_read_attitude (env : Env) : keeps_count (read_attitude math env).
Proof.
  intros self. unfold read_attitude.
  destruct (SensorManager.read_attitude _ _ _) as [sensors' r]. reflexivity.
Qed.

Lemma keeps_servo_commands (roll pitch yaw_rate : Q) :
  keeps_count (calculate_servo_commands FLIGHT_MODES roll pitch yaw_rate).
Proof.
  intros self. unfold calculate_servo_commands.
  destruct (PIDController.calculate_servo_commands _ _ _ _ _) as [pid' r]. reflexivity.
Qed.

Lemma keeps_release_update (env : Env) : keeps_count (release_update CONFIG env).
Proof.
  intros self. unfold release_update.
  destruct (ReleaseSystem.update _ _ _) as [rel' r]. reflexivity.
Qed.

Lemma keeps_tick_body (env : Env) :
  keeps_count (tick_body FLIGHT_MODES CONFIG math env).
Proof.
  unfold tick_body.
  apply keeps_bind; [apply keeps_check|intros _].
  apply keeps_bind; [apply keeps_read_attitude|intros [[[roll pitch] yaw_rate] valid]].
  apply keeps_bind; [apply keeps_check|intros _].
  apply keeps_bind; [apply keeps_controls|intros _].
  apply keeps_bind; [|intros _].
  { apply (keeps_if system_active).
    - apply keeps_bind; [apply keeps_check|intros _].
      apply keeps_bind; [apply keeps_servo_commands|intros commands].
      apply keeps_bind; [apply keeps_check|intros _]. keeps.
    - apply keeps_bind; [apply keeps_check|intros _]. keeps. }
  apply keeps_bind; [apply keeps_check|intros _].
  apply keeps_bind; [apply keeps_release_update|intros _].
  apply keeps_bind; [apply keeps_check|intros _].
  apply keeps_bind; [apply keeps_update_leds|intros _].
  apply (keeps_if (fun s => loop_count s mod 30 =? 0)); [|apply keeps_ret].
  apply keeps_bind; [apply keeps_check|intros _]. apply keeps_telemetry.
Qed.

(** What the [except] block leaves behind when its [set_neutral] goes
    through. *)
Lemma tick_handler_spec (env : Env) (e : exn) (self : t) :
  Tick.handler_ok env ->
  snd (tick_handler env e self) = Ok tt /\
  log (fst (tick_handler env e self)) = log self ++ [LogMainLoopError e] /\
  servos (fst (tick_handler env e self)) = ServoManager.set_neutral (servos self) /\
  ServoManager.all_neutral (servos (fst (tick_handler env e self))) /\
  loop_count (fst (tick_handler env e self)) = loop_count self.
Proof.
  intros Hok. unfold tick_handler, bind, modify, check. rewrite Hok. cbn.
  repeat split. apply set_neutral_all_neutral.
Qed.

(** What it leaves behind when its [set_neutral] fails: the error of the
    [try] block is logged, the servos are not written, and the new
    exception is raised. *)
Lemma tick_handler_fails (env : Env) (e e' : exn) (self : t) :
  fault env AtHandler = Some e' ->
  tick_handler env e self = (logger (LogMainLoopError e) self, Raise e').
Proof.
  intros Hfail. unfold tick_handler, bind, modify, check. rewrite Hfail. reflexivity.
Qed.

Lemma keeps_tick_handler (env : Env) (e : exn) : keeps_count (tick_handler env e).
Proof.
  unfold tick_handler.
  apply keeps_bind; [keeps|intros _].
  apply keeps_bind; [apply keeps_check|intros _]. keeps.
Qed.

Lemma main_loop_count (env : Env) (self : t) :
  loop_count (fst (_main_loop FLIGHT_MODES CONFIG math env self)) = loop_count self + 1.
Proof.
  unfold _main_loop, try_except.
  pose proof (keeps_tick_body env (set_loop_count (loop_count self + 1) self)) as Hcount.
  destruct (tick_body FLIGHT_MODES CONFIG math env _) as [self' [[]|e]];
    cbn [fst snd] in *.
  - exact Hcount.
  - rewrite (keeps_tick_handler env e self'). exact Hcount.
Qed.

Lemma main_loop_returns (env : Env) (self : t) :
  Tick.handler_ok env ->
  snd (_main_loop FLIGHT_MODES CONFIG math env self) = Ok tt.
Proof.
  intros Hok. unfold _main_loop, try_except.
  destruct (tick_body FLIGHT_MODES CONFIG math env _) as [self' [[]|e]];
    cbn [fst snd] in *.
  - reflexivity.
  - apply (tick_handler_spec env e self' Hok).
Qed.

(** A tick raises only out of its [except] block: the [try] block raised
    and the [set_neutral] of the handler failed. *)
Lemma main_loop_raises (env : Env) (self : t) (e' : exn) :
  snd (_main_loop FLIGHT_MODES CONFIG math env self) = Raise e' ->
  fault env AtHandler = Some e' /\
  exists e : exn,
    snd (tick_body FLIGHT_MODES CONFIG math env
           (set_loop_count (loop_count self + 1) self)) = Raise e.
Proof.
  unfold _main_loop, try_except.
  destruct (tick_body FLIGHT_MODES CONFIG math env _) as [self' [[]|e]];
    cbn [fst snd]; [discriminate|].
  intros Hraise.
  destruct (fault env AtHandler) as [e0|] eqn:Hfault.
  - rewrite (tick_handler_fails env e e0 self' Hfault) in Hraise.
    cbn [snd] in Hraise. injection Hraise as ->. split; [reflexivity | eauto].
  - destruct (tick_handler_spec env e self' Hfault) as (Hret & _).
    rewrite Hret in Hraise. discriminate.
Qed.

Lemma run_completes (envs : list Env) (self : t) :
  Forall Tick.handler_ok envs ->
  snd (run FLIGHT_MODES CONFIG math envs self) = Ok tt /\
  loop_count (fst (run FLIGHT_MODES CONFIG math envs self)) =
    loop_count self + Z.of_nat (length envs).
Proof.
  intros Hall. revert self.
  induction Hall as [|env envs Hok Hall IH]; intros self.
  - simpl. split; [reflexivity | lia].
  - cbn [run].
    pose proof (main_loop_returns env self Hok) as Hret.
    pose proof (main_loop_count env self) as Hcount.
    destruct (_main_loop FLIGHT_MODES CONFIG math env self) as [self' r].
    cbn [fst snd] in *. subst r.
    destruct (IH self') as [IHok IHcount].
    split; [exact IHok|].
    rewrite IHcount, Hcount. cbn [length]. lia.
Qed.

End WithConfig.

End LoopFacts.


(** * Further properties of the modelled code *)

From Stdlib Require Import Lqa.

(** ** pid_controller.py *)

Module PIDExtras.
Import PIDController.

Section WithFlightModes.

Variable FLIGHT_MODES : gmap Z FlightMode.

Lemma limit_output_within (output limit : Q) :
  (0 <= limit)%Q -> Safe.within limit (_limit_output output limit).
Proof.
  intros Hlimit. unfold Safe.within, _limit_output.
  apply PyFacts.clamp_bounds.
  apply Qle_trans with 0%Q; [|exact Hlimit].
  apply (Qopp_le_compat 0 limit) in Hlimit. exact Hlimit.
Qed.

(** X1: With non-negative limits in the active mode, each of the three outputs
    of [calculate] lies within plus or minus the limit of its axis. *)
Theorem calculate_output_within_limits
    (self : t) (roll pitch yaw_rate dt : Q) (mode : FlightMode)
    (limit0 limit1 limit2 out0 out1 out2 : Q) :
  FLIGHT_MODES !! flight_mode self = Some mode ->
  limits mode = (limit0, limit1, limit2) ->
  (0 <= limit0)%Q -> (0 <= limit1)%Q -> (0 <= limit2)%Q ->
  snd (calculate FLIGHT_MODES self roll pitch yaw_rate dt) = Ok (out0, out1, out2) ->
  Safe.within limit0 out0 /\ Safe.within limit1 out1 /\ Safe.within limit2 out2.
Proof.
  intros Hmode Hlimits H0 H1 H2 Hok.
  destruct (Qeq_dec dt 0) as [Hz|Hnz].
  - destruct (PIDFacts.calculate_zero_dt_raises FLIGHT_MODES self roll pitch yaw_rate
                dt mode Hmode Hz) as [Hraise _].
    rewrite Hraise in Hok. discriminate.
  - pose proof (PIDFacts.calculate_returns FLIGHT_MODES self roll pitch yaw_rate
                  dt mode Hmode Hnz) as Hcalc.
    destruct (errors_of mode roll pitch yaw_rate) as [[e0 e1] e2].
    destruct (integral self) as [[i0 i1] i2].
    destruct (prev_error self) as [[p0 p1] p2].
    rewrite Hlimits in Hcalc. cbv zeta in Hcalc.
    rewrite Hcalc in Hok. cbn [snd] in Hok.
    injection Hok as <- <- <-.
    repeat split; apply limit_output_within; assumption.
Qed.

(** X2: [calculate] returns exactly when the active mode is in the table and
    [dt] is not zero. A missing mode raises [KeyError] from [calculate] and
    from [calculate_servo_commands] and leaves the controller as it was. *)
Theorem calculate_returns_iff (self : t) (roll pitch yaw_rate dt : Q) :
  (returns (snd (calculate FLIGHT_MODES self roll pitch yaw_rate dt)) <->
   is_Some (FLIGHT_MODES !! flight_mode self) /\ ~ (dt == 0)%Q) /\
  (FLIGHT_MODES !! flight_mode self = None ->
   calculate FLIGHT_MODES self roll pitch yaw_rate dt = (self, Raise KeyError) /\
   calculate_servo_commands FLIGHT_MODES self roll pitch yaw_rate = (self, Raise KeyError)).
Proof.
  split.
  - destruct (FLIGHT_MODES !! flight_mode self) as [mode|] eqn:Hmode.
    + destruct (Qeq_dec dt 0) as [Hz|Hnz].
      * destruct (PIDFacts.calculate_zero_dt_raises FLIGHT_MODES self roll pitch
                    yaw_rate dt mode Hmode Hz) as [Hraise _].
        rewrite Hraise. simpl. split; [tauto | intros [_ H]; exact (H Hz)].
      * pose proof (PIDFacts.calculate_returns FLIGHT_MODES self roll pitch yaw_rate
                      dt mode Hmode Hnz) as Hcalc.
        destruct (errors_of mode roll pitch yaw_rate) as [[e0 e1] e2].
        destruct (integral self) as [[i0 i1] i2].
        destruct (prev_error self) as [[p0 p1] p2].
        destruct (limits mode) as [[limit0 limit1] limit2].
        cbv zeta in Hcalc. rewrite Hcalc. simpl. split; [eauto | tauto].
    + unfold calculate, get_flight_mode_info. rewrite Hmode. simpl.
      split; [tauto | intros [[mode H] _]; discriminate].
  - intros Hmode.
    assert (Hcalc : forall d, calculate FLIGHT_MODES self roll pitch yaw_rate d =
                              (self, Raise KeyError)).
    { intros d. unfold calculate, get_flight_mode_info. rewrite Hmode. reflexivity. }
    split; [apply Hcalc|].
    unfold calculate_servo_commands. rewrite Hcalc. reflexivity.
Qed.

Lemma set_flight_mode_cases (self : t) (mode_index : Z) :
  let after := fst (set_flight_mode FLIGHT_MODES self mode_index) in
  let accepted := snd (set_flight_mode FLIGHT_MODES self mode_index) in
  (accepted = true <-> 0 <= mode_index < Z.of_nat (size FLIGHT_MODES)) /\
  (accepted = false -> after = self) /\
  (accepted = true ->
   flight_mode after = mode_index /\
   (mode_index = flight_mode self -> after = self) /\
   (mode_index <> flight_mode self ->
    integral after = zero3 /\ prev_error after = zero3)).
Proof.
  unfold set_flight_mode.
  destruct (Z.leb_spec 0 mode_index) as [E1|E1];
    destruct (Z.ltb_spec mode_index (Z.of_nat (size FLIGHT_MODES))) as [E2|E2];
    cbn [andb fst snd].
  - destruct (Z.eqb_spec (flight_mode self) mode_index) as [E3|E3]; cbn [negb fst snd].
    + split; [split; [lia | reflexivity]|].
      split; [discriminate|]. intros _.
      split; [exact E3|]. split; [reflexivity | lia].
    + split; [split; [lia | reflexivity]|].
      split; [discriminate|]. intros _.
      split; [reflexivity|]. split; [intros H; congruence | split; reflexivity].
  - split; [split; [discriminate | lia]|]. split; [reflexivity | discriminate].
  - split; [split; [discriminate | lia]|]. split; [reflexivity | discriminate].
  - split; [split; [discriminate | lia]|]. split; [reflexivity | discriminate].
Qed.

(** X3: [set_flight_mode] accepts exactly the indices [0 <= i < len]. A refused
    call changes nothing; an accepted one makes the index active, and it
    zeroes the integrals and previous errors when the index differs from the
    active one and leaves the controller untouched when it is the same. *)
Theorem set_flight_mode_spec (self : t) (mode_index : Z) :
  let after := fst (set_flight_mode FLIGHT_MODES self mode_index) in
  let accepted := snd (set_flight_mode FLIGHT_MODES self mode_index) in
  (accepted = true <-> 0 <= mode_index < Z.of_nat (size FLIGHT_MODES)) /\
  (accepted = false -> after = self) /\
  (accepted = true ->
   flight_mode after = mode_index /\
   (mode_index = flight_mode self -> after = self) /\
   (mode_index <> flight_mode self ->
    integral after = zero3 /\ prev_error after = zero3)).
Proof. apply set_flight_mode_cases. Qed.

Lemma calculate_mode_valid (self : t) (roll pitch yaw_rate dt : Q) :
  Safe.mode_index_valid FLIGHT_MODES self ->
  Safe.mode_index_valid FLIGHT_MODES (fst (calculate FLIGHT_MODES self roll pitch yaw_rate dt)).
Proof.
  unfold Safe.mode_index_valid. rewrite PIDFacts.calculate_flight_mode. tauto.
Qed.

Lemma reachable_mode_valid (self : t) :
  reachable FLIGHT_MODES self -> Safe.mode_index_valid FLIGHT_MODES self.
Proof.
  induction 1 as [ | self roll pitch yaw_rate dt _ IH
                   | self roll pitch yaw_rate _ IH
                   | self _ IH | self _ IH
                   | self mode_index _ IH ].
  - left. reflexivity.
  - apply calculate_mode_valid, IH.
  - rewrite PIDFacts.calculate_servo_commands_state. apply calculate_mode_valid, IH.
  - exact IH.
  - exact IH.
  - destruct (set_flight_mode_cases self mode_index) as (Hacc & Hrefused & Haccepted).
    destruct (snd (set_flight_mode FLIGHT_MODES self mode_index)) eqn:E.
    + destruct (Haccepted eq_refl) as [Hmode _].
      right. unfold Safe.mode_index_valid in *. rewrite Hmode. apply Hacc. reflexivity.
    + rewrite (Hrefused eq_refl). exact IH.
Qed.

(** X4: On a table with keys [0 .. len - 1], a controller reached from
    [__init__] by any calls never meets a missing mode:
    [calculate_servo_commands] always returns four commands. *)
Theorem servo_commands_always_return
    (self : t) (roll pitch yaw_rate : Q) :
  Safe.table_well_formed FLIGHT_MODES ->
  reachable FLIGHT_MODES self ->
  exists commands : list Z,
    snd (calculate_servo_commands FLIGHT_MODES self roll pitch yaw_rate) = Ok commands /\
    length commands = 4%nat.
Proof.
  intros [Hzero Hkeys] Hreach.
  assert (Hmode : is_Some (FLIGHT_MODES !! flight_mode self)).
  { destruct (reachable_mode_valid self Hreach) as [H|H].
    - rewrite H. exact Hzero.
    - apply Hkeys, H. }
  destruct Hmode as [mode Hmode].
  assert (Hdt : ~ (default_dt == 0)%Q) by (vm_compute; discriminate).
  pose proof (PIDFacts.calculate_returns FLIGHT_MODES self roll pitch yaw_rate
                default_dt mode Hmode Hdt) as Hcalc.
  unfold calculate_servo_commands.
  destruct (errors_of mode roll pitch yaw_rate) as [[e0 e1] e2].
  destruct (integral self) as [[i0 i1] i2].
  destruct (prev_error self) as [[p0 p1] p2].
  destruct (limits mode) as [[limit0 limit1] limit2].
  cbv zeta in Hcalc. rewrite Hcalc.
  unfold get_flight_mode_info. cbn [flight_mode]. rewrite Hmode.
  eexists. split; reflexivity.
Qed.

End WithFlightModes.

Lemma calculate_output_within_limits_witness :
  Safe.within 25 (-25)%Q.
Proof.
  refine (proj1 (calculate_output_within_limits stabilization_table init 10 0 0 (1 # 10)
                   stabilization_mode 25 30 18 (-25)%Q _ _ eq_refl eq_refl _ _ _ _)).
  - vm_compute. discriminate.
  - vm_compute. discriminate.
  - vm_compute. discriminate.
  - vm_compute. reflexivity.
Defined.

Lemma servo_commands_always_return_witness :
  Safe.table_well_formed stabilization_table /\
  exists commands : list Z,
    snd (calculate_servo_commands stabilization_table
           (fst (calculate stabilization_table init 10 5 2 0)) 10 5 2) = Ok commands /\
    length commands = 4%nat.
Proof.
  assert (Hwf : Safe.table_well_formed stabilization_table).
  { split; [eexists; reflexivity|].
    intros i Hi.
    assert (Hsize : Z.of_nat (size stabilization_table) = 1) by (vm_compute; reflexivity).
    rewrite Hsize in Hi. assert (i = 0) as -> by lia.
    eexists. reflexivity. }
  split; [exact Hwf|].
  apply (servo_commands_always_return stabilization_table); [exact Hwf|].
  apply reach_calculate, reach_init.
Defined.

End PIDExtras.

(** ** hardware.py: the servos *)

Module ServoExtras.
Import ServoManager.

Lemma duty_bounds_values : Safe.min_duty = 52 /\ Safe.max_duty = 102 /\ neutral_duty = 77.
Proof. vm_compute. repeat split; reflexivity. Qed.

Lemma angle_to_duty_mono (a b : Z) : a <= b -> angle_to_duty a <= angle_to_duty b.
Proof.
  intros Hab. unfold angle_to_duty, Py.floordiv.
  cbn [servo_min_angle servo_max_angle pwm_min_duty pwm_max_duty SAFETY_LIMITS].
  apply Z.add_le_mono_l. apply Z.div_le_mono; lia.
Qed.

Lemma angle_to_duty_clamps (angle : Z) :
  angle_to_duty angle =
  angle_to_duty (Z.max (servo_min_angle SAFETY_LIMITS)
                       (Z.min (servo_max_angle SAFETY_LIMITS) angle)).
Proof.
  unfold angle_to_duty.
  cbn [servo_min_angle servo_max_angle pwm_min_duty pwm_max_duty SAFETY_LIMITS].
  do 2 f_equal. lia.
Qed.

Lemma angle_to_duty_in_range (angle : Z) :
  Safe.duty_in_range {| duty := angle_to_duty angle |}.
Proof.
  unfold Safe.duty_in_range, Safe.min_duty, Safe.max_duty. cbn [duty].
  rewrite (angle_to_duty_clamps angle).
  cbn [servo_min_angle servo_max_angle SAFETY_LIMITS].
  split; apply angle_to_duty_mono; lia.
Qed.

(** X5: [angle_to_duty] is monotone, and for every integer angle, in range or
    not, its duty lies between the duties of the two ends of the servo
    range, 52 and 102, hence within [pwm_min_duty, pwm_max_duty]; on angles
    inside the servo range it is the unclamped conversion that the release
    system uses. *)
Theorem angle_to_duty_bounded (angle other : Z) :
  (52 <= angle_to_duty angle <= 102) /\
  (pwm_min_duty SAFETY_LIMITS <= angle_to_duty angle <= pwm_max_duty SAFETY_LIMITS) /\
  (angle <= other -> angle_to_duty angle <= angle_to_duty other) /\
  (servo_min_angle SAFETY_LIMITS <= angle <= servo_max_angle SAFETY_LIMITS ->
   angle_to_duty angle = ReleaseSystem._angle_to_duty angle).
Proof.
  pose proof (angle_to_duty_in_range angle) as Hrange.
  destruct duty_bounds_values as (Hmin & Hmax & _).
  unfold Safe.duty_in_range in Hrange. rewrite Hmin, Hmax in Hrange. cbn [duty] in Hrange.
  split; [exact Hrange|].
  split; [cbn [pwm_min_duty pwm_max_duty SAFETY_LIMITS]; lia|].
  split; [apply angle_to_duty_mono|].
  cbn [servo_min_angle servo_max_angle SAFETY_LIMITS]. intros Hin.
  unfold angle_to_duty, ReleaseSystem._angle_to_duty.
  cbn [servo_min_angle servo_max_angle SAFETY_LIMITS].
  do 3 f_equal. lia.
Qed.

Lemma angle_to_duty_bounded_witness :
  angle_to_duty 400 <= angle_to_duty 1000 /\
  angle_to_duty 90 = ReleaseSystem._angle_to_duty 90.
Proof.
  destruct (angle_to_duty_bounded 400 1000) as (_ & _ & Hmono & _).
  destruct (angle_to_duty_bounded 90 90) as (_ & _ & _ & Hsame).
  split; [apply Hmono; lia | apply Hsame; vm_compute; split; discriminate].
Defined.

Lemma apply_loop_untouched (names : list string) (commands : list Z)
    (m : gmap string PWM) (servo_name : string) :
  (forall i : nat, names !! i = Some servo_name -> (length commands <= i)%nat) ->
  apply_loop names commands m !! servo_name = m !! servo_name.
Proof.
  revert commands m.
  induction names as [|first names IH]; intros commands m Hlate; [reflexivity|].
  destruct commands as [|cmd commands]; [reflexivity|].
  cbn [apply_loop].
  assert (Hne : first <> servo_name).
  { intros ->. specialize (Hlate 0%nat eq_refl). simpl in Hlate. lia. }
  rewrite IH.
  - apply lookup_alter_ne. exact Hne.
  - intros i Hi. specialize (Hlate (S i) Hi). simpl in Hlate. lia.
Qed.

Lemma apply_loop_written (names : list string) (commands : list Z)
    (m : gmap string PWM) (i : nat) (servo_name : string) (cmd : Z) :
  NoDup names ->
  names !! i = Some servo_name ->
  commands !! i = Some cmd ->
  is_Some (m !! servo_name) ->
  apply_loop names commands m !! servo_name = Some {| duty := angle_to_duty cmd |}.
Proof.
  revert commands m i.
  induction names as [|first names IH]; intros commands m i Hnodup Hname Hcmd Hsome;
    [discriminate|].
  destruct commands as [|c commands]; [destruct i; discriminate|].
  apply NoDup_cons in Hnodup as [Hfresh Hnodup].
  cbn [apply_loop].
  destruct i as [|i]; simpl in Hname, Hcmd.
  - injection Hname as ->. injection Hcmd as ->.
    rewrite apply_loop_untouched.
    + rewrite lookup_alter_eq. destruct Hsome as [pwm ->]. reflexivity.
    + intros j Hj. exfalso. apply Hfresh. apply list_elem_of_lookup. eauto.
  - apply (IH commands _ i Hnodup Hname Hcmd).
    rewrite lookup_alter_ne; [exact Hsome|].
    intros ->. apply Hfresh. apply list_elem_of_lookup. eauto.
Qed.

(** X6: What [apply_commands] writes: with distinct names, the servo named at
    position [i] takes the duty of the [i]-th command when both exist and
    the servo was initialised; a servo whose position has no command (a
    short or empty command list), and one that is not named, keep their
    duty; and no servo is added or removed. *)
Theorem apply_commands_writes
    (self : t) (commands : list Z) (servo_name : string) :
  NoDup (servo_names self) ->
  (forall (i : nat) (cmd : Z),
      servo_names self !! i = Some servo_name ->
      commands !! i = Some cmd ->
      is_Some (servos self !! servo_name) ->
      servos (apply_commands self commands) !! servo_name =
        Some {| duty := angle_to_duty cmd |}) /\
  ((forall i : nat, servo_names self !! i = Some servo_name -> (length commands <= i)%nat) ->
   servos (apply_commands self commands) !! servo_name = servos self !! servo_name) /\
  dom (servos (apply_commands self commands)) = dom (servos self).
Proof.
  intros Hnodup. unfold apply_commands. cbn [servos].
  split; [|split].
  - intros i cmd Hname Hcmd Hsome.
    exact (apply_loop_written _ _ _ i servo_name cmd Hnodup Hname Hcmd Hsome).
  - intros Hlate. apply apply_loop_untouched, Hlate.
  - clear Hnodup. generalize (servos self). generalize commands.
    induction (servo_names self) as [|first names IH]; intros cs m; [reflexivity|].
    destruct cs as [|c cs]; [reflexivity|].
    cbn [apply_loop]. rewrite IH. apply dom_alter_L.
Qed.

Lemma init_names_distinct : NoDup (servo_names init).
Proof. apply (bool_decide_unpack _). vm_compute. exact I. Qed.

Lemma apply_commands_writes_witness :
  servos (apply_commands init [40; 200]) !! "flaps_right" = Some {| duty := 102 |} /\
  servos (apply_commands init [40; 200]) !! "rudder" = Some {| duty := 77 |}.
Proof.
  pose proof init_names_distinct as Hnodup.
  destruct (apply_commands_writes init [40; 200] "flaps_right" Hnodup) as (Hset & _ & _).
  destruct (apply_commands_writes init [40; 200] "rudder" Hnodup) as (_ & Hkeep & _).
  split.
  - rewrite (Hset 1%nat 200 eq_refl eq_refl); [reflexivity | eexists; reflexivity].
  - rewrite Hkeep; [reflexivity|].
    intros i Hi. destruct i as [|[|i]]; [discriminate | discriminate | simpl; lia].
Defined.

Lemma apply_loop_in_range (names : list string) (commands : list Z) (m : gmap string PWM) :
  map_Forall (fun _ servo => Safe.duty_in_range servo) m ->
  map_Forall (fun _ servo => Safe.duty_in_range servo) (apply_loop names commands m).
Proof.
  revert commands m.
  induction names as [|first names IH]; intros commands m Hm; [exact Hm|].
  destruct commands as [|cmd commands]; [exact Hm|].
  cbn [apply_loop]. apply IH.
  intros k v Hk. rewrite lookup_alter in Hk.
  destruct (decide (first = k)) as [->|Hne].
  - destruct (m !! k); simpl in Hk; [|discriminate].
    injection Hk as <-. apply angle_to_duty_in_range.
  - exact (Hm k v Hk).
Qed.

Lemma set_neutral_in_range (self : t) : Safe.duties_in_range (set_neutral self).
Proof.
  unfold Safe.duties_in_range, set_neutral. cbn [servos].
  intros k v Hk. rewrite lookup_fmap in Hk.
  destruct (servos self !! k); simpl in Hk; [|discriminate].
  injection Hk as <-. apply angle_to_duty_in_range.
Qed.

Lemma apply_commands_in_range (self : t) (commands : list Z) :
  Safe.duties_in_range self -> Safe.duties_in_range (apply_commands self commands).
Proof. apply apply_loop_in_range. Qed.

Lemma init_in_range : Safe.duties_in_range init.
Proof.
  unfold Safe.duties_in_range, init. cbn [servos].
  repeat (apply map_Forall_insert_2; [apply angle_to_duty_in_range|]).
  apply map_Forall_empty.
Qed.

End ServoExtras.

Module ServoInvariant.
Import ServoManager.

(** X7: Whatever commands are applied, in range or not, every servo of a manager
    reached from [__init__] is driven with a duty between 52 and 102, and
    the four servos of [PLANADOR_SERVOS] are the ones it drives. *)
Theorem servo_duties_stay_in_range (self : t) :
  ServoReach.reachable self ->
  Safe.duties_in_range self /\
  (forall (servo_name : string) (servo : PWM),
      servos self !! servo_name = Some servo -> 52 <= duty servo <= 102) /\
  dom (servos self) = dom (servos init).
Proof.
  intros Hreach.
  assert (H : Safe.duties_in_range self /\ dom (servos self) = dom (servos init)).
  { induction Hreach as [|self commands _ [IHr IHd]|self _ [IHr IHd]].
    - split; [apply ServoExtras.init_in_range | reflexivity].
    - split; [apply ServoExtras.apply_commands_in_range, IHr|].
      rewrite <- IHd. unfold apply_commands. cbn [servos].
      generalize (servos self). generalize commands.
      induction (servo_names self) as [|first names IH]; intros cs m; [reflexivity|].
      destruct cs as [|c cs]; [reflexivity|].
      cbn [apply_loop]. rewrite IH. apply dom_alter_L.
    - split; [apply ServoExtras.set_neutral_in_range|].
      rewrite <- IHd. unfold set_neutral. cbn [servos]. apply dom_fmap_L. }
  destruct H as [Hrange Hdom].
  split; [exact Hrange|]. split; [|exact Hdom].
  intros servo_name servo Hlookup.
  specialize (Hrange servo_name servo Hlookup).
  unfold Safe.duty_in_range in Hrange.
  destruct ServoExtras.duty_bounds_values as (Hmin & Hmax & _).
  rewrite Hmin, Hmax in Hrange. exact Hrange.
Qed.

Lemma servo_duties_stay_in_range_witness :
  ServoReach.reachable (apply_commands init [1000; -5; 90]) /\
  Safe.duties_in_range (apply_commands init [1000; -5; 90]).
Proof.
  assert (H : ServoReach.reachable (apply_commands init [1000; -5; 90]))
    by (apply ServoReach.reach_apply, ServoReach.reach_init).
  split; [exact H|].
  exact (proj1 (servo_duties_stay_in_range _ H)).
Defined.

End ServoInvariant.

(** ** hardware.py: the LEDs *)

Module LEDExtras.
Import LEDManager.

Lemma write_present (led_name : string) (v : Z) (self : t) :
  is_Some (available_leds self !! led_name) ->
  dom (available_leds (write led_name v self)) = dom (available_leds self).
Proof.
  intros Hsome. unfold write. cbn [available_leds].
  apply dom_insert_lookup_L, Hsome.
Qed.

Lemma release_pattern_bit (state : string) (now : Z) :
  default 0 (release_patterns now !! state) = 0 \/
  default 0 (release_patterns now !! state) = 1.
Proof.
  assert (Hbit : forall n, n mod 2 = 0 \/ n mod 2 = 1).
  { intros n. pose proof (Z.mod_pos_bound n 2). lia. }
  unfold release_patterns.
  destruct (decide (state = "LOCKED")) as [->|H1].
  { rewrite lookup_insert_eq. right. reflexivity. }
  rewrite lookup_insert_ne by congruence.
  destruct (decide (state = "ARMED")) as [->|H2].
  { rewrite lookup_insert_eq. apply Hbit. }
  rewrite lookup_insert_ne by congruence.
  destruct (decide (state = "RELEASING")) as [->|H3].
  { rewrite lookup_insert_eq. left. reflexivity. }
  rewrite lookup_insert_ne by congruence.
  destruct (decide (state = "RELEASEED")) as [->|H4].
  { rewrite lookup_insert_eq. apply Hbit. }
  rewrite lookup_insert_ne by congruence.
  rewrite lookup_empty. left. reflexivity.
Qed.

(** X8: The release LED, when present, is always written 0 or 1 by
    [set_release_pattern]: 1 in state LOCKED, the fast blink bit in ARMED, 0
    in RELEASING, and 0 at every instant in RELEASED too, because the slow
    blink is filed under the key RELEASEED, which no state carries. No other
    LED changes, and a manager without the release LED is left as it is. *)
Theorem release_led_pattern (self : t) (state : string) (now : Z) :
  let after := set_release_pattern self state now in
  (available_leds self !! "release" = None -> after = self) /\
  (is_Some (available_leds self !! "release") ->
   (available_leds after !! "release" = Some 0 \/
    available_leds after !! "release" = Some 1) /\
   (state = "LOCKED" -> available_leds after !! "release" = Some 1) /\
   (state = "ARMED" ->
    available_leds after !! "release" =
      Some ((now / led_blink_fast SYSTEM_CONFIG) mod 2)) /\
   (state = "RELEASING" \/ state = "RELEASED" ->
    available_leds after !! "release" = Some 0)) /\
  (forall led_name : string,
      led_name <> "release" ->
      available_leds after !! led_name = available_leds self !! led_name) /\
  dom (available_leds after) = dom (available_leds self).
Proof.
  unfold set_release_pattern.
  destruct (available_leds self !! "release") as [v|] eqn:Hled.
  - split; [discriminate|].
    split; [|split].
    + intros _. unfold write. cbn [available_leds]. rewrite lookup_insert_eq.
      split; [destruct (release_pattern_bit state now) as [-> | ->]; auto|].
      split; [intros ->; reflexivity|].
      split; [intros ->; reflexivity|].
      intros [-> | ->]; reflexivity.
    + intros led_name Hne. unfold write. cbn [available_leds].
      apply lookup_insert_ne. congruence.
    + apply write_present. rewrite Hled. eauto.
  - split; [reflexivity|].
    split; [intros [v Hv]; discriminate|].
    split; reflexivity.
Qed.

Lemma release_led_pattern_witness :
  available_leds (set_release_pattern Examples.leds "RELEASED" 1500) !! "release" = Some 0.
Proof.
  destruct (release_led_pattern Examples.leds "RELEASED" 1500) as (_ & H & _).
  destruct H as (_ & _ & _ & Hoff); [eexists; reflexivity|].
  apply Hoff. right. reflexivity.
Defined.

End LEDExtras.

(** ** hardware.py: the buttons *)

Module ButtonExtras.
Import ButtonManager.

(** X9: A click is not reported twice in a row: the read that follows one
    reporting a click of a button reports no click of that button, whenever
    it comes and whatever the pins read. After a click of either button, a
    read within the debounce time reports no click at all and leaves the
    manager as it is. A manager without a power button never reports a
    power click. *)
Theorem click_not_repeated (self : t) (env1 env2 : Env) :
  let first := read_buttons self env1 in
  let second := read_buttons (fst first) env2 in
  (fst (snd first) = true -> fst (snd second) = false) /\
  (snd (snd first) = true -> snd (snd second) = false) /\
  (fst (snd first) = true \/ snd (snd first) = true ->
   ticks_diff (now_ms env2) (now_ms env1) < button_debounce SYSTEM_CONFIG ->
   second = (fst first, (false, false))) /\
  (has_power_button self = false ->
   snd (snd first) = false /\ snd (snd second) = false).
Proof.
  unfold read_buttons.
  destruct (ticks_diff (now_ms env1) (last_button_time self) <? button_debounce SYSTEM_CONFIG)
    eqn:D1; cbn [fst snd].
  - split; [discriminate|]. split; [discriminate|].
    split; [intros [H|H]; discriminate|].
    intros Hno.
    destruct (ticks_diff (now_ms env2) (last_button_time self) <? _);
      cbn [snd]; rewrite ?Hno; split; reflexivity.
  - cbn [last_button_time mode_button_last power_button_last has_power_button].
    split; [|split; [|split]].
    + intros Hclick. rewrite Hclick. cbn [orb].
      destruct (ticks_diff (now_ms env2) (now_ms env1) <? button_debounce SYSTEM_CONFIG);
        cbn [fst snd]; [reflexivity|].
      apply andb_true_iff in Hclick as [Hpressed _]. rewrite Hpressed.
      apply andb_false_r.
    + intros Hclick.
      destruct (has_power_button self) eqn:Hpower; [|discriminate].
      rewrite Hclick, orb_true_r.
      destruct (ticks_diff (now_ms env2) (now_ms env1) <? button_debounce SYSTEM_CONFIG);
        cbn [fst snd]; [reflexivity|].
      apply andb_true_iff in Hclick as [Hpressed _]. rewrite Hpressed.
      apply andb_false_r.
    + intros Hclick Hsoon.
      assert (Hany : negb (mode_pin env1) && negb (mode_button_last self) ||
                     (if has_power_button self
                      then negb (power_pin env1) && negb (power_button_last self)
                      else false) = true).
      { destruct Hclick as [H|H]; rewrite H; [reflexivity | apply orb_true_r]. }
      rewrite Hany.
      apply Z.ltb_lt in Hsoon. rewrite Hsoon. reflexivity.
    + intros Hno. rewrite Hno.
      destruct (ticks_diff (now_ms env2) _ <? _); cbn [snd]; split; reflexivity.
Qed.

Lemma click_not_repeated_witness :
  let self := {| has_power_button := true; mode_button_last := false;
                 power_button_last := false; last_button_time := 0 |} in
  let env1 := {| now_ms := 1000; mode_pin := false; power_pin := true |} in
  let env2 := {| now_ms := 1400; mode_pin := false; power_pin := true |} in
  fst (snd (read_buttons self env1)) = true /\
  fst (snd (read_buttons (fst (read_buttons self env1)) env2)) = false.
Proof.
  intros self env1 env2.
  assert (Hclick : fst (snd (read_buttons self env1)) = true) by (vm_compute; reflexivity).
  split; [exact Hclick|].
  exact (proj1 (click_not_repeated self env1 env2) Hclick).
Defined.

End ButtonExtras.

(** ** hardware.py: the radio receiver *)

Module RCExtras.
Import RCReceiver.

Lemma wait_high_stuck_low (env : Env) (budget start : nat) :
  (forall k : nat, (start <= k <= start + budget)%nat -> pin_value env k = Low) ->
  wait_high env budget start = Ok WaitTimeout.
Proof.
  revert start. induction budget as [|budget IH]; intros start Hlow; cbn [wait_high].
  - rewrite Hlow by lia. reflexivity.
  - rewrite Hlow by lia. apply IH. intros k Hk. apply Hlow. lia.
Qed.

Lemma wait_high_polls (env : Env) (budget start polls : nat) :
  wait_high env budget start = Ok (WaitDone polls) ->
  (start < polls <= start + budget + 1)%nat /\ pin_value env (pred polls) = High.
Proof.
  revert start. induction budget as [|budget IH]; intros start; cbn [wait_high];
    destruct (pin_value env start) eqn:E; try discriminate.
  - intros H. injection H as <-. simpl. split; [lia | exact E].
  - intros H. apply IH in H. split; [lia | tauto].
  - intros H. injection H as <-. simpl. split; [lia | exact E].
Qed.

Lemma measure_high_polls (env : Env) (budget start polls : nat) :
  measure_high env budget start = Ok polls ->
  (start < polls <= start + budget + 1)%nat.
Proof.
  revert start. induction budget as [|budget IH]; intros start; cbn [measure_high];
    destruct (pin_value env start) eqn:E; try discriminate.
  - intros H. injection H as <-. lia.
  - intros H. injection H as <-. lia.
  - intros H. injection H as <-. lia.
  - intros H. apply IH in H. lia.
Qed.

(** X10: A fresh read whose measured pulse width lies within
    [rc_min_pulse, rc_max_pulse] returns exactly that width and stamps the
    read time. *)
Theorem fresh_read_returns_measured_pulse (self : t) (env : Env) (pulse_width : Z) :
  throttled self env = false ->
  measured_pulse env = Some pulse_width ->
  rc_min_pulse SAFETY_LIMITS <= pulse_width <= rc_max_pulse SAFETY_LIMITS ->
  read_channel self env =
    ({| rc_pin := rc_pin self; last_read_time := ms_stamp env |}, pulse_width).
Proof.
  intros Hfresh Hmeasured Hin.
  unfold read_channel. rewrite Hfresh.
  rewrite (RCFacts.measure_of_measured_pulse env pulse_width Hmeasured).
  assert (E : in_pulse_range pulse_width = true) by (unfold in_pulse_range; lia).
  rewrite E. reflexivity.
Qed.

Lemma fresh_read_returns_measured_pulse_witness :
  read_channel init (Examples.rc_1800 100) =
    ({| rc_pin := true; last_read_time := 100 |}, 1800).
Proof.
  apply (fresh_read_returns_measured_pulse init (Examples.rc_1800 100) 1800).
  - vm_compute. reflexivity.
  - vm_compute. reflexivity.
  - vm_compute. split; discriminate.
Defined.

(** X11: The neutral fallbacks. A receiver without a pin returns the neutral
    pulse and is left as it is. On a fresh read, a pin that stays low for
    the whole wait (sensor_timeout + 2 polls) gives the neutral pulse, and
    so does a pin whose first poll fails; both stamp the read time. *)
Theorem read_channel_falls_back_to_neutral (self : t) (env : Env) :
  (rc_pin self = false ->
   read_channel self env = (self, rc_neutral_pulse SAFETY_LIMITS)) /\
  (throttled self env = false ->
   (forall k : nat, (k <= Z.to_nat (sensor_timeout SAFETY_LIMITS + 1))%nat ->
                    pin_value env k = Low) ->
   read_channel self env =
     ({| rc_pin := rc_pin self; last_read_time := ms_stamp env |},
      rc_neutral_pulse SAFETY_LIMITS)) /\
  (throttled self env = false ->
   pin_value env 0%nat = PinFault ->
   read_channel self env =
     ({| rc_pin := rc_pin self; last_read_time := ms_stamp env |},
      rc_neutral_pulse SAFETY_LIMITS)).
Proof.
  split; [|split].
  - intros Hpin. unfold read_channel, throttled. rewrite Hpin. reflexivity.
  - intros Hfresh Hlow. unfold read_channel. rewrite Hfresh.
    unfold measure. rewrite wait_high_stuck_low; [reflexivity|].
    intros k Hk. apply Hlow. lia.
  - intros Hfresh Hfault. unfold read_channel. rewrite Hfresh.
    unfold measure.
    assert (H : forall b, wait_high env b 0 = Raise OSError).
    { intros b. destruct b; cbn [wait_high]; rewrite Hfault; reflexivity. }
    rewrite H. reflexivity.
Qed.

Lemma read_channel_falls_back_to_neutral_witness :
  snd (read_channel init (pulse_env 100 100 (Z.to_nat 20000) 3 600)) = 1500.
Proof.
  destruct (read_channel_falls_back_to_neutral init
              (pulse_env 100 100 (Z.to_nat 20000) 3 600)) as (_ & Hlow & _).
  rewrite Hlow; [reflexivity | vm_compute; reflexivity |].
  intros k Hk. unfold pulse_env, square_pulse. cbn [pin_value].
  cbn [sensor_timeout SAFETY_LIMITS] in Hk.
  destruct (Nat.ltb_spec k (Z.to_nat 20000)); [reflexivity | lia].
Defined.

(** X12: The busy wait is bounded: when a read gets as far as measuring, it has
    polled the pin at least twice and at most
    (sensor_timeout + 2) + (rc_timeout + 2) = 13004 times, and the first
    loop ended on a poll that saw the pin high. *)
Theorem polling_is_bounded (env : Env) (polls1 polls2 : nat) :
  wait_high env (Z.to_nat (sensor_timeout SAFETY_LIMITS + 1)) 0 = Ok (WaitDone polls1) ->
  measure_high env (Z.to_nat (rc_timeout SAFETY_LIMITS + 1)) polls1 = Ok polls2 ->
  1 <= Z.of_nat polls1 <= sensor_timeout SAFETY_LIMITS + 2 /\
  Z.of_nat polls1 < Z.of_nat polls2 <= Z.of_nat polls1 + rc_timeout SAFETY_LIMITS + 2 /\
  2 <= Z.of_nat polls2 <= 13004 /\
  pin_value env (pred polls1) = High.
Proof.
  intros Hwait Hmeasure.
  apply wait_high_polls in Hwait as [Hp1 Hhigh].
  apply measure_high_polls in Hmeasure.
  cbn [sensor_timeout rc_timeout SAFETY_LIMITS] in *.
  repeat split; try lia. exact Hhigh.
Qed.

Lemma polling_is_bounded_witness : 2 <= Z.of_nat 6 <= 13004.
Proof.
  refine (proj1 (proj2 (proj2
    (polling_is_bounded (Examples.rc_1800 100) 3 6 _ _)))).
  - vm_compute. reflexivity.
  - vm_compute. reflexivity.
Defined.

End RCExtras.

(** ** sensors.py *)

Module SensorExtras.
Import SensorManager.

Lemma unpack_h_decodes (hi lo v : Z) :
  (SensorStatus.is_byte hi -> SensorStatus.is_byte lo ->
   -32768 <= MPU6050.unpack_h hi lo <= 32767 /\
   MPU6050.unpack_h hi lo mod 65536 = hi * 256 + lo /\
   (MPU6050.unpack_h hi lo < 0 <-> 128 <= hi)) /\
  (-32768 <= v <= 32767 ->
   SensorStatus.is_byte ((v mod 65536) / 256) /\
   SensorStatus.is_byte ((v mod 65536) mod 256) /\
   MPU6050.unpack_h ((v mod 65536) / 256) ((v mod 65536) mod 256) = v).
Proof.
  unfold SensorStatus.is_byte, MPU6050.unpack_h. split.
  - intros Hhi Hlo.
    destruct (Z.ltb_spec (hi * 256 + lo) 32768) as [E|E].
    + split; [lia|]. split; [apply Z.mod_small; lia | lia].
    + split; [lia|]. split; [|lia].
      replace (hi * 256 + lo - 65536) with (hi * 256 + lo + (-1) * 65536) by lia.
      rewrite Z.mod_add by lia. apply Z.mod_small. lia.
  - intros Hv.
    pose proof (Z.mod_pos_bound v 65536 ltac:(lia)) as Hu.
    pose proof (Z.div_mod (v mod 65536) 256 ltac:(lia)) as Hdm.
    pose proof (Z.mod_pos_bound (v mod 65536) 256 ltac:(lia)) as Hlo.
    assert (Hhi : 0 <= (v mod 65536) / 256 <= 255).
    { split; [apply Z.div_pos; lia|].
      apply Z.lt_succ_r. apply Z.div_lt_upper_bound; lia. }
    split; [exact Hhi|]. split; [lia|].
    replace ((v mod 65536) / 256 * 256 + (v mod 65536) mod 256) with (v mod 65536) by lia.
    destruct (Z.ltb_spec (v mod 65536) 32768) as [E|E].
    + destruct (Z.le_gt_cases 0 v) as [Hpos|Hneg].
      * rewrite Z.mod_small in * by lia. reflexivity.
      * exfalso.
        assert (Hm : v mod 65536 = v + 65536).
        { symmetry. apply (Z.mod_unique v 65536 (-1)); lia. }
        lia.
    + destruct (Z.le_gt_cases 0 v) as [Hpos|Hneg].
      * exfalso. rewrite Z.mod_small in E by lia. lia.
      * assert (Hm : v mod 65536 = v + 65536).
        { symmetry. apply (Z.mod_unique v 65536 (-1)); lia. }
        lia.
Qed.

(** X13: [unpack_h] decodes big-endian two's complement: two bytes give a value
    in [-32768, 32767] that is congruent to [hi * 256 + lo] modulo 65536 and
    negative exactly when the top bit of [hi] is set; and the two bytes that
    encode any such value decode back to it. *)
Theorem unpack_h_twos_complement (hi lo v : Z) :
  (SensorStatus.is_byte hi -> SensorStatus.is_byte lo ->
   -32768 <= MPU6050.unpack_h hi lo <= 32767 /\
   MPU6050.unpack_h hi lo mod 65536 = hi * 256 + lo /\
   (MPU6050.unpack_h hi lo < 0 <-> 128 <= hi)) /\
  (-32768 <= v <= 32767 ->
   SensorStatus.is_byte ((v mod 65536) / 256) /\
   SensorStatus.is_byte ((v mod 65536) mod 256) /\
   MPU6050.unpack_h ((v mod 65536) / 256) ((v mod 65536) mod 256) = v).
Proof. apply unpack_h_decodes. Qed.

Lemma unpack_h_twos_complement_witness :
  MPU6050.unpack_h 255 254 = -2 /\
  MPU6050.unpack_h ((-2 mod 65536) / 256) ((-2 mod 65536) mod 256) = -2.
Proof.
  destruct (unpack_h_twos_complement 255 254 (-2)) as [Hdecode Hround].
  split.
  - destruct Hdecode as (Hrange & Hmod & _);
      [unfold SensorStatus.is_byte; lia | unfold SensorStatus.is_byte; lia |].
    reflexivity.
  - apply Hround. lia.
Defined.

Lemma word_at_range (data : list Z) (i : nat) (w : Z) :
  Forall SensorStatus.is_byte data ->
  MPU6050.word_at data i = Some w -> -32768 <= w <= 32767.
Proof.
  intros Hbytes. unfold MPU6050.word_at.
  destruct (data !! i) as [hi|] eqn:Ehi; [|discriminate].
  destruct (data !! S i) as [lo|] eqn:Elo; [|discriminate].
  intros H. injection H as <-.
  rewrite Forall_lookup in Hbytes.
  destruct (unpack_h_decodes hi lo 0) as [Hdecode _].
  apply Hdecode; eauto.
Qed.

Lemma word_at_short (data : list Z) (i : nat) :
  (length data <= S i)%nat -> MPU6050.word_at data i = None.
Proof.
  intros Hshort. unfold MPU6050.word_at.
  rewrite (lookup_ge_None_2 data (S i)) by lia.
  destruct (data !! i); reflexivity.
Qed.

Lemma word_at_long (data : list Z) (i : nat) :
  (S i < length data)%nat -> is_Some (MPU6050.word_at data i).
Proof.
  intros Hlong. unfold MPU6050.word_at.
  destruct (lookup_lt_is_Some_2 data i ltac:(lia)) as [hi ->].
  destruct (lookup_lt_is_Some_2 data (S i) ltac:(lia)) as [lo ->].
  eauto.
Qed.

Lemma scaled_range (raw scale : Z) :
  0 < scale -> -32768 <= raw <= 32767 ->
  (inject_Z (-32768) / inject_Z scale <= inject_Z raw / inject_Z scale)%Q /\
  (inject_Z raw / inject_Z scale <= inject_Z 32767 / inject_Z scale)%Q.
Proof.
  intros Hscale Hraw.
  assert (Hpos : (0 < / inject_Z scale)%Q).
  { apply Qinv_lt_0_compat. change (inject_Z 0 < inject_Z scale)%Q.
    rewrite <- Zlt_Qlt. exact Hscale. }
  unfold Qdiv.
  split; apply Qmult_le_compat_r; try (apply Qlt_le_weak; exact Hpos);
    rewrite <- Zle_Qle; lia.
Qed.

(** X14: [MPU6050.read_raw_data] gives [None] when the sensor is not available,
    when the I2C read fails, and when the block has fewer than 14 bytes. On
    an available sensor a block of 14 bytes always gives a reading, with
    each acceleration within [-2, 32767/16384] g and the yaw rate within
    [-32768/131, 32767/131] degrees per second. *)
Theorem read_raw_data_cases (self : MPU6050.t) (i2c_block : result (list Z)) :
  (MPU6050.available self = false -> MPU6050.read_raw_data self i2c_block = None) /\
  (forall e : exn, i2c_block = Raise e -> MPU6050.read_raw_data self i2c_block = None) /\
  (forall data : list Z,
      i2c_block = Ok data -> (length data < 14)%nat ->
      MPU6050.read_raw_data self i2c_block = None) /\
  (forall data : list Z,
      MPU6050.available self = true ->
      i2c_block = Ok data -> length data = 14%nat ->
      Forall SensorStatus.is_byte data ->
      exists ax ay az gz : Q,
        MPU6050.read_raw_data self i2c_block = Some (ax, ay, az, gz) /\
        (-2 <= ax)%Q /\ (ax <= 32767 # 16384)%Q /\
        (-2 <= ay)%Q /\ (ay <= 32767 # 16384)%Q /\
        (-2 <= az)%Q /\ (az <= 32767 # 16384)%Q /\
        (- (32768 # 131) <= gz)%Q /\ (gz <= 32767 # 131)%Q).
Proof.
  split; [|split; [|split]].
  - intros Hoff. unfold MPU6050.read_raw_data. rewrite Hoff. reflexivity.
  - intros e ->. unfold MPU6050.read_raw_data.
    destruct (negb (MPU6050.available self)); reflexivity.
  - intros data -> Hshort. unfold MPU6050.read_raw_data.
    destruct (negb (MPU6050.available self)); [reflexivity|].
    rewrite (word_at_short data 12) by lia.
    destruct (MPU6050.word_at data 0), (MPU6050.word_at data 2), (MPU6050.word_at data 4);
      reflexivity.
  - intros data Hon -> Hlen Hbytes. unfold MPU6050.read_raw_data. rewrite Hon. cbn [negb].
    destruct (word_at_long data 0 ltac:(lia)) as [rx Hx].
    destruct (word_at_long data 2 ltac:(lia)) as [ry Hy].
    destruct (word_at_long data 4 ltac:(lia)) as [rz Hz].
    destruct (word_at_long data 12 ltac:(lia)) as [rg Hg].
    rewrite Hx, Hy, Hz, Hg.
    pose proof (word_at_range data 0 rx Hbytes Hx) as Bx.
    pose proof (word_at_range data 2 ry Hbytes Hy) as By.
    pose proof (word_at_range data 4 rz Hbytes Hz) as Bz.
    pose proof (word_at_range data 12 rg Hbytes Hg) as Bg.
    destruct (scaled_range rx 16384 ltac:(lia) Bx) as [Lx Ux].
    destruct (scaled_range ry 16384 ltac:(lia) By) as [Ly Uy].
    destruct (scaled_range rz 16384 ltac:(lia) Bz) as [Lz Uz].
    destruct (scaled_range rg 131 ltac:(lia) Bg) as [Lg Ug].
    do 4 eexists. split; [reflexivity|].
    repeat split.
    + eapply Qle_trans; [|exact Lx]. vm_compute. discriminate.
    + eapply Qle_trans; [exact Ux|]. vm_compute. discriminate.
    + eapply Qle_trans; [|exact Ly]. vm_compute. discriminate.
    + eapply Qle_trans; [exact Uy|]. vm_compute. discriminate.
    + eapply Qle_trans; [|exact Lz]. vm_compute. discriminate.
    + eapply Qle_trans; [exact Uz|]. vm_compute. discriminate.
    + eapply Qle_trans; [|exact Lg]. vm_compute. discriminate.
    + eapply Qle_trans; [exact Ug|]. vm_compute. discriminate.
Qed.

Lemma read_raw_data_cases_witness :
  MPU6050.read_raw_data {| MPU6050.available := true |} (Ok [0; 0; 0; 0; 64; 0]) = None /\
  exists ax ay az gz : Q,
    MPU6050.read_raw_data {| MPU6050.available := true |}
      (Ok [0; 0; 0; 0; 64; 0; 0; 0; 0; 0; 0; 0; 255; 125]) = Some (ax, ay, az, gz) /\
    (-2 <= az)%Q.
Proof.
  split.
  - destruct (read_raw_data_cases {| MPU6050.available := true |}
                (Ok [0; 0; 0; 0; 64; 0])) as (_ & _ & Hshort & _).
    apply (Hshort _ eq_refl). simpl. lia.
  - destruct (read_raw_data_cases {| MPU6050.available := true |}
                (Ok [0; 0; 0; 0; 64; 0; 0; 0; 0; 0; 0; 0; 255; 125])) as (_ & _ & _ & Hfull).
    destruct (Hfull _ eq_refl eq_refl eq_refl) as (ax & ay & az & gz & Hread & H).
    + repeat constructor; unfold SensorStatus.is_byte; lia.
    + exists ax, ay, az, gz. split; [exact Hread | tauto].
Defined.

(** X15: With [sin] and [cos] within [-1, 1], every reading of the simulated
    sensor is bounded: both horizontal accelerations within 0.1 g, the
    vertical one between 0.95 and 1.05 g, the yaw rate within 2 degrees per
    second, whatever the clock says. *)
Theorem simulated_reading_is_bounded
    (math : MathLib) (sim : SimulatedSensor.t) (now : Z) (ax ay az gz : Q) :
  SensorStatus.bounded_trig math ->
  SimulatedSensor.read_raw_data math sim now = (ax, ay, az, gz) ->
  (- (1 # 10) <= ax)%Q /\ (ax <= 1 # 10)%Q /\
  (- (1 # 10) <= ay)%Q /\ (ay <= 1 # 10)%Q /\
  (95 # 100 <= az)%Q /\ (az <= 105 # 100)%Q /\
  (- (2) <= gz)%Q /\ (gz <= 2)%Q.
Proof.
  intros Htrig. unfold SimulatedSensor.read_raw_data.
  intros H. injection H as <- <- <- <-.
  set (t := (inject_Z (ticks_diff now (SimulatedSensor.start_time sim)) / 5000)%Q).
  destruct (Htrig (t * (3 # 10))%Q) as (S3l & S3u & _ & _).
  destruct (Htrig (t * (2 # 10))%Q) as (_ & _ & C2l & C2u).
  destruct (Htrig (t * (1 # 10))%Q) as (S1l & S1u & _ & _).
  destruct (Htrig (t * (4 # 10))%Q) as (S4l & S4u & _ & _).
  repeat split; lra.
Qed.

Lemma flat_math_bounded : SensorStatus.bounded_trig Examples.flat_math.
Proof. intros x. cbn. repeat split; vm_compute; discriminate. Qed.

Lemma simulated_reading_is_bounded_witness :
  (95 # 100 <= 1 + 0 * (5 # 100))%Q.
Proof.
  refine (proj1 (proj2 (proj2 (proj2 (proj2
    (simulated_reading_is_bounded Examples.flat_math
       {| SimulatedSensor.start_time := 0 |} 7000 _ _ _ _ flat_math_bounded eq_refl)))))).
Defined.

Section WithMath.

Variable math : MathLib.

Lemma read_attitude_coherent (self : t) (env : Env) :
  SensorStatus.coherent self ->
  SensorStatus.coherent (fst (read_attitude math self env)).
Proof.
  intros Hco. rewrite SensorFacts.read_attitude_state.
  unfold read_attitude_body.
  destruct (sensor_read_raw_data math self env) as [raw|].
  - rewrite SensorFacts.finish_keeps_manager. exact Hco.
  - destruct (using_real_sensor self); [|exact Hco].
    rewrite SensorFacts.finish_keeps_manager. reflexivity.
Qed.

Lemma run_coherent (envs : list Env) (self : t) :
  SensorStatus.coherent self -> SensorStatus.coherent (run math self envs).
Proof.
  revert self. induction envs as [|env envs IH]; intros self Hco; [exact Hco|].
  cbn [run]. apply IH, read_attitude_coherent, Hco.
Qed.

(** X16: From construction on, through any session of reads, the flag and the
    sensor object of the manager agree, and the real sensor is in use only
    if it was found available. So the status never names the MPU6050 while
    reporting it unavailable, and it names it exactly when the real sensor
    is the one being read. *)
Theorem sensor_flags_stay_coherent (probe : bool) (now : Z) (envs : list Env) :
  let self := run math (init probe now) envs in
  let status := SensorStatus.get_sensor_status self in
  SensorStatus.coherent self /\
  (SensorStatus.using_real_sensor status = true ->
   SensorStatus.mpu6050_available status = true) /\
  (SensorStatus.sensor_type status = "MPU6050" <-> sensor self = Real) /\
  (SensorStatus.sensor_type status = "Simulado" <->
   exists sim, sensor self = Simulated sim).
Proof.
  intros self status.
  assert (Hco : SensorStatus.coherent self).
  { apply run_coherent. destruct probe; cbn; [split; reflexivity | reflexivity]. }
  split; [exact Hco|].
  subst status. unfold SensorStatus.get_sensor_status, SensorStatus.coherent in *.
  cbn [SensorStatus.using_real_sensor SensorStatus.mpu6050_available
       SensorStatus.sensor_type].
  destruct (sensor self) as [|sim].
  - destruct Hco as [-> ->].
    split; [reflexivity|]. split; [tauto|].
    split; [discriminate | intros [sim H]; discriminate].
  - rewrite Hco.
    split; [discriminate|]. split; [split; discriminate|].
    split; [eauto | reflexivity].
Qed.

(** X17: The validity flag is truthful on a coherent manager. A sample flagged
    valid was computed from data the real sensor delivered on this very
    call, and the manager stays on the real sensor; and whenever the real
    sensor delivers data and the attitude computation succeeds, the sample
    is that attitude with the measured yaw rate, flagged valid. *)
Theorem valid_flag_is_truthful (self : t) (env : Env) :
  SensorStatus.coherent self ->
  (forall s : sample,
      snd (read_attitude math self env) = Ok s ->
      is_valid s = true ->
      sensor self = Real /\
      fst (read_attitude math self env) = self /\
      exists ax ay az gz roll pitch : Q,
        MPU6050.read_raw_data (mpu6050 self) (i2c_block env) = Some (ax, ay, az, gz) /\
        calculate_attitude math ax ay az = Ok (roll, pitch) /\
        s = (roll, pitch, gz, true)) /\
  (forall ax ay az gz roll pitch : Q,
      sensor self = Real ->
      MPU6050.read_raw_data (mpu6050 self) (i2c_block env) = Some (ax, ay, az, gz) ->
      calculate_attitude math ax ay az = Ok (roll, pitch) ->
      read_attitude math self env = (self, Ok (roll, pitch, gz, true))).
Proof.
  intros Hco. unfold SensorStatus.coherent in Hco. split.
  - intros s Hok Hvalid.
    destruct (sensor self) as [|sim] eqn:Hsensor.
    + destruct Hco as [Husing Hon].
      split; [reflexivity|].
      revert Hok.
      unfold read_attitude, try_except, read_attitude_body, sensor_read_raw_data.
      rewrite Hsensor, Husing.
      destruct (MPU6050.read_raw_data (mpu6050 self) (i2c_block env))
        as [[[[ax ay] az] gz]|] eqn:Hraw.
      * unfold finish.
        destruct (calculate_attitude math ax ay az) as [[roll pitch]|e] eqn:Hatt;
          cbn [fst snd]; intros Hok; injection Hok as <-.
        -- split; [reflexivity|]. rewrite Husing.
           exists ax, ay, az, gz, roll, pitch.
           split; [reflexivity|]. split; [exact Hatt | reflexivity].
        -- discriminate.
      * intros Hok. exfalso.
        match type of Hok with
        | snd (match finish math ?m ?raw with _ => _ end) = _ =>
          pose proof (SensorFacts.finish_flag math m raw) as Hflag;
          destruct (finish math m raw) as [self' [s'|e]]
        end; cbn [snd] in Hok; injection Hok as Hs.
        -- subst s'. specialize (Hflag s eq_refl). cbn in Hflag. congruence.
        -- subst s. discriminate.
    + exfalso.
      pose proof (SensorFacts.simulated_invalid math self env) as Hinv.
      unfold on_simulated in Hinv. rewrite Hsensor in Hinv.
      specialize (Hinv Hco). rewrite Hok in Hinv. cbn in Hinv. congruence.
  - intros ax ay az gz roll pitch Hsensor Hraw Hatt.
    rewrite Hsensor in Hco. destruct Hco as [Husing _].
    unfold read_attitude, try_except, read_attitude_body, sensor_read_raw_data, finish.
    rewrite Hsensor, Hraw, Hatt, Husing. reflexivity.
Qed.

End WithMath.

Lemma valid_flag_is_truthful_witness :
  read_attitude Examples.flat_math (init true 0)
    {| i2c_block := Ok [0; 0; 0; 0; 64; 0; 0; 0; 0; 0; 0; 0; 255; 125];
       now_construct := 0; now_read := 0 |} =
  (init true 0, Ok (0 * RAD_TO_DEG, 0 * RAD_TO_DEG, inject_Z (-131) / 131, true)%Q).
Proof.
  refine (proj2 (valid_flag_is_truthful Examples.flat_math (init true 0)
                   {| i2c_block := Ok [0; 0; 0; 0; 64; 0; 0; 0; 0; 0; 0; 0; 255; 125];
                      now_construct := 0; now_read := 0 |} _)
            (inject_Z 0 / 16384)%Q (inject_Z 0 / 16384)%Q (inject_Z 16384 / 16384)%Q
            (inject_Z (-131) / 131)%Q (0 * RAD_TO_DEG)%Q (0 * RAD_TO_DEG)%Q
            eq_refl eq_refl eq_refl).
  split; reflexivity.
Defined.

End SensorExtras.

(** ** release_system.py *)

Module ReleaseExtras.
Import ReleaseSystem.

Section WithConfig.

Variable CONFIG : ReleaseConfig.

Lemma handler_of_locked :
  state_handlers CONFIG !! "LOCKED" = Some (Takes2 (_handle_locked_state CONFIG)).
Proof. unfold state_handlers. apply lookup_insert_eq. Qed.

Lemma handler_of_other (s : string) :
  s <> "LOCKED" -> s <> "ARMED" -> s <> "RELEASING" -> s <> "RELEASED" ->
  state_handlers CONFIG !! s = None.
Proof.
  intros H1 H2 H3 H4. unfold state_handlers.
  rewrite !lookup_insert_ne by congruence. apply lookup_empty.
Qed.

Lemma initiate_release_fields (self : t) (now : Z) (pwm : PWM) :
  servo self = Some pwm ->
  state (_initiate_release CONFIG self now) = "RELEASING" /\
  servo (_initiate_release CONFIG self now) =
    Some {| duty := _angle_to_duty (release_position CONFIG) |} /\
  release_time (_initiate_release CONFIG self now) = now.
Proof.
  intros Hservo. unfold _initiate_release, _set_servo_position. cbn.
  rewrite Hservo. repeat split; reflexivity.
Qed.

(** [update] seen through the handler it picks: the state, the servo and
    the two time stamps after the call are those the handler leaves, or
    those before the call when no handler runs. *)
Lemma update_fields (self : t) (env : Env) (pwm : PWM) :
  servo self = Some pwm ->
  let signal := ReleaseReach.rc_signal_of self env in
  let after := fst (update CONFIG self env) in
  let view (x : t) := (state x, servo x, armed_time x, release_time x) in
  (state self = "LOCKED" ->
   snd (update CONFIG self env) = Ok tt /\
   view after = view (_handle_locked_state CONFIG self (current_time env) signal)) /\
  (state self = "ARMED" ->
   snd (update CONFIG self env) = Ok tt /\
   view after = view (_handle_armed_state CONFIG self (current_time env) signal)) /\
  (state self <> "LOCKED" -> state self <> "ARMED" -> view after = view self).
Proof.
  intros Hservo signal after view. subst signal after.
  unfold ReleaseReach.rc_signal_of, update. rewrite Hservo.
  destruct (RCReceiver.read_channel (rc_receiver self) (rc_env env)) as [rc' rc_signal].
  cbn [snd state set_rc_receiver].
  split; [|split].
  - intros Hstate. rewrite Hstate, handler_of_locked. cbn [call2].
    split; [reflexivity|].
    unfold view, _handle_locked_state.
    destruct (rc_threshold CONFIG <? rc_signal); reflexivity.
  - intros Hstate. rewrite Hstate, ReleaseFacts.handler_of_armed. cbn [call2].
    split; [reflexivity|].
    unfold view, _handle_armed_state, _initiate_release, _set_servo_position.
    destruct (rc_signal <? rc_threshold CONFIG); [reflexivity|].
    destruct (safety_delay CONFIG <=? _); [|reflexivity].
    destruct (rc_threshold CONFIG <? rc_signal); [|reflexivity].
    cbn. rewrite Hservo. reflexivity.
  - intros Hl Ha.
    destruct (decide (state self = "RELEASING")) as [Hr|Hr].
    { rewrite Hr, ReleaseFacts.handler_of_releasing. reflexivity. }
    destruct (decide (state self = "RELEASED")) as [Hd|Hd].
    { rewrite Hd, ReleaseFacts.handler_of_released. reflexivity. }
    rewrite handler_of_other by assumption. reflexivity.
Qed.

Lemma update_cases (self : t) (env : Env) :
  let signal := ReleaseReach.rc_signal_of self env in
  let after := fst (update CONFIG self env) in
  (state after = state self /\ servo after = servo self) \/
  (state self = "LOCKED" /\ state after = "ARMED" /\ servo after = servo self /\
   rc_threshold CONFIG < signal /\ armed_time after = current_time env) \/
  (state self = "ARMED" /\ state after = "LOCKED" /\ servo after = servo self /\
   signal < rc_threshold CONFIG) \/
  (state self = "ARMED" /\ state after = "RELEASING" /\
   servo_at after (release_position CONFIG) /\
   rc_threshold CONFIG < signal /\
   safety_delay CONFIG <= ticks_diff (current_time env) (armed_time self) /\
   release_time after = current_time env).
Proof.
  intros signal after.
  destruct (servo self) as [pwm|] eqn:Hservo.
  - rewrite <- Hservo.
    destruct (update_fields self env pwm Hservo) as (Hlocked & Harmed & Hother).
    fold signal after in Hlocked, Harmed, Hother.
    destruct (decide (state self = "LOCKED")) as [Hl|Hl].
    { destruct (Hlocked Hl) as [_ Hview].
      unfold _handle_locked_state in Hview.
      destruct (Z.ltb_spec (rc_threshold CONFIG) signal) as [Hsig|Hsig];
        injection Hview as Hs Hv Ha Hr.
      - right. left. rewrite Hs, Hv, Ha. repeat split; auto.
      - left. rewrite Hs, Hv. split; reflexivity. }
    destruct (decide (state self = "ARMED")) as [Ha|Ha].
    { destruct (Harmed Ha) as [_ Hview].
      unfold _handle_armed_state in Hview.
      destruct (Z.ltb_spec signal (rc_threshold CONFIG)) as [Hlow|Hlow].
      - injection Hview as Hs Hv _ _.
        right. right. left. rewrite Hs, Hv. repeat split; auto.
      - destruct (Z.leb_spec (safety_delay CONFIG)
                    (ticks_diff (current_time env) (armed_time self))) as [Hdelay|Hdelay].
        + destruct (Z.ltb_spec (rc_threshold CONFIG) signal) as [Hsig|Hsig].
          * injection Hview as Hs Hv _ Hr.
            destruct (initiate_release_fields self (current_time env) pwm Hservo)
              as (Is & Iv & Ir).
            right. right. right.
            unfold servo_at. rewrite Hs, Hv, Hr. repeat split; assumption.
          * injection Hview as Hs Hv _ _. left. rewrite Hs, Hv. split; reflexivity.
        + injection Hview as Hs Hv _ _. left. rewrite Hs, Hv. split; reflexivity. }
    specialize (Hother Hl Ha). injection Hother as Hs Hv _ _.
    left. rewrite Hs, Hv. split; reflexivity.
  - left. subst after. unfold update. rewrite Hservo. split; [reflexivity | auto].
Qed.

(** X18: The edges of [update]. One call either leaves state and servo as they
    were, or arms a locked system on a pulse above the threshold, or disarms
    an armed one on a pulse below it, or releases an armed one: that last
    edge, the only one that moves the servo, is taken only on a pulse above
    the threshold with the safety delay elapsed since arming. *)
Theorem update_edges (self : t) (env : Env) :
  let signal := ReleaseReach.rc_signal_of self env in
  let after := fst (update CONFIG self env) in
  (state after = state self /\ servo after = servo self) \/
  (state self = "LOCKED" /\ state after = "ARMED" /\ servo after = servo self /\
   rc_threshold CONFIG < signal /\ armed_time after = current_time env) \/
  (state self = "ARMED" /\ state after = "LOCKED" /\ servo after = servo self /\
   signal < rc_threshold CONFIG) \/
  (state self = "ARMED" /\ state after = "RELEASING" /\
   servo_at after (release_position CONFIG) /\
   rc_threshold CONFIG < signal /\
   safety_delay CONFIG <= ticks_diff (current_time env) (armed_time self) /\
   release_time after = current_time env).
Proof. intros signal after. apply update_cases. Qed.

(** X19: The steps [update] does take, for a system with its servo. From LOCKED
    a pulse above the threshold arms and stamps the arming time, any other
    pulse changes nothing. From ARMED a pulse below the threshold disarms; a
    pulse above it releases once the safety delay has elapsed, moving the
    servo to the release position, and keeps the system armed before that;
    a pulse exactly at the threshold keeps it armed however long it lasts. *)
Theorem update_steps (self : t) (env : Env) :
  is_Some (servo self) ->
  let signal := ReleaseReach.rc_signal_of self env in
  let after := fst (update CONFIG self env) in
  let elapsed := ticks_diff (current_time env) (armed_time self) in
  (state self = "LOCKED" ->
   (rc_threshold CONFIG < signal ->
    state after = "ARMED" /\ armed_time after = current_time env) /\
   (signal <= rc_threshold CONFIG -> state after = "LOCKED")) /\
  (state self = "ARMED" ->
   (signal < rc_threshold CONFIG -> state after = "LOCKED") /\
   (signal = rc_threshold CONFIG -> state after = "ARMED" /\ servo after = servo self) /\
   (rc_threshold CONFIG < signal -> elapsed < safety_delay CONFIG ->
    state after = "ARMED" /\ servo after = servo self) /\
   (rc_threshold CONFIG < signal -> safety_delay CONFIG <= elapsed ->
    state after = "RELEASING" /\ servo_at after (release_position CONFIG) /\
    release_time after = current_time env)).
Proof.
  intros [pwm Hservo] signal after elapsed.
  destruct (update_fields self env pwm Hservo) as (Hlocked & Harmed & _).
  fold signal after in Hlocked, Harmed.
  split.
  - intros Hl. destruct (Hlocked Hl) as [_ Hview].
    unfold _handle_locked_state in Hview.
    destruct (Z.ltb_spec (rc_threshold CONFIG) signal) as [Hsig|Hsig];
      injection Hview as Hs Hv Ha Hr.
    + split; [auto | lia].
    + split; [lia|]. intros _. rewrite Hs. exact Hl.
  - intros Ha. destruct (Harmed Ha) as [_ Hview].
    unfold _handle_armed_state in Hview. fold elapsed in Hview.
    destruct (Z.ltb_spec signal (rc_threshold CONFIG)) as [Hlow|Hlow].
    + injection Hview as Hs Hv _ _.
      split; [auto|]. split; [lia|]. split; lia.
    + split; [lia|].
      destruct (Z.leb_spec (safety_delay CONFIG) elapsed) as [Hdelay|Hdelay].
      * destruct (Z.ltb_spec (rc_threshold CONFIG) signal) as [Hsig|Hsig].
        -- injection Hview as Hs Hv _ Hr.
           destruct (initiate_release_fields self (current_time env) pwm Hservo)
             as (Is & Iv & Ir).
           split; [lia|]. split; [lia|]. intros _ _.
           unfold servo_at. rewrite Hs, Hv, Hr. repeat split; assumption.
        -- injection Hview as Hs Hv _ _.
           split; [intros _; rewrite Hs, Hv; auto|]. split; lia.
      * injection Hview as Hs Hv _ _.
        split; [intros _; rewrite Hs, Hv; auto|].
        split; [intros _ _; rewrite Hs, Hv; auto | lia].
Qed.

(** X20: [cleanup] never touches the state. When it goes through (or
    finds no servo) the release system has no servo afterwards and is inert:
    [update], [lock], [force_lock], another [cleanup] and
    [emergency_release] all leave it as it is. When the [duty()] call of a
    system with its servo raises, [cleanup] changes nothing. When [deinit()]
    raises, the system keeps its servo, parked at the locked position
    whatever the state, and is not inert: with the override enabled
    [emergency_release] still returns True and releases. *)
Theorem cleaned_system_is_inert
    (self : t) (outcome : cleanup_outcome) (env : Env) (now : Z) :
  let cleaned := cleanup CONFIG self outcome in
  state cleaned = state self /\
  (outcome = CleanupDone \/ servo self = None ->
   servo cleaned = None /\
   update CONFIG cleaned env = (cleaned, Ok tt) /\
   lock CONFIG cleaned = cleaned /\
   force_lock CONFIG cleaned = cleaned /\
   (forall again : cleanup_outcome, cleanup CONFIG cleaned again = cleaned) /\
   emergency_release CONFIG cleaned now = (cleaned, false)) /\
  (outcome = DutyFails -> cleaned = self) /\
  (outcome = DeinitFails -> is_Some (servo self) ->
   servo_at cleaned (locked_position CONFIG) /\
   (emergency_override CONFIG = true ->
    snd (emergency_release CONFIG cleaned now) = true /\
    state (fst (emergency_release CONFIG cleaned now)) = "RELEASED" /\
    servo_at (fst (emergency_release CONFIG cleaned now)) (release_position CONFIG))).
Proof.
  intros cleaned.
  split; [subst cleaned; unfold cleanup, _set_servo_position;
          destruct (servo self), outcome; reflexivity|].
  split; [|split].
  - intros Hdone.
    assert (Hnone : servo cleaned = None).
    { subst cleaned. unfold cleanup.
      destruct (servo self) eqn:E; [|exact E].
      destruct Hdone as [-> | H]; [reflexivity | discriminate]. }
    split; [exact Hnone|].
    unfold update, lock, force_lock, lock, cleanup, emergency_release.
    rewrite Hnone. rewrite bool_decide_eq_false_2 by (intros [x Hx]; discriminate).
    rewrite orb_true_r. repeat split; reflexivity.
  - intros ->. subst cleaned. unfold cleanup. destruct (servo self); reflexivity.
  - intros -> [pwm Hservo].
    assert (Hat : servo_at cleaned (locked_position CONFIG)).
    { subst cleaned. unfold cleanup, servo_at, _set_servo_position.
      rewrite Hservo. reflexivity. }
    split; [exact Hat|].
    intros Hoverride. unfold servo_at in Hat.
    unfold emergency_release, servo_at, _set_servo_position.
    rewrite Hoverride, Hat.
    rewrite bool_decide_eq_true_2 by eauto.
    repeat split; reflexivity.
Qed.

Lemma lock_matches (self : t) :
  ReleaseReach.servo_matches_state CONFIG (lock CONFIG self).
Proof.
  unfold ReleaseReach.servo_matches_state, lock, _set_servo_position.
  destruct (servo self) as [pwm|] eqn:E; cbn; [|rewrite E; exact I].
  left. split; [left|]; reflexivity.
Qed.

Lemma update_matches (self : t) (env : Env) :
  ReleaseReach.servo_matches_state CONFIG self ->
  ReleaseReach.servo_matches_state CONFIG (fst (update CONFIG self env)).
Proof.
  intros Hm. unfold ReleaseReach.servo_matches_state in *.
  destruct (update_cases self env) as [[Hs Hv] | [(Hl & Hs & Hv & _) | [(Ha & Hs & Hv & _)
                                      | (Ha & Hs & Hv & _)]]].
  - rewrite Hs, Hv. exact Hm.
  - rewrite Hs, Hv. destruct (servo self) as [pwm|]; [|exact I].
    destruct Hm as [[_ Hd] | [[H | H] _]]; [|congruence|congruence].
    left. split; [right; reflexivity | exact Hd].
  - rewrite Hs, Hv. destruct (servo self) as [pwm|]; [|exact I].
    destruct Hm as [[_ Hd] | [[H | H] _]]; [|congruence|congruence].
    left. split; [left; reflexivity | exact Hd].
  - unfold servo_at in Hv. rewrite Hs, Hv.
    right. split; [left|]; reflexivity.
Qed.

Lemma update_known (self : t) (env : Env) :
  ReleaseReach.known_state self ->
  ReleaseReach.known_state (fst (update CONFIG self env)).
Proof.
  unfold ReleaseReach.known_state.
  destruct (update_cases self env) as [[Hs _] | [(_ & Hs & _) | [(_ & Hs & _)
                                      | (_ & Hs & _)]]];
    rewrite Hs; tauto.
Qed.

Lemma update_parked (self : t) (env : Env) :
  ReleaseReach.parked_while_released CONFIG self ->
  ReleaseReach.parked_while_released CONFIG (fst (update CONFIG self env)).
Proof.
  unfold ReleaseReach.parked_while_released.
  destruct (servo self) as [pwm|] eqn:Hservo; [|contradiction].
  intros [Hstate Hduty].
  destruct (ReleaseFacts.update_raises CONFIG self env) as (_ & Hs & Hv);
    [rewrite Hservo; eauto | exact Hstate |].
  rewrite Hs, Hv, Hservo. split; assumption.
Qed.

(** X21: In every state a release system can reach from [__init__], where
    [cleanup] may fail, the state is one of LOCKED, ARMED, RELEASING and
    RELEASED, and the servo, while the system has one, stands where the
    state says (at the locked position in LOCKED and ARMED, at the release
    position in RELEASING and RELEASED) or, in RELEASING and RELEASED, was
    parked at the locked position by a [cleanup] whose [deinit()] failed.
    So in LOCKED and ARMED the servo is always at the locked position. *)
Theorem servo_follows_state (self : t) :
  ReleaseReach.reachable CONFIG self ->
  ReleaseReach.known_state self /\
  (ReleaseReach.servo_matches_state CONFIG self \/
   ReleaseReach.parked_while_released CONFIG self) /\
  (forall pwm : PWM,
      servo self = Some pwm ->
      state self = "LOCKED" \/ state self = "ARMED" ->
      duty pwm = _angle_to_duty (locked_position CONFIG)).
Proof.
  intros Hreach.
  assert (Hinv : ReleaseReach.known_state self /\
                 (ReleaseReach.servo_matches_state CONFIG self \/
                  ReleaseReach.parked_while_released CONFIG self)).
  { induction Hreach as [rc leds self Hinit
                        | self env _ [IHk IHm] | self now _ [IHk IHm]
                        | self _ [IHk IHm] | self _ [IHk IHm]
                        | self env _ [IHk IHm] | self outcome _ [IHk IHm]].
    - cbn in Hinit. injection Hinit as <-.
      split; [left; reflexivity|]. left.
      unfold ReleaseReach.servo_matches_state. cbn.
      left. split; [left|]; reflexivity.
    - split; [apply update_known, IHk|].
      destruct IHm as [IHm | IHp]; [left; apply update_matches, IHm
                                   | right; apply update_parked, IHp].
    - unfold emergency_release.
      destruct (negb (emergency_override CONFIG) || negb (bool_decide (is_Some (servo self))))
        eqn:E; cbn [fst]; [split; assumption|].
      split; [right; right; right; reflexivity|]. left.
      unfold ReleaseReach.servo_matches_state, _set_servo_position.
      destruct (servo self) as [pwm|] eqn:Hservo; cbn; [|rewrite Hservo; exact I].
      right. split; [right|]; reflexivity.
    - split; [|left; apply lock_matches].
      unfold ReleaseReach.known_state, lock.
      destruct (servo self); [left; reflexivity | exact IHk].
    - split; [|left; apply lock_matches].
      unfold ReleaseReach.known_state, force_lock, lock.
      destruct (servo self); [left; reflexivity | exact IHk].
    - unfold get_rc_signal.
      destruct (RCReceiver.read_channel (rc_receiver self) env) as [rc' v].
      split; assumption.
    - unfold cleanup.
      destruct (servo self) as [pwm|] eqn:Hservo; [|split; assumption].
      destruct outcome.
      + split; [exact IHk|]. left. unfold ReleaseReach.servo_matches_state. cbn. exact I.
      + split; assumption.
      + unfold _set_servo_position. rewrite Hservo.
        split; [exact IHk|].
        unfold ReleaseReach.servo_matches_state, ReleaseReach.parked_while_released.
        cbn.
        destruct IHk as [H | [H | [H | H]]].
        * left. left. split; [left; exact H | reflexivity].
        * left. left. split; [right; exact H | reflexivity].
        * right. split; [left; exact H | reflexivity].
        * right. split; [right; exact H | reflexivity]. }
  destruct Hinv as [Hknown Hwhere].
  split; [exact Hknown|]. split; [exact Hwhere|].
  intros pwm Hservo Hstate.
  unfold ReleaseReach.servo_matches_state, ReleaseReach.parked_while_released in Hwhere.
  rewrite Hservo in Hwhere.
  destruct Hwhere as [[[_ Hd] | [[H | H] _]] | [[H | H] _]];
    [exact Hd | | | |]; destruct Hstate; congruence.
Qed.

End WithConfig.

Lemma update_steps_witness :
  state (fst (update RELEASE_CONFIG
                (fst (update RELEASE_CONFIG Examples.locked_system (Examples.release_env 100)))
                (Examples.release_env 2200))) = "RELEASING".
Proof.
  set (armed := fst (update RELEASE_CONFIG Examples.locked_system (Examples.release_env 100))).
  assert (Hservo : is_Some (servo armed)) by (vm_compute; eauto).
  assert (Hstate : state armed = "ARMED") by (vm_compute; reflexivity).
  destruct (update_steps RELEASE_CONFIG armed (Examples.release_env 2200) Hservo)
    as [_ Harmed].
  destruct (Harmed Hstate) as (_ & _ & _ & Hrelease).
  apply Hrelease; vm_compute; [reflexivity | discriminate].
Defined.

Lemma cleaned_system_is_inert_witness :
  let parked := cleanup RELEASE_CONFIG Examples.locked_system DeinitFails in
  servo_at parked (locked_position RELEASE_CONFIG) /\
  snd (emergency_release RELEASE_CONFIG parked 100) = true /\
  state (fst (emergency_release RELEASE_CONFIG parked 100)) = "RELEASED".
Proof.
  intros parked.
  destruct (cleaned_system_is_inert RELEASE_CONFIG Examples.locked_system DeinitFails
              (Examples.release_env 100) 100) as (_ & _ & _ & Hparked).
  destruct (Hparked eq_refl) as [Hat Hfires]; [vm_compute; eauto|].
  destruct (Hfires eq_refl) as (Hret & Hstate & _).
  split; [exact Hat|]. split; assumption.
Defined.

Lemma servo_follows_state_witness :
  let parked :=
    cleanup RELEASE_CONFIG Examples.released_system DeinitFails in
  ReleaseReach.reachable RELEASE_CONFIG parked /\
  state parked = "RELEASED" /\
  ReleaseReach.parked_while_released RELEASE_CONFIG parked.
Proof.
  intros parked.
  assert (H : ReleaseReach.reachable RELEASE_CONFIG parked).
  { apply ReleaseReach.reach_cleanup, ReleaseReach.reach_emergency.
    apply (ReleaseReach.reach_init RELEASE_CONFIG RCReceiver.init Examples.leds).
    reflexivity. }
  split; [exact H|]. split; [reflexivity|].
  destruct (proj1 (proj2 (servo_follows_state RELEASE_CONFIG _ H))) as [Hm | Hp];
    [|exact Hp].
  vm_compute in Hm. destruct Hm as [[[Hs | Hs] _] | [_ Hd]]; discriminate.
Defined.

End ReleaseExtras.

(** ** main_modular.py *)

Module TickExtras.
Import PlanadorSystem.
Local Open Scope planador_scope.

Lemma preserves_ret {A : Type} (I : t -> Prop) (a : A) : Tick.preserves I (ret a).
Proof. intros self H. exact H. Qed.

Lemma preserves_bind {A B : Type} (I : t -> Prop) (m : M A) (k : A -> M B) :
  Tick.preserves I m -> (forall a, Tick.preserves I (k a)) -> Tick.preserves I (bind m k).
Proof.
  intros Hm Hk self HI. unfold bind.
  specialize (Hm self HI).
  destruct (m self) as [self' [a|e]]; cbn [fst] in *; [apply Hk, Hm | exact Hm].
Qed.

Lemma preserves_modify (I : t -> Prop) (f : t -> t) :
  (forall self, I self -> I (f self)) -> Tick.preserves I (modify f).
Proof. intros Hf self HI. apply Hf, HI. Qed.

Lemma preserves_lift {A : Type} (I : t -> Prop) (r : t -> result A) :
  Tick.preserves I (lift r).
Proof. intros self HI. exact HI. Qed.

Lemma preserves_when (I : t -> Prop) (b : bool) (m : M unit) :
  Tick.preserves I m -> Tick.preserves I (when b m).
Proof. intros Hm. destruct b; [exact Hm | apply preserves_ret]. Qed.

Lemma preserves_if {A : Type} (I : t -> Prop) (c : t -> bool) (m1 m2 : M A) :
  Tick.preserves I m1 -> Tick.preserves I m2 ->
  Tick.preserves I (fun self => if c self then m1 self else m2 self).
Proof. intros H1 H2 self HI. destruct (c self); [apply H1 | apply H2]; exact HI. Qed.

Lemma preserves_check (I : t -> Prop) (env : Env) (s : stage) :
  Tick.preserves I (check env s).
Proof. intros self HI. unfold check. destruct (fault env s); exact HI. Qed.

Lemma spec_bind {A B : Type} (P : t -> Prop) (m : M A) (k : A -> M B)
    (R : A -> t -> Prop) (Qok : B -> t -> Prop) (Qerr : exn -> t -> Prop) :
  Tick.spec P m R Qerr ->
  (forall a, Tick.spec (R a) (k a) Qok Qerr) ->
  Tick.spec P (bind m k) Qok Qerr.
Proof.
  intros Hm Hk self HP. unfold bind.
  specialize (Hm self HP).
  destruct (m self) as [self' [a|e]]; [apply (Hk a self' Hm) | exact Hm].
Qed.

Lemma spec_of_preserves {A : Type} (I : t -> Prop) (m : M A) :
  Tick.preserves I m -> Tick.spec I m (fun _ => I) (fun _ => I).
Proof.
  intros Hm self HI. specialize (Hm self HI).
  destruct (m self) as [self' [a|e]]; exact Hm.
Qed.

Lemma spec_weaken {A : Type} (P P' : t -> Prop) (m : M A)
    (Qok Qok' : A -> t -> Prop) (Qerr Qerr' : exn -> t -> Prop) :
  Tick.spec P m Qok Qerr ->
  (forall self, P' self -> P self) ->
  (forall a self, Qok a self -> Qok' a self) ->
  (forall e self, Qerr e self -> Qerr' e self) ->
  Tick.spec P' m Qok' Qerr'.
Proof.
  intros Hm HP Hok Herr self HP'. specialize (Hm self (HP self HP')).
  destruct (m self) as [self' [a|e]]; [apply Hok | apply Herr]; exact Hm.
Qed.

Section WithConfig.

Variable FLIGHT_MODES : gmap Z FlightMode.
Variable CONFIG : ReleaseConfig.
Variable math : MathLib.

Section Stages.

Variable I : t -> Prop.

Lemma preserves_read_attitude (env : Env) :
  (forall v self, I self -> I (set_sensors v self)) ->
  Tick.preserves I (read_attitude math env).
Proof.
  intros Hs self HI. unfold read_attitude.
  destruct (SensorManager.read_attitude _ _ _) as [sensors' r]. apply Hs, HI.
Qed.

Lemma preserves_activate :
  (forall v self, I self -> I (set_system_active v self)) ->
  (forall entry self, I self -> I (logger entry self)) ->
  (forall v self, I self -> I (set_pid_controller v self)) ->
  (forall v self, I self -> I (set_leds v self)) ->
  Tick.preserves I (_activate_system FLIGHT_MODES).
Proof.
  intros Ha Hl Hp Hd. unfold _activate_system, mode_info.
  repeat first [ apply preserves_bind; [|intros ?]
               | apply preserves_lift
               | apply preserves_modify; intros ? ?; auto ].
Qed.

Lemma preserves_deactivate :
  (forall v self, I self -> I (set_system_active v self)) ->
  (forall entry self, I self -> I (logger entry self)) ->
  (forall self, I self -> I (set_servos (ServoManager.set_neutral (servos self)) self)) ->
  (forall v self, I self -> I (set_leds v self)) ->
  Tick.preserves I _deactivate_system.
Proof.
  intros Ha Hl Hn Hd. unfold _deactivate_system.
  repeat first [ apply preserves_bind; [|intros ?]
               | apply preserves_modify; intros ? ?; auto ].
Qed.

Lemma preserves_switch :
  (forall entry self, I self -> I (logger entry self)) ->
  (forall v self, I self -> I (set_pid_controller v self)) ->
  Tick.preserves I (_switch_flight_mode FLIGHT_MODES).
Proof.
  intros Hl Hp self HI. unfold _switch_flight_mode.
  destruct (Z.of_nat (size FLIGHT_MODES) =? 0); [exact HI|].
  destruct (PIDController.set_flight_mode _ _ _) as [pid' changed].
  destruct changed; [|apply Hp, HI].
  match goal with
  | |- I (fst (?m ?s)) => assert (Hm : Tick.preserves I m)
  end.
  { unfold mode_info. apply preserves_bind; [apply preserves_lift|intros info].
    apply preserves_modify. intros ? ?. auto. }
  apply Hm, Hp, HI.
Qed.

Lemma preserves_emergency (env : Env) :
  (forall now self,
      I self ->
      I (set_release_system
           (fst (ReleaseSystem.emergency_release CONFIG (release_system self) now)) self)) ->
  Tick.preserves I (emergency_release CONFIG env).
Proof. intros He. unfold emergency_release. apply preserves_modify. intros ? ?. auto. Qed.

Lemma preserves_controls (env : Env) :
  (forall v self, I self -> I (set_buttons v self)) ->
  Tick.preserves I (_activate_system FLIGHT_MODES) ->
  Tick.preserves I (_switch_flight_mode FLIGHT_MODES) ->
  Tick.preserves I _deactivate_system ->
  Tick.preserves I (emergency_release CONFIG env) ->
  Tick.preserves I (_handle_controls FLIGHT_MODES CONFIG env).
Proof.
  intros Hb Hact Hsw Hde Hem self HI. unfold _handle_controls.
  destruct (ButtonManager.read_buttons _ _) as [buttons' [mode_clicked power_clicked]].
  match goal with
  | |- I (fst (?m ?s)) => assert (Hm : Tick.preserves I m)
  end.
  { apply preserves_bind; [|intros ?]; apply preserves_when.
    - apply (preserves_if I (fun s => negb (system_active s))); assumption.
    - apply (preserves_if I system_active); assumption. }
  apply Hm, Hb, HI.
Qed.

Lemma preserves_servo_commands (roll pitch yaw_rate : Q) :
  (forall v self, I self -> I (set_pid_controller v self)) ->
  Tick.preserves I (calculate_servo_commands FLIGHT_MODES roll pitch yaw_rate).
Proof.
  intros Hp self HI. unfold calculate_servo_commands.
  destruct (PIDController.calculate_servo_commands _ _ _ _ _) as [pid' r]. apply Hp, HI.
Qed.

Lemma preserves_release_update (env : Env) :
  (forall e self,
      I self ->
      I (set_release_system
           (fst (ReleaseSystem.update CONFIG (release_system self) e)) self)) ->
  Tick.preserves I (release_update CONFIG env).
Proof.
  intros Hu self HI. unfold release_update.
  specialize (Hu (release_env env) self HI).
  destruct (ReleaseSystem.update _ _ _) as [rel' r]. exact Hu.
Qed.

Lemma preserves_update_leds (env : Env) :
  (forall v self, I self -> I (set_leds v self)) ->
  Tick.preserves I (_update_leds env).
Proof.
  intros Hd. unfold _update_leds.
  apply preserves_bind; [apply preserves_modify; intros ? ?; auto|intros _].
  intros self HI. destruct (LEDManager.set_mode_pattern _ _ _ _) as [leds' r].
  apply Hd, HI.
Qed.

Lemma preserves_telemetry (env : Env) (roll pitch yaw_rate : Q) (valid : bool) :
  (forall v self, I self -> I (set_last_telemetry_time v self)) ->
  (forall entry self, I self -> I (logger entry self)) ->
  (forall e self,
      I self ->
      I (set_release_system
           (fst (ReleaseSystem.get_rc_signal (release_system self) e)) self)) ->
  Tick.preserves I (_log_telemetry FLIGHT_MODES env roll pitch yaw_rate valid).
Proof.
  intros Ht Hl Hr self HI. unfold _log_telemetry.
  destruct (_ <=? _); [|exact HI].
  match goal with
  | |- I (fst (?m ?s)) => assert (Hm : Tick.preserves I m); [|apply Hm, HI]
  end.
  apply preserves_bind; [apply preserves_modify; intros ? ?; auto|intros _].
  apply preserves_bind; [apply preserves_lift|intros info].
  intros s Hs. specialize (Hr (telemetry_rc_env env) s Hs).
  destruct (ReleaseSystem.get_rc_signal _ _) as [rel' rc_signal].
  apply Hl. exact Hr.
Qed.

(** The part of the [try] block after the servo commands. *)
Lemma preserves_after_servos (env : Env) (roll pitch yaw_rate : Q) (valid : bool) :
  Tick.preserves I (release_update CONFIG env) ->
  Tick.preserves I (_update_leds env) ->
  Tick.preserves I (_log_telemetry FLIGHT_MODES env roll pitch yaw_rate valid) ->
  Tick.preserves I
    (check env AtRelease ;;;
     release_update CONFIG env ;;;
     check env AtLeds ;;;
     _update_leds env ;;;
     (fun self =>
        if loop_count self mod 30 =? 0 then
          (check env AtTelemetry ;;;
           _log_telemetry FLIGHT_MODES env roll pitch yaw_rate valid) self
        else (self, Ok tt))).
Proof.
  intros Hu Hd Ht.
  apply preserves_bind; [apply preserves_check|intros _].
  apply preserves_bind; [exact Hu|intros _].
  apply preserves_bind; [apply preserves_check|intros _].
  apply preserves_bind; [exact Hd|intros _].
  apply (preserves_if I (fun s => loop_count s mod 30 =? 0)); [|apply preserves_ret].
  apply preserves_bind; [apply preserves_check|intros _]. exact Ht.
Qed.

(** Whatever survives every single write of a tick survives the tick. *)
Lemma stable_main_loop (env : Env) :
  Tick.stable CONFIG I ->
  Tick.preserves I (_main_loop FLIGHT_MODES CONFIG math env).
Proof.
  intros [Ha Hc Ht Hl Hp Hd Hb Hs Hn Hy Hu He Hr] self HI.
  unfold _main_loop, try_except.
  assert (Hbody : Tick.preserves I (tick_body FLIGHT_MODES CONFIG math env)).
  { unfold tick_body.
    apply preserves_bind; [apply preserves_check|intros _].
    apply preserves_bind; [apply preserves_read_attitude, Hs
                          |intros [[[roll pitch] yaw_rate] valid]].
    apply preserves_bind; [apply preserves_check|intros _].
    apply preserves_bind; [|intros _].
    { apply preserves_controls; try assumption.
      - apply preserves_activate; assumption.
      - apply preserves_switch; assumption.
      - apply preserves_deactivate; assumption.
      - apply preserves_emergency; assumption. }
    apply preserves_bind; [|intros _].
    { apply (preserves_if I system_active).
      - apply preserves_bind; [apply preserves_check|intros _].
        apply preserves_bind; [apply preserves_servo_commands, Hp|intros commands].
        apply preserves_bind; [apply preserves_check|intros _].
        apply preserves_modify. intros ? ?. auto.
      - apply preserves_bind; [apply preserves_check|intros _].
        apply preserves_modify. intros ? ?. auto. }
    apply preserves_after_servos.
    - apply preserves_release_update, Hu.
    - apply preserves_update_leds, Hd.
    - apply preserves_telemetry; assumption. }
  specialize (Hbody (set_loop_count (loop_count self + 1) self) (Hc _ _ HI)).
  destruct (tick_body FLIGHT_MODES CONFIG math env _) as [self' [[]|e]]; cbn [fst] in *.
  - exact Hbody.
  - unfold tick_handler, bind, modify, check.
    destruct (fault env AtHandler); cbn [fst]; [apply Hl, Hbody | apply Hn, Hl, Hbody].
Qed.

End Stages.

End WithConfig.

End TickExtras.


Module TickTheorems.
Import PlanadorSystem.
Local Open Scope planador_scope.

Lemma spec_any {A : Type} (m : M A) :
  Tick.spec (fun _ => True) m (fun _ _ => True) (fun _ _ => True).
Proof. intros self _. destruct (m self) as [self' [a|e]]; exact I. Qed.

Lemma spec_preserved {A : Type} (I : t -> Prop) (m : M A) (Qerr : exn -> t -> Prop) :
  Tick.preserves I m ->
  (forall e self, I self -> Qerr e self) ->
  Tick.spec I m (fun _ => I) Qerr.
Proof.
  intros Hm Herr self HI. specialize (Hm self HI).
  destruct (m self) as [self' [a|e]]; [exact Hm | apply Herr, Hm].
Qed.

Section WithConfig.

Variable FLIGHT_MODES : gmap Z FlightMode.
Variable CONFIG : ReleaseConfig.
Variable math : MathLib.

Lemma run_preserves (I : t -> Prop) (envs : list Env) (self : t) :
  Tick.stable CONFIG I -> I self -> I (fst (run FLIGHT_MODES CONFIG math envs self)).
Proof.
  intros Hst. revert self. induction envs as [|env envs IH]; intros self HI; [exact HI|].
  cbn [run].
  pose proof (TickExtras.stable_main_loop FLIGHT_MODES CONFIG math I env Hst self HI) as Hstep.
  destruct (_main_loop FLIGHT_MODES CONFIG math env self) as [self' [[]|e]]; cbn [fst] in *.
  - apply IH, Hstep.
  - exact Hstep.
Qed.

(** *** Servo duties across ticks *)

Lemma dom_set_neutral (s : ServoManager.t) :
  dom (ServoManager.servos (ServoManager.set_neutral s)) = dom (ServoManager.servos s).
Proof. cbn. apply dom_fmap_L. Qed.

Lemma dom_apply_commands (s : ServoManager.t) (commands : list Z) :
  dom (ServoManager.servos (ServoManager.apply_commands s commands)) =
  dom (ServoManager.servos s).
Proof.
  cbn. generalize (ServoManager.servos s). generalize commands.
  induction (ServoManager.servo_names s) as [|first names IH]; intros cs m; [reflexivity|].
  destruct cs as [|c cs]; [reflexivity|].
  cbn [ServoManager.apply_loop]. rewrite IH. apply dom_alter_L.
Qed.

Lemma same_servos_stable (D : gset string) : Tick.stable CONFIG (Tick.same_servos D).
Proof.
  split; try (intros ? self H; exact H).
  - intros self H. unfold Tick.same_servos. cbn [servos set_servos].
    rewrite dom_set_neutral. exact H.
  - intros commands self H. unfold Tick.same_servos. cbn [servos set_servos].
    rewrite dom_apply_commands. exact H.
Qed.

Lemma main_loop_same_servos (env : Env) (self : t) :
  dom (ServoManager.servos (servos (fst (_main_loop FLIGHT_MODES CONFIG math env self)))) =
  dom (ServoManager.servos (servos self)).
Proof.
  apply (TickExtras.stable_main_loop FLIGHT_MODES CONFIG math
           (Tick.same_servos (dom (ServoManager.servos (servos self)))) env
           (same_servos_stable _) self eq_refl).
Qed.

Lemma servos_safe_stable (D : gset string) : Tick.stable CONFIG (Tick.servos_safe D).
Proof.
  split; try (intros ? self H; exact H).
  - intros self [Hr Hd]. split; [apply ServoExtras.set_neutral_in_range|].
    cbn. rewrite dom_fmap_L. exact Hd.
  - intros commands self [Hr Hd]. split; [apply ServoExtras.apply_commands_in_range, Hr|].
    cbn. rewrite <- Hd.
    generalize (ServoManager.servos (servos self)). generalize commands.
    induction (ServoManager.servo_names (servos self)) as [|first names IH]; intros cs m;
      [reflexivity|].
    destruct cs as [|c cs]; [reflexivity|].
    cbn [ServoManager.apply_loop]. rewrite IH. apply dom_alter_L.
Qed.

(** *** Ticks after the release *)

Lemma released_stable : Tick.stable CONFIG Tick.released_with_servo.
Proof.
  split; try (intros ? self H; exact H).
  - intros self H. exact H.
  - intros env self [Hservo Hstate]. unfold Tick.released_with_servo. cbn.
    destruct (ReleaseFacts.update_raises CONFIG (release_system self) env Hservo Hstate)
      as (_ & Hs & Hv).
    rewrite Hs, Hv. split; assumption.
  - intros now self [Hservo Hstate]. unfold Tick.released_with_servo. cbn.
    unfold ReleaseSystem.emergency_release.
    destruct (negb (emergency_override CONFIG) || _); cbn; [split; assumption|].
    unfold ReleaseSystem._set_servo_position.
    destruct Hservo as [pwm Hpwm]. rewrite Hpwm. cbn. split; [eauto | right; reflexivity].
  - intros env self [Hservo Hstate]. unfold Tick.released_with_servo. cbn.
    unfold ReleaseSystem.get_rc_signal.
    destruct (RCReceiver.read_channel _ _) as [rc' v]. cbn. split; assumption.
Qed.

Lemma released_body_raises (env : Env) :
  Tick.spec Tick.released_with_servo (tick_body FLIGHT_MODES CONFIG math env)
    (fun _ _ => False) (fun _ _ => True).
Proof.
  destruct released_stable as [Ha Hc Ht Hl Hp Hd Hb Hs Hn Hy Hu He Hr].
  assert (Hall : forall (e : exn) (self : t), Tick.released_with_servo self -> True) by auto.
  unfold tick_body.
  apply (TickExtras.spec_bind _ _ _ (fun _ => Tick.released_with_servo));
    [apply spec_preserved; [apply TickExtras.preserves_check | exact Hall]|intros _].
  apply (TickExtras.spec_bind _ _ _ (fun _ => Tick.released_with_servo));
    [apply spec_preserved; [apply TickExtras.preserves_read_attitude, Hs | exact Hall]
    |intros [[[roll pitch] yaw_rate] valid]].
  apply (TickExtras.spec_bind _ _ _ (fun _ => Tick.released_with_servo));
    [apply spec_preserved; [apply TickExtras.preserves_check | exact Hall]|intros _].
  apply (TickExtras.spec_bind _ _ _ (fun _ => Tick.released_with_servo)); [|intros _].
  { apply spec_preserved; [|exact Hall].
    apply (TickExtras.preserves_controls FLIGHT_MODES CONFIG Tick.released_with_servo env Hb).
    - apply TickExtras.preserves_activate; assumption.
    - apply TickExtras.preserves_switch; assumption.
    - apply TickExtras.preserves_deactivate; assumption.
    - apply TickExtras.preserves_emergency; assumption. }
  apply (TickExtras.spec_bind _ _ _ (fun _ => Tick.released_with_servo)); [|intros _].
  { apply spec_preserved; [|exact Hall].
    apply (TickExtras.preserves_if _ system_active).
    - apply TickExtras.preserves_bind; [apply TickExtras.preserves_check|intros _].
      apply TickExtras.preserves_bind;
        [apply TickExtras.preserves_servo_commands, Hp|intros commands].
      apply TickExtras.preserves_bind; [apply TickExtras.preserves_check|intros _].
      apply TickExtras.preserves_modify. intros ? ?. auto.
    - apply TickExtras.preserves_bind; [apply TickExtras.preserves_check|intros _].
      apply TickExtras.preserves_modify. intros ? ?. auto. }
  apply (TickExtras.spec_bind _ _ _ (fun _ => Tick.released_with_servo));
    [apply spec_preserved; [apply TickExtras.preserves_check | exact Hall]|intros _].
  apply (TickExtras.spec_bind _ _ _ (fun _ _ => False)); [|intros _ self []].
  intros self [Hservo Hstate]. unfold release_update.
  destruct (ReleaseFacts.update_raises CONFIG (release_system self) (release_env env)
              Hservo Hstate) as (Hraise & _).
  destruct (ReleaseSystem.update _ _ _) as [rel' r]. cbn [snd] in Hraise. subst r. exact I.
Qed.

Lemma released_tick (env : Env) (self : t) :
  Tick.released_with_servo self ->
  (exists e, snd (tick_body FLIGHT_MODES CONFIG math env
                    (set_loop_count (loop_count self + 1) self)) = Raise e) /\
  Tick.released_with_servo (fst (_main_loop FLIGHT_MODES CONFIG math env self)) /\
  (Tick.handler_ok env ->
   snd (_main_loop FLIGHT_MODES CONFIG math env self) = Ok tt /\
   ServoManager.all_neutral (servos (fst (_main_loop FLIGHT_MODES CONFIG math env self)))) /\
  (forall e' : exn,
      fault env AtHandler = Some e' ->
      snd (_main_loop FLIGHT_MODES CONFIG math env self) = Raise e').
Proof.
  intros Hrel.
  pose proof (released_body_raises env (set_loop_count (loop_count self + 1) self) Hrel)
    as Hbody.
  pose proof (TickExtras.stable_main_loop FLIGHT_MODES CONFIG math _ env released_stable
                self Hrel) as Hafter.
  split; [|split; [exact Hafter|]].
  - destruct (tick_body _ _ _ _ _) as [self' [a|e]]; [contradiction | eauto].
  - unfold _main_loop, try_except.
    destruct (tick_body _ _ _ _ _) as [self' [a|e]]; [contradiction|].
    split.
    + intros Hok.
      destruct (LoopFacts.tick_handler_spec env e self' Hok) as (Hret & _ & _ & Hneutral & _).
      split; assumption.
    + intros e' Hfail. rewrite (LoopFacts.tick_handler_fails env e e' self' Hfail).
      reflexivity.
Qed.

(** *** Ticks with stabilization off *)

Lemma servo_stage_neutral (env : Env) (roll pitch yaw_rate : Q) :
  Tick.spec (fun _ => True)
    (fun self =>
       if system_active self then
         (check env AtPID ;;;
          commands <- calculate_servo_commands FLIGHT_MODES roll pitch yaw_rate ;;
          check env AtServos ;;;
          modify (fun self' =>
            set_servos (ServoManager.apply_commands (servos self') commands) self')) self
       else
         (check env AtServos ;;;
          modify (fun self' =>
            set_servos (ServoManager.set_neutral (servos self')) self')) self)
    (fun _ => Tick.neutral_when_inactive) (fun _ _ => True).
Proof.
  intros self _. destruct (system_active self) eqn:Hactive.
  - match goal with
    | |- match ?m self with _ => _ end =>
      assert (Hm : Tick.preserves (fun s => system_active s = true) m)
    end.
    { apply TickExtras.preserves_bind; [apply TickExtras.preserves_check|intros _].
      apply TickExtras.preserves_bind;
        [apply TickExtras.preserves_servo_commands; intros ? ? H; exact H|intros commands].
      apply TickExtras.preserves_bind; [apply TickExtras.preserves_check|intros _].
      apply TickExtras.preserves_modify. intros ? H. exact H. }
    specialize (Hm self Hactive).
    match goal with
    | |- match ?m self with _ => _ end => destruct (m self) as [self' [a|e]]
    end; [|exact I].
    cbn [fst] in Hm. intros Hoff. congruence.
  - unfold bind, check, modify.
    destruct (fault env AtServos); [exact I|].
    intros _. apply LoopFacts.set_neutral_all_neutral.
Qed.

Lemma neutral_when_inactive_after_servos (env : Env) (roll pitch yaw_rate : Q) (valid : bool) :
  Tick.preserves Tick.neutral_when_inactive
    (check env AtRelease ;;;
     release_update CONFIG env ;;;
     check env AtLeds ;;;
     _update_leds env ;;;
     (fun self =>
        if loop_count self mod 30 =? 0 then
          (check env AtTelemetry ;;;
           _log_telemetry FLIGHT_MODES env roll pitch yaw_rate valid) self
        else (self, Ok tt))).
Proof.
  apply TickExtras.preserves_after_servos.
  - apply TickExtras.preserves_release_update. intros ? ? H. exact H.
  - apply TickExtras.preserves_update_leds. intros ? ? H. exact H.
  - apply TickExtras.preserves_telemetry; intros ? ? H; exact H.
Qed.

Lemma body_neutral_when_inactive (env : Env) :
  Tick.spec (fun _ => True) (tick_body FLIGHT_MODES CONFIG math env)
    (fun _ => Tick.neutral_when_inactive) (fun _ _ => True).
Proof.
  unfold tick_body.
  apply (TickExtras.spec_bind _ _ _ (fun _ _ => True)); [apply spec_any|intros _].
  apply (TickExtras.spec_bind _ _ _ (fun _ _ => True));
    [apply spec_any|intros [[[roll pitch] yaw_rate] valid]].
  apply (TickExtras.spec_bind _ _ _ (fun _ _ => True)); [apply spec_any|intros _].
  apply (TickExtras.spec_bind _ _ _ (fun _ _ => True)); [apply spec_any|intros _].
  apply (TickExtras.spec_bind _ _ _ (fun _ => Tick.neutral_when_inactive));
    [apply servo_stage_neutral|intros _].
  apply spec_preserved; [|auto].
  apply neutral_when_inactive_after_servos.
Qed.

Lemma main_loop_neutral_when_inactive (env : Env) (self : t) :
  snd (_main_loop FLIGHT_MODES CONFIG math env self) = Ok tt ->
  Tick.neutral_when_inactive (fst (_main_loop FLIGHT_MODES CONFIG math env self)).
Proof.
  unfold _main_loop, try_except.
  pose proof (body_neutral_when_inactive env (set_loop_count (loop_count self + 1) self) I)
    as Hbody.
  destruct (tick_body _ _ _ _ _) as [self' [a|e]]; cbn [fst snd].
  - intros _. exact Hbody.
  - intros Hret _.
    destruct (fault env AtHandler) as [e'|] eqn:Hfault.
    + rewrite (LoopFacts.tick_handler_fails env e e' self' Hfault) in Hret. discriminate.
    + apply (LoopFacts.tick_handler_spec env e self' Hfault).
Qed.

Lemma controls_without_click (env : Env) (self : t) :
  Tick.no_click self env ->
  _handle_controls FLIGHT_MODES CONFIG env self =
    (set_buttons (fst (ButtonManager.read_buttons (buttons self) (button_env env))) self,
     Ok tt).
Proof.
  unfold Tick.no_click, _handle_controls.
  destruct (ButtonManager.read_buttons _ _) as [buttons' [mode_clicked power_clicked]].
  cbn [fst snd]. intros H. injection H as -> ->. reflexivity.
Qed.

Lemma idle_body (env : Env) (pid : PIDController.t) (b : ButtonManager.t) :
  snd (ButtonManager.read_buttons b (button_env env)) = (false, false) ->
  Tick.spec (fun s => Tick.idle_with pid s /\ buttons s = b)
    (tick_body FLIGHT_MODES CONFIG math env)
    (fun _ => Tick.idle_with pid) (fun _ => Tick.idle_with pid).
Proof.
  intros Hquiet.
  set (P := fun s => Tick.idle_with pid s /\ buttons s = b).
  assert (Hweak : forall (e : exn) (s : t), P s -> Tick.idle_with pid s)
    by (intros e s [H _]; exact H).
  assert (Hsame : forall (e : exn) (s : t), Tick.idle_with pid s -> Tick.idle_with pid s)
    by auto.
  unfold tick_body.
  apply (TickExtras.spec_bind _ _ _ (fun _ => P));
    [apply spec_preserved; [apply TickExtras.preserves_check | exact Hweak]|intros _].
  apply (TickExtras.spec_bind _ _ _ (fun _ => P));
    [apply spec_preserved;
       [apply TickExtras.preserves_read_attitude; intros ? ? H; exact H | exact Hweak]
    |intros [[[roll pitch] yaw_rate] valid]].
  apply (TickExtras.spec_bind _ _ _ (fun _ => P));
    [apply spec_preserved; [apply TickExtras.preserves_check | exact Hweak]|intros _].
  apply (TickExtras.spec_bind _ _ _ (fun _ => Tick.idle_with pid)); [|intros _].
  { intros s [Hidle Hb].
    rewrite controls_without_click; [exact Hidle|].
    unfold Tick.no_click. rewrite Hb. exact Hquiet. }
  apply (TickExtras.spec_bind _ _ _ (fun _ => Tick.idle_with pid)); [|intros _].
  { intros s [Hoff Hpid]. rewrite Hoff.
    unfold bind, check, modify. destruct (fault env AtServos); split; assumption. }
  apply spec_preserved; [|exact Hsame].
  apply TickExtras.preserves_after_servos.
  - apply TickExtras.preserves_release_update. intros ? ? H. exact H.
  - apply TickExtras.preserves_update_leds. intros ? ? H. exact H.
  - apply TickExtras.preserves_telemetry; intros ? ? H; exact H.
Qed.

Lemma idle_tick (env : Env) (self : t) :
  system_active self = false ->
  Tick.no_click self env ->
  Tick.idle_with (pid_controller self) (fst (_main_loop FLIGHT_MODES CONFIG math env self)).
Proof.
  intros Hoff Hquiet.
  unfold _main_loop, try_except.
  pose proof (idle_body env (pid_controller self) (buttons self) Hquiet
                (set_loop_count (loop_count self + 1) self)
                (conj (conj Hoff eq_refl) eq_refl)) as Hbody.
  destruct (tick_body _ _ _ _ _) as [self' [a|e]]; cbn [fst].
  - exact Hbody.
  - unfold tick_handler, bind, modify, check.
    destruct (fault env AtHandler); exact Hbody.
Qed.

End WithConfig.

End TickTheorems.

Module LoopClaims.
Import PlanadorSystem.

(** C8 as stated fails when the servo driver is down. On the flying system
    the PID stage returns commands and the servo write of the [try] block
    raises; the [except] block logs the error and calls [set_neutral], which
    raises as well. The exception leaves [_main_loop] with the servos still
    deflected, and [run] stops after this first tick: the second tick it was
    given is never run. *)
Lemma main_loop_propagates_when_handler_fails :
  let env := MoreExamples.servo_fault_tick 2800 in
  let self := MoreExamples.locked_flying_system in
  let after := _main_loop stabilization_table RELEASE_CONFIG Examples.flat_math env self in
  let final :=
    run stabilization_table RELEASE_CONFIG Examples.flat_math
      [env; Examples.quiet_tick 2820] self in
  snd (tick_body stabilization_table RELEASE_CONFIG Examples.flat_math env
         (set_loop_count (loop_count self + 1) self)) = Raise OSError /\
  snd after = Raise OSError /\
  log (fst after) = [LogMainLoopError OSError] /\
  ~ ServoManager.all_neutral (servos (fst after)) /\
  snd final = Raise OSError /\
  loop_count (fst final) = loop_count self + 1.
Proof.
  intros env self after final.
  split; [vm_compute; reflexivity|].
  split; [vm_compute; reflexivity|].
  split; [vm_compute; reflexivity|].
  assert (Hsame : servos (fst after) = servos self) by (vm_compute; reflexivity).
  split; [|split; vm_compute; reflexivity].
  rewrite Hsame. intros Hneutral.
  assert (Hflap : ServoManager.servos (servos self) !! "flaps_left" =
                  Some {| duty := ServoManager.angle_to_duty 115 |})
    by (vm_compute; reflexivity).
  specialize (Hneutral "flaps_left" _ Hflap). vm_compute in Hneutral. discriminate.
Qed.

(** C8, amended: whatever exception the [try] block of a tick ends with
    (from the sensor read, the controls, the PID, the servo commands, the
    release update, the LED update or the telemetry, by the code itself or
    by a failing call), the [except] block logs it and calls [set_neutral];
    when that call goes through, the tick returns with every servo it had
    at the neutral duty. A tick whose block ends normally is left as the
    block left it. So [run] goes through every tick it is given, as long as
    the [set_neutral] of each handler goes through: the tick counter
    advances by one per tick. A tick raises only when its [try] block
    raised and that [set_neutral] failed too. *)
Theorem main_loop_contains_every_error
    (FLIGHT_MODES : gmap Z FlightMode) (CONFIG : ReleaseConfig) (math : MathLib)
    (env : Env) (self : t) (envs : list Env) :
  Tick.handler_ok env ->
  Forall Tick.handler_ok envs ->
  let body :=
    tick_body FLIGHT_MODES CONFIG math env (set_loop_count (loop_count self + 1) self) in
  let after := _main_loop FLIGHT_MODES CONFIG math env self in
  snd after = Ok tt /\
  (forall e : exn,
      snd body = Raise e ->
      log (fst after) = log (fst body) ++ [LogMainLoopError e] /\
      servos (fst after) = ServoManager.set_neutral (servos (fst body)) /\
      ServoManager.all_neutral (servos (fst after)) /\
      dom (ServoManager.servos (servos (fst after))) =
        dom (ServoManager.servos (servos self)) /\
      (forall (servo_name : string) (servo : PWM),
          ServoManager.servos (servos self) !! servo_name = Some servo ->
          ServoManager.servos (servos (fst after)) !! servo_name =
            Some {| duty := ServoManager.neutral_duty |})) /\
  (snd body = Ok tt -> fst after = fst body) /\
  snd (run FLIGHT_MODES CONFIG math envs self) = Ok tt /\
  loop_count (fst (run FLIGHT_MODES CONFIG math envs self)) =
    loop_count self + Z.of_nat (length envs).
Proof.
  intros Hok Hall body after.
  split; [apply LoopFacts.main_loop_returns, Hok|].
  split; [|split].
  - intros e Hraise.
    pose proof (TickTheorems.main_loop_same_servos FLIGHT_MODES CONFIG math env self) as Hdom.
    fold after in Hdom.
    assert (Hhandled :
      log (fst after) = log (fst body) ++ [LogMainLoopError e] /\
      servos (fst after) = ServoManager.set_neutral (servos (fst body)) /\
      ServoManager.all_neutral (servos (fst after))).
    { subst after. unfold _main_loop, try_except.
      fold body. destruct body as [self' r]. cbn [snd] in Hraise. subst r.
      cbn [fst].
      destruct (LoopFacts.tick_handler_spec env e self' Hok)
        as (_ & Hlog & Hservos & Hneutral & _).
      split; [exact Hlog|]. split; assumption. }
    destruct Hhandled as (Hlog & Hservos & Hneutral).
    split; [exact Hlog|]. split; [exact Hservos|]. split; [exact Hneutral|].
    split; [exact Hdom|].
    intros servo_name servo Hlookup.
    assert (Hin : servo_name ∈ dom (ServoManager.servos (servos (fst after)))).
    { rewrite Hdom. apply elem_of_dom. eauto. }
    apply elem_of_dom in Hin as [[d] Hd].
    rewrite Hd. f_equal. f_equal. exact (Hneutral servo_name _ Hd).
  - intros Hret. subst after. unfold _main_loop, try_except.
    fold body. destruct body as [self' r]. cbn [snd] in Hret. subst r. reflexivity.
  - apply LoopFacts.run_completes, Hall.
Qed.

Lemma main_loop_contains_every_error_witness :
  let env := Examples.quiet_tick 2800 in
  let self := Examples.flying_system in
  snd (tick_body stabilization_table RELEASE_CONFIG Examples.flat_math env
         (set_loop_count (loop_count self + 1) self)) = Raise TypeError /\
  snd (_main_loop stabilization_table RELEASE_CONFIG Examples.flat_math env self) = Ok tt /\
  log (fst (_main_loop stabilization_table RELEASE_CONFIG Examples.flat_math env self)) =
    [LogMainLoopError TypeError] /\
  ServoManager.all_neutral
    (servos (fst (_main_loop stabilization_table RELEASE_CONFIG Examples.flat_math env self))) /\
  ServoManager.servos
    (servos (fst (_main_loop stabilization_table RELEASE_CONFIG Examples.flat_math env self)))
    !! "flaps_left" = Some {| duty := ServoManager.neutral_duty |}.
Proof.
  intros env self.
  assert (Hraise :
    snd (tick_body stabilization_table RELEASE_CONFIG Examples.flat_math env
           (set_loop_count (loop_count self + 1) self)) = Raise TypeError)
    by (vm_compute; reflexivity).
  destruct (main_loop_contains_every_error stabilization_table RELEASE_CONFIG
              Examples.flat_math env self [env] eq_refl
              (List.Forall_cons _ env [] eq_refl (List.Forall_nil _)))
    as (Hok & Hcaught & _).
  destruct (Hcaught TypeError Hraise) as (Hlog & _ & Hneutral & _ & Hpresent).
  split; [exact Hraise|]. split; [exact Hok|]. split; [|split; [exact Hneutral|]].
  - rewrite Hlog. vm_compute. reflexivity.
  - apply (Hpresent "flaps_left" {| duty := ServoManager.angle_to_duty 115 |}).
    vm_compute. reflexivity.
Defined.

End LoopClaims.

Module TickClaims.
Import PlanadorSystem.

(** X22: Through any number of ticks, with any inputs, faults and button
    presses, servos that were driven inside the servo range stay there: each
    duty stays between 52 and 102, and no servo is added or dropped. *)
Theorem ticks_keep_servos_in_range
    (FLIGHT_MODES : gmap Z FlightMode) (CONFIG : ReleaseConfig) (math : MathLib)
    (envs : list Env) (self : t) :
  Safe.duties_in_range (servos self) ->
  let after := fst (run FLIGHT_MODES CONFIG math envs self) in
  Safe.duties_in_range (servos after) /\
  (forall (servo_name : string) (servo : PWM),
      ServoManager.servos (servos after) !! servo_name = Some servo ->
      52 <= duty servo <= 102) /\
  dom (ServoManager.servos (servos after)) = dom (ServoManager.servos (servos self)).
Proof.
  intros Hrange after.
  destruct (TickTheorems.run_preserves FLIGHT_MODES CONFIG math
              (Tick.servos_safe (dom (ServoManager.servos (servos self)))) envs self
              (TickTheorems.servos_safe_stable CONFIG _) (conj Hrange eq_refl))
    as [Hafter Hdom].
  fold after in Hafter, Hdom.
  split; [exact Hafter|]. split; [|exact Hdom].
  intros servo_name servo Hlookup.
  specialize (Hafter servo_name servo Hlookup). unfold Safe.duty_in_range in Hafter.
  destruct ServoExtras.duty_bounds_values as (Hmin & Hmax & _).
  rewrite Hmin, Hmax in Hafter. exact Hafter.
Qed.

Lemma flying_servos_in_range : Safe.duties_in_range (servos Examples.flying_system).
Proof. apply ServoExtras.apply_commands_in_range, ServoExtras.init_in_range. Qed.

Lemma ticks_keep_servos_in_range_witness :
  Safe.duties_in_range
    (servos (fst (run stabilization_table RELEASE_CONFIG Examples.flat_math
                    [Examples.quiet_tick 2800; Examples.quiet_tick 2820]
                    Examples.flying_system))).
Proof.
  exact (proj1 (ticks_keep_servos_in_range stabilization_table RELEASE_CONFIG
                  Examples.flat_math [Examples.quiet_tick 2800; Examples.quiet_tick 2820]
                  Examples.flying_system flying_servos_in_range)).
Defined.

(** X23: Once the release system, with its servo, is in state RELEASING or
    RELEASED, the [try] block of every tick raises, and the release system
    is still in RELEASING or RELEASED after the tick. When the
    [set_neutral] of the [except] block goes through, the tick returns with
    every servo at the neutral duty, even with stabilization on, and with
    the servos it had; when that call fails, the tick raises what it
    raised. So after any non-empty run of ticks whose handlers go through,
    the same servos stand at neutral. *)
Theorem ticks_after_release_end_neutral
    (FLIGHT_MODES : gmap Z FlightMode) (CONFIG : ReleaseConfig) (math : MathLib)
    (env : Env) (envs : list Env) (self : t) :
  Tick.released_with_servo self ->
  let after := _main_loop FLIGHT_MODES CONFIG math env self in
  let final := run FLIGHT_MODES CONFIG math (env :: envs) self in
  (exists e : exn,
      snd (tick_body FLIGHT_MODES CONFIG math env
             (set_loop_count (loop_count self + 1) self)) = Raise e) /\
  Tick.released_with_servo (fst after) /\
  (Tick.handler_ok env ->
   snd after = Ok tt /\
   ServoManager.all_neutral (servos (fst after)) /\
   dom (ServoManager.servos (servos (fst after))) = dom (ServoManager.servos (servos self))) /\
  (forall e' : exn, fault env AtHandler = Some e' -> snd after = Raise e') /\
  (Forall Tick.handler_ok (env :: envs) ->
   snd final = Ok tt /\
   ServoManager.all_neutral (servos (fst final)) /\
   dom (ServoManager.servos (servos (fst final))) = dom (ServoManager.servos (servos self)) /\
   Tick.released_with_servo (fst final)).
Proof.
  intros Hrel after final.
  destruct (TickTheorems.released_tick FLIGHT_MODES CONFIG math env self Hrel)
    as (Hraise & Hafter & Hgood & Hbad).
  fold after in Hafter, Hgood, Hbad.
  split; [exact Hraise|]. split; [exact Hafter|].
  split; [|split; [exact Hbad|]].
  { intros Hok. destruct (Hgood Hok) as [Hret Hneutral].
    split; [exact Hret|]. split; [exact Hneutral|].
    apply TickTheorems.main_loop_same_servos. }
  clear Hraise Hgood Hbad Hafter. subst after final.
  intros Hall. revert env self Hrel Hall.
  induction envs as [|env' envs IH]; intros env self Hrel Hall.
  - apply Forall_inv in Hall.
    destruct (TickTheorems.released_tick FLIGHT_MODES CONFIG math env self Hrel)
      as (_ & Hafter & Hgood & _).
    destruct (Hgood Hall) as [Hret Hneutral].
    pose proof (TickTheorems.main_loop_same_servos FLIGHT_MODES CONFIG math env self) as Hdom.
    cbn [run].
    destruct (_main_loop FLIGHT_MODES CONFIG math env self) as [self' r].
    cbn [fst snd] in *. subst r. cbn [fst snd].
    split; [reflexivity|]. split; [exact Hneutral|]. split; assumption.
  - pose proof (Forall_inv Hall) as Hok. apply Forall_inv_tail in Hall.
    destruct (TickTheorems.released_tick FLIGHT_MODES CONFIG math env self Hrel)
      as (_ & Hafter & Hgood & _).
    destruct (Hgood Hok) as [Hret _].
    pose proof (TickTheorems.main_loop_same_servos FLIGHT_MODES CONFIG math env self) as Hdom.
    change (run FLIGHT_MODES CONFIG math (env :: env' :: envs) self)
      with (match _main_loop FLIGHT_MODES CONFIG math env self with
            | (self', Ok _) => run FLIGHT_MODES CONFIG math (env' :: envs) self'
            | (self', Raise e) => (self', Raise e)
            end).
    destruct (_main_loop FLIGHT_MODES CONFIG math env self) as [self' r].
    cbn [fst snd] in *. subst r.
    rewrite <- Hdom. apply (IH env' self' Hafter Hall).
Qed.

Lemma flying_system_released : Tick.released_with_servo Examples.flying_system.
Proof. split; [vm_compute; eauto | left; vm_compute; reflexivity]. Qed.

Lemma ticks_after_release_end_neutral_witness :
  system_active Examples.flying_system = true /\
  ServoManager.all_neutral
    (servos (fst (_main_loop stabilization_table RELEASE_CONFIG Examples.flat_math
                    (Examples.quiet_tick 2800) Examples.flying_system))) /\
  dom (ServoManager.servos
         (servos (fst (_main_loop stabilization_table RELEASE_CONFIG Examples.flat_math
                         (Examples.quiet_tick 2800) Examples.flying_system)))) =
  dom (ServoManager.servos (servos Examples.flying_system)).
Proof.
  split; [reflexivity|].
  exact (proj2 (proj1 (proj2 (proj2 (ticks_after_release_end_neutral stabilization_table
                                       RELEASE_CONFIG Examples.flat_math
                                       (Examples.quiet_tick 2800) []
                                       Examples.flying_system flying_system_released)))
                  eq_refl)).
Defined.

(** X24: A tick that returns with stabilization off leaves every servo it
    had at the neutral duty, whatever happened during the tick: commands
    applied earlier in it, a deactivation, or an exception that its
    [except] block answered. *)
Theorem inactive_tick_leaves_servos_neutral
    (FLIGHT_MODES : gmap Z FlightMode) (CONFIG : ReleaseConfig) (math : MathLib)
    (env : Env) (self : t) :
  let after := _main_loop FLIGHT_MODES CONFIG math env self in
  snd after = Ok tt ->
  system_active (fst after) = false ->
  ServoManager.all_neutral (servos (fst after)) /\
  dom (ServoManager.servos (servos (fst after))) = dom (ServoManager.servos (servos self)) /\
  (forall (servo_name : string) (servo : PWM),
      ServoManager.servos (servos self) !! servo_name = Some servo ->
      ServoManager.servos (servos (fst after)) !! servo_name =
        Some {| duty := ServoManager.neutral_duty |}).
Proof.
  intros after Hret Hoff.
  pose proof (TickTheorems.main_loop_neutral_when_inactive FLIGHT_MODES CONFIG math env self
                Hret Hoff) as Hneutral.
  pose proof (TickTheorems.main_loop_same_servos FLIGHT_MODES CONFIG math env self) as Hdom.
  fold after in Hneutral, Hdom.
  split; [exact Hneutral|]. split; [exact Hdom|].
  intros servo_name servo Hlookup.
  assert (Hin : servo_name ∈ dom (ServoManager.servos (servos (fst after)))).
  { rewrite Hdom. apply elem_of_dom. eauto. }
  apply elem_of_dom in Hin as [[d] Hd].
  rewrite Hd. f_equal. f_equal. exact (Hneutral servo_name _ Hd).
Qed.

Lemma inactive_tick_leaves_servos_neutral_witness :
  ServoManager.all_neutral
    (servos (fst (_main_loop stabilization_table RELEASE_CONFIG Examples.flat_math
                    (Examples.quiet_tick 2800) MoreExamples.idle_system))).
Proof.
  apply inactive_tick_leaves_servos_neutral; vm_compute; reflexivity.
Defined.

(** X25: With stabilization off and no button click, a tick does not touch
    the PID controller: its integrals, previous errors and mode are those
    from before the tick, stabilization stays off and the servos driven are
    the same, also when the tick meets an exception; and when the tick
    returns, every one of them is at the neutral duty. *)
Theorem idle_tick_keeps_pid
    (FLIGHT_MODES : gmap Z FlightMode) (CONFIG : ReleaseConfig) (math : MathLib)
    (env : Env) (self : t) :
  system_active self = false ->
  Tick.no_click self env ->
  let after := _main_loop FLIGHT_MODES CONFIG math env self in
  pid_controller (fst after) = pid_controller self /\
  system_active (fst after) = false /\
  dom (ServoManager.servos (servos (fst after))) = dom (ServoManager.servos (servos self)) /\
  (snd after = Ok tt -> ServoManager.all_neutral (servos (fst after))).
Proof.
  intros Hoff Hquiet after.
  destruct (TickTheorems.idle_tick FLIGHT_MODES CONFIG math env self Hoff Hquiet)
    as [Hoff' Hpid].
  fold after in Hoff', Hpid.
  split; [exact Hpid|]. split; [exact Hoff'|].
  split; [apply TickTheorems.main_loop_same_servos|].
  intros Hret.
  apply (TickTheorems.main_loop_neutral_when_inactive FLIGHT_MODES CONFIG math env self
           Hret Hoff').
Qed.

Lemma idle_tick_keeps_pid_witness :
  pid_controller
    (fst (_main_loop stabilization_table RELEASE_CONFIG Examples.flat_math
            (Examples.quiet_tick 2800) MoreExamples.idle_system)) =
  pid_controller MoreExamples.idle_system.
Proof.
  refine (proj1 (idle_tick_keeps_pid stabilization_table RELEASE_CONFIG Examples.flat_math
                   (Examples.quiet_tick 2800) MoreExamples.idle_system _ _)).
  - reflexivity.
  - vm_compute. reflexivity.
Defined.

End TickClaims.

Module QuietTick.
Import PlanadorSystem.
Local Open Scope planador_scope.

Lemma spec_extract {A : Type} (fact : Prop) (P : t -> Prop) (m : M A)
    (Qok : A -> t -> Prop) (Qerr : exn -> t -> Prop) :
  (fact -> Tick.spec P m Qok Qerr) ->
  Tick.spec (fun s => fact /\ P s) m Qok Qerr.
Proof. intros H self [Hfact HP]. exact (H Hfact self HP). Qed.

Lemma spec_check (P : t -> Prop) (env : Env) (st : stage) :
  Tick.no_fault env ->
  Tick.spec P (check env st) (fun _ => P) (fun _ _ => False).
Proof. intros Hnf self HP. unfold check. rewrite Hnf. exact HP. Qed.

Lemma set_mode_pattern_returns (leds : LEDManager.t) (mode_index : Z) (active : bool) (now : Z) :
  0 <= mode_index ->
  snd (LEDManager.set_mode_pattern leds mode_index active now) = Ok tt.
Proof.
  intros Hpos. unfold LEDManager.set_mode_pattern.
  destruct (LEDManager.available_leds leds !! "mode"); [|reflexivity].
  destruct (negb active); [reflexivity|].
  destruct (Z.eqb_spec (mode_index + 1 + 2) 0); [lia | reflexivity].
Qed.

Section WithConfig.

Variable FLIGHT_MODES : gmap Z FlightMode.
Variable CONFIG : ReleaseConfig.
Variable math : MathLib.

Lemma update_returns (rs : ReleaseSystem.t) (env : ReleaseSystem.Env) :
  ReleaseSystem.servo rs = None \/
  ReleaseSystem.state rs = "LOCKED" \/ ReleaseSystem.state rs = "ARMED" ->
  snd (ReleaseSystem.update CONFIG rs env) = Ok tt.
Proof.
  intros Hcan.
  destruct (ReleaseSystem.servo rs) as [pwm|] eqn:Hservo.
  - destruct (ReleaseExtras.update_fields CONFIG rs env pwm Hservo) as (Hl & Ha & _).
    destruct Hcan as [H | [H | H]]; [discriminate | apply Hl, H | apply Ha, H].
  - unfold ReleaseSystem.update. rewrite Hservo. reflexivity.
Qed.

Lemma mode_of_valid (pid : PIDController.t) :
  Safe.table_well_formed FLIGHT_MODES ->
  Safe.mode_index_valid FLIGHT_MODES pid ->
  is_Some (FLIGHT_MODES !! PIDController.flight_mode pid) /\
  0 <= PIDController.flight_mode pid.
Proof.
  intros [Hzero Hkeys] [H|H].
  - rewrite H. split; [exact Hzero | lia].
  - split; [apply Hkeys, H | lia].
Qed.

Lemma servo_commands_flight_mode (pid : PIDController.t) (roll pitch yaw_rate : Q) :
  PIDController.flight_mode
    (fst (PIDController.calculate_servo_commands FLIGHT_MODES pid roll pitch yaw_rate)) =
  PIDController.flight_mode pid.
Proof.
  rewrite PIDFacts.calculate_servo_commands_state. apply PIDFacts.calculate_flight_mode.
Qed.

Lemma servo_commands_return (pid : PIDController.t) (roll pitch yaw_rate : Q) :
  is_Some (FLIGHT_MODES !! PIDController.flight_mode pid) ->
  exists commands : list Z,
    snd (PIDController.calculate_servo_commands FLIGHT_MODES pid roll pitch yaw_rate) =
    Ok commands.
Proof.
  intros [mode Hmode].
  assert (Hdt : ~ (PIDController.default_dt == 0)%Q) by (vm_compute; discriminate).
  pose proof (PIDFacts.calculate_returns FLIGHT_MODES pid roll pitch yaw_rate
                PIDController.default_dt mode Hmode Hdt) as Hcalc.
  unfold PIDController.calculate_servo_commands.
  destruct (PIDController.errors_of mode roll pitch yaw_rate) as [[e0 e1] e2].
  destruct (PIDController.integral pid) as [[i0 i1] i2].
  destruct (PIDController.prev_error pid) as [[p0 p1] p2].
  destruct (limits mode) as [[limit0 limit1] limit2].
  cbv zeta in Hcalc. rewrite Hcalc.
  unfold PIDController.get_flight_mode_info. cbn [PIDController.flight_mode].
  rewrite Hmode. eexists. reflexivity.
Qed.

(** What the part of the [try] block after the servo commands keeps when no
    call fails and the release system can take an [update]. *)
Lemma after_servos_returns (env : Env) (roll pitch yaw_rate : Q) (valid : bool)
    (K : t -> Prop) (pid : PIDController.t) :
  Tick.no_fault env ->
  is_Some (FLIGHT_MODES !! PIDController.flight_mode pid) ->
  0 <= PIDController.flight_mode pid ->
  (forall self, K self -> pid_controller self = pid) ->
  (forall v self, K self -> K (set_release_system v self)) ->
  (forall v self, K self -> K (set_last_telemetry_time v self)) ->
  (forall entry self, K self -> K (logger entry self)) ->
  Tick.spec (fun s => K s /\ Tick.release_can_update s)
    (check env AtRelease ;;;
     release_update CONFIG env ;;;
     check env AtLeds ;;;
     _update_leds env ;;;
     (fun self =>
        if loop_count self mod 30 =? 0 then
          (check env AtTelemetry ;;;
           _log_telemetry FLIGHT_MODES env roll pitch yaw_rate valid) self
        else (self, Ok tt)))
    (fun _ => K) (fun _ _ => False).
Proof.
  intros Hnf [mode Hmode] Hpos Hpid Hrel Htel Hlog.
  apply (TickExtras.spec_bind _ _ _ (fun _ s => K s /\ Tick.release_can_update s));
    [apply spec_check, Hnf|intros _].
  apply (TickExtras.spec_bind _ _ _ (fun _ => K)); [|intros _].
  { intros self [HK Hcan]. unfold release_update.
    pose proof (update_returns (release_system self) (release_env env) Hcan) as Hok.
    destruct (ReleaseSystem.update _ _ _) as [rel' r]. cbn [snd] in Hok. subst r.
    apply Hrel, HK. }
  apply (TickExtras.spec_bind _ _ _ (fun _ => K)); [apply spec_check, Hnf|intros _].
  apply (TickExtras.spec_bind _ _ _ (fun _ => K)); [|intros _].
  { intros self HK. unfold _update_leds, bind, modify.
    pose proof (set_mode_pattern_returns
                  (hardware_leds (set_leds (LEDManager.set_system_active (hardware_leds self)
                                              (system_active self)) self))
                  (PIDController.flight_mode
                     (pid_controller (set_leds (LEDManager.set_system_active
                                                  (hardware_leds self) (system_active self))
                                        self)))
                  (system_active (set_leds (LEDManager.set_system_active
                                              (hardware_leds self) (system_active self)) self))
                  (mode_led_now env)) as Hok.
    destruct (LEDManager.set_mode_pattern _ _ _ _) as [leds' r].
    cbn [snd] in Hok. rewrite Hok.
    - unfold set_leds. apply Hrel, Hrel, HK.
    - cbn [pid_controller set_leds set_release_system]. rewrite (Hpid self HK). exact Hpos. }
  intros self HK.
  destruct (loop_count self mod 30 =? 0); [|exact HK].
  unfold bind, check. rewrite Hnf.
  unfold _log_telemetry.
  destruct (_ <=? _); [|exact HK].
  unfold bind, modify, mode_info, lift, PIDController.get_flight_mode_info.
  cbn [pid_controller set_last_telemetry_time].
  rewrite (Hpid self HK), Hmode.
  destruct (ReleaseSystem.get_rc_signal _ _) as [rel' rc_signal].
  apply Hlog, Hrel, Htel, HK.
Qed.

(** The whole [try] block on a tick with stabilization on, no click and
    no failing call. *)
Lemma quiet_active_body (env : Env) (self : t)
    (roll pitch yaw_rate : Q) (valid : bool) (commands : list Z) :
  Tick.no_fault env ->
  Tick.no_click self env ->
  system_active self = true ->
  is_Some (FLIGHT_MODES !! PIDController.flight_mode (pid_controller self)) ->
  0 <= PIDController.flight_mode (pid_controller self) ->
  Tick.release_can_update self ->
  snd (SensorManager.read_attitude math (sensors self) (sensor_env env)) =
    Ok (roll, pitch, yaw_rate, valid) ->
  snd (PIDController.calculate_servo_commands FLIGHT_MODES (pid_controller self)
         roll pitch yaw_rate) = Ok commands ->
  Tick.spec (fun s => s = self)
    (tick_body FLIGHT_MODES CONFIG math env)
    (fun _ s =>
       servos s = ServoManager.apply_commands (servos self) commands /\
       pid_controller s =
         fst (PIDController.calculate_servo_commands FLIGHT_MODES (pid_controller self)
                roll pitch yaw_rate) /\
       system_active s = true)
    (fun _ _ => False).
Proof.
  intros Hnf Hquiet Hactive Hmode Hpos Hcan Hread Hcalc.
  unfold tick_body.
  apply (TickExtras.spec_bind _ _ _ (fun _ s => s = self));
    [apply spec_check, Hnf|intros _].
  apply (TickExtras.spec_bind _ _ _
           (fun a s => a = (roll, pitch, yaw_rate, valid) /\
                       s = set_sensors
                             (fst (SensorManager.read_attitude math (sensors self)
                                     (sensor_env env))) self)).
  { intros s ->. unfold read_attitude.
    destruct (SensorManager.read_attitude _ _ _) as [sensors' r].
    cbn [fst snd] in *. subst r. split; reflexivity. }
  intros a. apply spec_extract. intros ->.
  set (s1 := set_sensors _ self).
  apply (TickExtras.spec_bind _ _ _ (fun _ s => s = s1));
    [apply spec_check, Hnf|intros _].
  set (s2 := set_buttons (fst (ButtonManager.read_buttons (buttons self) (button_env env))) s1).
  apply (TickExtras.spec_bind _ _ _ (fun _ s => s = s2)); [|intros _].
  { intros s ->. rewrite (TickTheorems.controls_without_click FLIGHT_MODES CONFIG env s1 Hquiet).
    reflexivity. }
  set (X := ServoManager.apply_commands (servos self) commands).
  set (Y := fst (PIDController.calculate_servo_commands FLIGHT_MODES (pid_controller self)
                   roll pitch yaw_rate)).
  set (K := fun s : t => servos s = X /\ pid_controller s = Y /\ system_active s = true).
  apply (TickExtras.spec_bind _ _ _ (fun _ s => K s /\ Tick.release_can_update s));
    [|intros _].
  { intros s ->.
    change (system_active s2) with (system_active self). rewrite Hactive.
    unfold bind, check, modify. rewrite !Hnf.
    unfold calculate_servo_commands.
    change (pid_controller s2) with (pid_controller self).
    fold Y in Hcalc |- *.
    destruct (PIDController.calculate_servo_commands _ _ _ _ _) as [pid' r].
    cbn [snd] in Hcalc. subst r.
    split; [|exact Hcan].
    split; [reflexivity|]. split; [reflexivity | exact Hactive]. }
  apply (after_servos_returns env roll pitch yaw_rate valid K Y Hnf).
  - unfold Y. rewrite servo_commands_flight_mode. exact Hmode.
  - unfold Y. rewrite servo_commands_flight_mode. exact Hpos.
  - intros s (_ & H & _). exact H.
  - intros v s H. exact H.
  - intros v s H. exact H.
  - intros entry s H. exact H.
Qed.

End WithConfig.

End QuietTick.

Module QuietTickClaims.
Import PlanadorSystem.

Lemma stabilization_table_well_formed : Safe.table_well_formed stabilization_table.
Proof.
  split; [eexists; reflexivity|].
  intros i Hi.
  assert (Hsize : Z.of_nat (size stabilization_table) = 1) by (vm_compute; reflexivity).
  rewrite Hsize in Hi. assert (i = 0) as -> by lia.
  eexists. reflexivity.
Qed.

(** X26: A tick with stabilization on, no button click, no failing call, a
    flight-mode table with keys 0..len-1 holding the controller's mode, and
    a release system that is LOCKED, ARMED or without servo, runs its [try]
    block to the end: the block returns, and after the tick the servos are
    exactly [apply_commands] of the commands the PID controller computed
    from this tick's attitude sample, the controller is the one that
    computation left, and stabilization is still on. *)
Theorem quiet_tick_applies_pid_commands
    (FLIGHT_MODES : gmap Z FlightMode) (CONFIG : ReleaseConfig) (math : MathLib)
    (env : Env) (self : t) :
  Tick.no_fault env ->
  Tick.no_click self env ->
  system_active self = true ->
  Safe.table_well_formed FLIGHT_MODES ->
  Safe.mode_index_valid FLIGHT_MODES (pid_controller self) ->
  Tick.release_can_update self ->
  exists (roll pitch yaw_rate : Q) (valid : bool) (commands : list Z),
    snd (SensorManager.read_attitude math (sensors self) (sensor_env env)) =
      Ok (roll, pitch, yaw_rate, valid) /\
    snd (PIDController.calculate_servo_commands FLIGHT_MODES (pid_controller self)
           roll pitch yaw_rate) = Ok commands /\
    snd (tick_body FLIGHT_MODES CONFIG math env
           (set_loop_count (loop_count self + 1) self)) = Ok tt /\
    let after := fst (_main_loop FLIGHT_MODES CONFIG math env self) in
    servos after = ServoManager.apply_commands (servos self) commands /\
    pid_controller after =
      fst (PIDController.calculate_servo_commands FLIGHT_MODES (pid_controller self)
             roll pitch yaw_rate) /\
    system_active after = true.
Proof.
  intros Hnf Hquiet Hactive Hwf Hvalid Hcan.
  destruct (QuietTick.mode_of_valid FLIGHT_MODES (pid_controller self) Hwf Hvalid)
    as [Hmode Hpos].
  pose proof (SensorFacts.read_attitude_returns math (sensors self) (sensor_env env)) as Hret.
  destruct (snd (SensorManager.read_attitude math (sensors self) (sensor_env env)))
    as [[[[roll pitch] yaw_rate] valid]|e] eqn:Hread; [clear Hret | destruct Hret].
  destruct (QuietTick.servo_commands_return FLIGHT_MODES (pid_controller self)
              roll pitch yaw_rate Hmode) as [commands Hcalc].
  exists roll, pitch, yaw_rate, valid, commands.
  split; [reflexivity|]. split; [exact Hcalc|].
  pose proof (QuietTick.quiet_active_body FLIGHT_MODES CONFIG math env
                (set_loop_count (loop_count self + 1) self)
                roll pitch yaw_rate valid commands Hnf Hquiet Hactive Hmode Hpos Hcan
                Hread Hcalc _ eq_refl) as Hbody.
  unfold _main_loop, try_except.
  destruct (tick_body _ _ _ _ _) as [self' [[]|e]]; [|destruct Hbody].
  split; [reflexivity|]. exact Hbody.
Qed.

Lemma quiet_tick_applies_pid_commands_witness :
  snd (tick_body stabilization_table RELEASE_CONFIG Examples.flat_math
         (Examples.quiet_tick 2800)
         (set_loop_count (loop_count MoreExamples.locked_flying_system + 1)
            MoreExamples.locked_flying_system)) = Ok tt.
Proof.
  destruct (quiet_tick_applies_pid_commands stabilization_table RELEASE_CONFIG
              Examples.flat_math (Examples.quiet_tick 2800)
              MoreExamples.locked_flying_system)
    as (roll & pitch & yaw_rate & valid & commands & _ & _ & Hbody & _).
  - intros s. reflexivity.
  - vm_compute. reflexivity.
  - reflexivity.
  - exact stabilization_table_well_formed.
  - left. reflexivity.
  - right. left. reflexivity.
  - exact Hbody.
Defined.

End QuietTickClaims.

Module ControlsExtras.
Import PlanadorSystem.
Local Open Scope planador_scope.

Section WithConfig.

Variable FLIGHT_MODES : gmap Z FlightMode.
Variable CONFIG : ReleaseConfig.

Lemma next_mode_accepted (pid : PIDController.t) :
  Safe.table_well_formed FLIGHT_MODES ->
  0 <= (PIDController.flight_mode pid + 1) mod Z.of_nat (size FLIGHT_MODES)
    < Z.of_nat (size FLIGHT_MODES) /\
  (Z.of_nat (size FLIGHT_MODES) =? 0) = false.
Proof.
  intros [[mode Hzero] _].
  assert (Hsize : 0 < Z.of_nat (size FLIGHT_MODES)).
  { destruct (size FLIGHT_MODES) eqn:Hs; [|lia].
    apply map_size_empty_iff in Hs. rewrite Hs in Hzero. discriminate. }
  split; [apply Z.mod_pos_bound, Hsize | apply Z.eqb_neq; lia].
Qed.

Lemma set_next_mode (pid : PIDController.t) (next : Z) :
  0 <= next < Z.of_nat (size FLIGHT_MODES) ->
  snd (PIDController.set_flight_mode FLIGHT_MODES pid next) = true /\
  PIDController.flight_mode (fst (PIDController.set_flight_mode FLIGHT_MODES pid next)) = next /\
  (next = PIDController.flight_mode pid ->
   fst (PIDController.set_flight_mode FLIGHT_MODES pid next) = pid) /\
  (next <> PIDController.flight_mode pid ->
   PIDController.integral (fst (PIDController.set_flight_mode FLIGHT_MODES pid next)) =
     PIDController.zero3 /\
   PIDController.prev_error (fst (PIDController.set_flight_mode FLIGHT_MODES pid next)) =
     PIDController.zero3).
Proof.
  intros [Hlo Hhi]. unfold PIDController.set_flight_mode.
  apply Z.leb_le in Hlo. apply Z.ltb_lt in Hhi. rewrite Hlo, Hhi. cbn [andb].
  destruct (Z.eqb_spec (PIDController.flight_mode pid) next) as [Heq|Hne]; cbn [negb fst snd].
  - repeat split; try congruence.
  - repeat split; congruence.
Qed.

Lemma switch_flight_mode_cycles (self : t) :
  Safe.table_well_formed FLIGHT_MODES ->
  let after := fst (_switch_flight_mode FLIGHT_MODES self) in
  let next := (PIDController.flight_mode (pid_controller self) + 1)
                mod Z.of_nat (size FLIGHT_MODES) in
  snd (_switch_flight_mode FLIGHT_MODES self) = Ok tt /\
  pid_controller after =
    fst (PIDController.set_flight_mode FLIGHT_MODES (pid_controller self) next) /\
  system_active after = system_active self /\
  servos after = servos self /\
  release_system after = release_system self /\
  buttons after = buttons self.
Proof.
  intros Hwf after next. subst after.
  destruct (next_mode_accepted (pid_controller self) Hwf) as [Hnext Hlen].
  fold next in Hnext.
  destruct (set_next_mode (pid_controller self) next Hnext) as (Hacc & Hmode & _).
  unfold _switch_flight_mode. rewrite Hlen. fold next.
  destruct (PIDController.set_flight_mode FLIGHT_MODES (pid_controller self) next)
    as [pid' changed].
  cbn [fst snd] in *. subst changed.
  unfold bind, mode_info, lift, modify, PIDController.get_flight_mode_info.
  cbn [pid_controller set_pid_controller]. rewrite Hmode.
  destruct Hwf as [_ Hkeys]. destruct (Hkeys next Hnext) as [mode Hlookup].
  rewrite Hlookup. cbn [fst snd]. repeat split; reflexivity.
Qed.

Lemma activate_system_spec (self : t) :
  is_Some (FLIGHT_MODES !! PIDController.flight_mode (pid_controller self)) ->
  let after := fst (_activate_system FLIGHT_MODES self) in
  snd (_activate_system FLIGHT_MODES self) = Ok tt /\
  system_active after = true /\
  pid_controller after = PIDController.reset (pid_controller self) /\
  servos after = servos self /\
  buttons after = buttons self /\
  ReleaseSystem.state (release_system after) = ReleaseSystem.state (release_system self) /\
  ReleaseSystem.servo (release_system after) = ReleaseSystem.servo (release_system self).
Proof.
  intros [mode Hmode]. unfold _activate_system, bind, modify, mode_info, lift,
    PIDController.get_flight_mode_info.
  cbn [pid_controller set_system_active]. rewrite Hmode. cbn [fst snd].
  repeat split; reflexivity.
Qed.

Lemma activate_system_missing_mode (self : t) :
  FLIGHT_MODES !! PIDController.flight_mode (pid_controller self) = None ->
  _activate_system FLIGHT_MODES self = (set_system_active true self, Raise KeyError).
Proof.
  intros Hmode. unfold _activate_system, bind, modify, mode_info, lift,
    PIDController.get_flight_mode_info.
  cbn [pid_controller set_system_active]. rewrite Hmode. reflexivity.
Qed.

Lemma deactivate_system_spec (self : t) :
  let after := fst (_deactivate_system self) in
  snd (_deactivate_system self) = Ok tt /\
  system_active after = false /\
  servos after = ServoManager.set_neutral (servos self) /\
  pid_controller after = pid_controller self /\
  buttons after = buttons self /\
  ReleaseSystem.state (release_system after) = ReleaseSystem.state (release_system self) /\
  ReleaseSystem.servo (release_system after) = ReleaseSystem.servo (release_system self).
Proof. unfold _deactivate_system, bind, modify. cbn [fst snd]. repeat split; reflexivity. Qed.

End WithConfig.

End ControlsExtras.

Module ControlsClaims.
Import PlanadorSystem.

(** X27: A click of the mode button alone, on a table with keys 0..len-1
    holding the controller's mode. [_handle_controls] returns with
    stabilization on and leaves the servos and the release state alone. If
    stabilization was off, it is switched on and the PID controller is
    reset, its mode kept. If it was on, the mode becomes
    [(mode + 1) % len]: on a table of more than one mode the integrals and
    previous errors are zeroed, on a table of one mode the controller is
    left exactly as it was. *)
Theorem mode_click_activates_or_cycles
    (FLIGHT_MODES : gmap Z FlightMode) (CONFIG : ReleaseConfig) (env : Env) (self : t) :
  snd (ButtonManager.read_buttons (buttons self) (button_env env)) = (true, false) ->
  Safe.table_well_formed FLIGHT_MODES ->
  Safe.mode_index_valid FLIGHT_MODES (pid_controller self) ->
  let after := fst (_handle_controls FLIGHT_MODES CONFIG env self) in
  let len := Z.of_nat (size FLIGHT_MODES) in
  let mode := PIDController.flight_mode (pid_controller self) in
  snd (_handle_controls FLIGHT_MODES CONFIG env self) = Ok tt /\
  system_active after = true /\
  servos after = servos self /\
  ReleaseSystem.state (release_system after) = ReleaseSystem.state (release_system self) /\
  ReleaseSystem.servo (release_system after) = ReleaseSystem.servo (release_system self) /\
  (system_active self = false ->
   pid_controller after = PIDController.reset (pid_controller self)) /\
  (system_active self = true ->
   PIDController.flight_mode (pid_controller after) = (mode + 1) mod len /\
   (1 < len ->
    PIDController.flight_mode (pid_controller after) <> mode /\
    PIDController.integral (pid_controller after) = PIDController.zero3 /\
    PIDController.prev_error (pid_controller after) = PIDController.zero3) /\
   (len = 1 -> pid_controller after = pid_controller self)).
Proof.
  intros Hclick Hwf Hvalid after len mode. subst after.
  destruct (QuietTick.mode_of_valid FLIGHT_MODES (pid_controller self) Hwf Hvalid)
    as [Hmode Hpos].
  unfold _handle_controls.
  destruct (ButtonManager.read_buttons (buttons self) (button_env env))
    as [buttons' [mode_clicked power_clicked]].
  cbn [snd] in Hclick. injection Hclick as -> ->.
  unfold bind, when, ret.
  change (system_active (set_buttons buttons' self)) with (system_active self).
  destruct (system_active self) eqn:Hactive; cbn [negb].
  - destruct (ControlsExtras.switch_flight_mode_cycles FLIGHT_MODES
                (set_buttons buttons' self) Hwf)
      as (Hok & Hpid & Hact & Hservos & Hrel & _).
    destruct (ControlsExtras.next_mode_accepted FLIGHT_MODES (pid_controller self) Hwf)
      as [Hnext _].
    destruct (ControlsExtras.set_next_mode FLIGHT_MODES (pid_controller self) _ Hnext)
      as (_ & Hnew & Hsame & Hreset).
    destruct (_switch_flight_mode FLIGHT_MODES (set_buttons buttons' self)) as [s' r].
    cbn [fst snd] in *. subst r. cbn [fst snd].
    change (pid_controller (set_buttons buttons' self)) with (pid_controller self) in Hpid.
    unfold Safe.mode_index_valid in Hvalid.
    fold mode len in Hpid, Hnew, Hsame, Hreset, Hnext, Hpos, Hvalid.
    split; [reflexivity|].
    split; [rewrite Hact; exact Hactive|]. split; [exact Hservos|].
    rewrite Hrel. split; [reflexivity|]. split; [reflexivity|].
    split; [discriminate|]. intros _. rewrite Hpid.
    split; [exact Hnew|]. split.
    + intros Hlen.
      assert (Hne : (mode + 1) mod len <> mode).
      { destruct Hvalid as [Hzero | Hrange].
        - rewrite Hzero. rewrite Z.mod_small by lia. lia.
        - destruct (Z.eq_dec (mode + 1) len) as [Hlast|Hmid].
          + rewrite Hlast, Z.mod_same by lia. lia.
          + rewrite Z.mod_small by lia. lia. }
      rewrite Hnew. split; [exact Hne|]. apply Hreset, Hne.
    + intros Hlen. apply Hsame.
      destruct Hvalid as [Hzero | Hrange].
      * rewrite Hzero, Hlen. reflexivity.
      * assert (mode = 0) as -> by lia. rewrite Hlen. reflexivity.
  - destruct (ControlsExtras.activate_system_spec FLIGHT_MODES
                (set_buttons buttons' self) Hmode)
      as (Hok & Hact & Hpid & Hservos & _ & Hstate & Hservo).
    destruct (_activate_system FLIGHT_MODES (set_buttons buttons' self)) as [s' r].
    cbn [fst snd] in *. subst r. cbn [fst snd].
    split; [reflexivity|]. split; [exact Hact|]. split; [exact Hservos|].
    split; [exact Hstate|]. split; [exact Hservo|].
    split; [intros _; exact Hpid | discriminate].
Qed.

Lemma mode_click_activates_or_cycles_witness :
  let env :=
    {| sensor_env := Examples.sensor_env 2800;
       button_env := {| ButtonManager.now_ms := 2800;
                        ButtonManager.mode_pin := false;
                        ButtonManager.power_pin := true |};
       emergency_now := 2800;
       release_env := Examples.release_env 2800;
       mode_led_now := 2800;
       telemetry_now := 2800;
       telemetry_rc_env := Examples.rc_1800 2800;
       fault := fun _ => None |} in
  system_active MoreExamples.idle_system = false /\
  system_active
    (fst (_handle_controls stabilization_table RELEASE_CONFIG env MoreExamples.idle_system)) =
  true.
Proof.
  intros env. split; [reflexivity|].
  refine (proj1 (proj2 (mode_click_activates_or_cycles stabilization_table RELEASE_CONFIG
                          env MoreExamples.idle_system _ _ _))).
  - vm_compute. reflexivity.
  - exact QuietTickClaims.stabilization_table_well_formed.
  - left. reflexivity.
Defined.

(** X28: A click of the power button alone. [_handle_controls] returns
    with stabilization off and the PID controller untouched. If
    stabilization was on, every servo is set to the neutral duty and the
    release state and servo are left alone. If it was off, the flight servos
    are left alone and the release system is what [emergency_release]
    leaves: with the override enabled and the release servo present it is in
    state RELEASED with the servo at the release position, from whatever
    state it was in. *)
Theorem power_click_deactivates_or_releases
    (FLIGHT_MODES : gmap Z FlightMode) (CONFIG : ReleaseConfig) (env : Env) (self : t) :
  snd (ButtonManager.read_buttons (buttons self) (button_env env)) = (false, true) ->
  let after := fst (_handle_controls FLIGHT_MODES CONFIG env self) in
  snd (_handle_controls FLIGHT_MODES CONFIG env self) = Ok tt /\
  system_active after = false /\
  pid_controller after = pid_controller self /\
  (system_active self = true ->
   servos after = ServoManager.set_neutral (servos self) /\
   ServoManager.all_neutral (servos after) /\
   ReleaseSystem.state (release_system after) = ReleaseSystem.state (release_system self) /\
   ReleaseSystem.servo (release_system after) = ReleaseSystem.servo (release_system self)) /\
  (system_active self = false ->
   servos after = servos self /\
   release_system after =
     fst (ReleaseSystem.emergency_release CONFIG (release_system self) (emergency_now env)) /\
   (emergency_override CONFIG = true ->
    is_Some (ReleaseSystem.servo (release_system self)) ->
    ReleaseSystem.state (release_system after) = "RELEASED" /\
    ReleaseSystem.servo_at (release_system after) (release_position CONFIG))).
Proof.
  intros Hclick after. subst after.
  unfold _handle_controls.
  destruct (ButtonManager.read_buttons (buttons self) (button_env env))
    as [buttons' [mode_clicked power_clicked]].
  cbn [snd] in Hclick. injection Hclick as -> ->.
  unfold bind, when, ret.
  change (system_active (set_buttons buttons' self)) with (system_active self).
  destruct (system_active self) eqn:Hactive.
  - destruct (ControlsExtras.deactivate_system_spec (set_buttons buttons' self))
      as (Hok & Hact & Hservos & Hpid & _ & Hstate & Hservo).
    destruct (_deactivate_system (set_buttons buttons' self)) as [s' r].
    cbn [fst snd] in *. subst r. cbn [fst snd].
    split; [reflexivity|]. split; [exact Hact|]. split; [exact Hpid|].
    split; [intros _ | discriminate].
    split; [exact Hservos|]. split; [|split; assumption].
    rewrite Hservos. apply LoopFacts.set_neutral_all_neutral.
  - unfold emergency_release, modify. cbn [fst snd].
    split; [reflexivity|]. split; [exact Hactive|]. split; [reflexivity|].
    split; [discriminate | intros _].
    split; [reflexivity|]. split; [reflexivity|].
    intros Hoverride [pwm Hservo].
    cbn [release_system set_release_system set_buttons].
    unfold ReleaseSystem.emergency_release, ReleaseSystem.servo_at,
      ReleaseSystem._set_servo_position.
    rewrite Hoverride, Hservo.
    rewrite bool_decide_eq_true_2 by eauto.
    split; reflexivity.
Qed.

Lemma power_click_deactivates_or_releases_witness :
  let env :=
    {| sensor_env := Examples.sensor_env 2800;
       button_env := {| ButtonManager.now_ms := 2800;
                        ButtonManager.mode_pin := true;
                        ButtonManager.power_pin := false |};
       emergency_now := 2800;
       release_env := Examples.release_env 2800;
       mode_led_now := 2800;
       telemetry_now := 2800;
       telemetry_rc_env := Examples.rc_1800 2800;
       fault := fun _ => None |} in
  system_active MoreExamples.locked_flying_system = true /\
  system_active
    (fst (_handle_controls stabilization_table RELEASE_CONFIG env
            MoreExamples.locked_flying_system)) = false.
Proof.
  intros env. split; [reflexivity|].
  refine (proj1 (proj2 (power_click_deactivates_or_releases stabilization_table
                          RELEASE_CONFIG env MoreExamples.locked_flying_system _))).
  vm_compute. reflexivity.
Defined.

End ControlsClaims.
